(** * WaveHero: the adaptive rendering pipeline of docs/js/wave-hero.js

    A shallow embedding of the [WaveHero] object: preset resolution, the
    construction of the point field, the per-frame wave update, the reduced
    grid of the DOM tier, and the controller ([init], the loading of the
    rendering library, the tier cascade, the render loops, [destroy]) run
    against a model of the host page.

    JavaScript numbers are binary64 floats ([PrimFloat]); the grid extents
    [amountX] and [amountY], which the code uses as loop bounds and array
    lengths, are integers.  [Math.sin] and the outcome of every call into the
    browser or into the three.js library are given by the environment. *)

From Stdlib Require Import ZArith Lia Floats String Ascii List Bool.
From stdpp Require Import base option list gmap strings.

Set Warnings "-inexact-float".
Local Open Scope string_scope.
Local Open Scope list_scope.
Local Open Scope Z_scope.

(** ** Numbers *)

Module Num.

(** An integer as a JavaScript number (the nearest binary64 value). *)
Definition ofZ (z : Z) : float := SF2Prim (binary_normalize prec emax z 0 false).

(** [Math.fround]: what a [Float32Array] keeps of a number.  The binary64
    value is rounded to 24 bits of precision, ties to even, and becomes an
    infinity beyond the binary32 range. *)
Definition fround (x : float) : float :=
  match Prim2SF x with
  | S754_finite s m e => SF2Prim (binary_round 24 128 s m e)
  | _ => x
  end.

(** ToBoolean on a number: 0, -0 and NaN are falsy. *)
Definition truthy (x : float) : bool := negb (is_zero x || is_nan x).

End Num.

(** ** Typed arrays

    A [Float32Array] is a list of floats of fixed length.  A write converts
    with [Math.fround]; a write past the end is dropped, as stdpp's list
    insert does. *)

Module Float32Array.

Abbreviation t := (list float).

(** The largest length ToIndex accepts: 2^53 - 1. *)
Definition maxLength : Z := 9007199254740991.

(** [new Float32Array(n)] for an integer [n]: a RangeError ([None]) for a
    negative length and for one above 2^53 - 1, where ToIndex throws.  An
    engine throws a RangeError as well when it cannot allocate the buffer;
    which lengths it refuses is not the program's to decide, so that failure
    is a step of the environment ([GBuffers] below) at the one place that
    allocates, [initWebGL]. *)
Definition make (n : Z) : option t :=
  if (n <? 0) || (maxLength <? n) then None
  else Some (replicate (Z.to_nat n) 0%float).

Definition set (i : nat) (v : float) (a : t) : t := <[i := Num.fround v]> a.

End Float32Array.

(** ** Configuration *)

Record Config := {
  separation : float;
  amountX : Z;
  amountY : Z;
  color : option float;
  color2 : option float;
  waveHeight : float;
  waveSpeed : float;
  cameraZ : float;
  cameraY : float;
  particleSize : float;
  opacity : float
}.

(** [options.custom]: an object carrying any subset of the fields. *)
Record Overrides := {
  o_separation : option float;
  o_amountX : option Z;
  o_amountY : option Z;
  o_color : option float;
  o_color2 : option float;
  o_waveHeight : option float;
  o_waveSpeed : option float;
  o_cameraZ : option float;
  o_cameraY : option float;
  o_particleSize : option float;
  o_opacity : option float
}.

Definition noOverrides : Overrides :=
  Build_Overrides None None None None None None None None None None None.

Module Presets.

Definition waves : Config := {|
  separation := 80; amountX := 60; amountY := 40;
  color := Some 0x8b5cf6%float; color2 := None;
  waveHeight := 30; waveSpeed := 0.05; cameraZ := 1200; cameraY := 400;
  particleSize := 200; opacity := 0.4 |}.

Definition particles : Config := {|
  separation := 100; amountX := 50; amountY := 50;
  color := Some 0x06b6d4%float; color2 := None;
  waveHeight := 50; waveSpeed := 0.03; cameraZ := 1500; cameraY := 500;
  particleSize := 150; opacity := 0.3 |}.

Definition grid : Config := {|
  separation := 60; amountX := 80; amountY := 50;
  color := Some 0xd4a543%float; color2 := None;
  waveHeight := 20; waveSpeed := 0.08; cameraZ := 1000; cameraY := 300;
  particleSize := 180; opacity := 0.5 |}.

Definition nebula : Config := {|
  separation := 120; amountX := 40; amountY := 30;
  color := Some 0xa855f7%float; color2 := Some 0x22d3ee%float;
  waveHeight := 60; waveSpeed := 0.02; cameraZ := 1800; cameraY := 600;
  particleSize := 250; opacity := 0.35 |}.

Definition quantum : Config := {|
  separation := 70; amountX := 70; amountY := 45;
  color := Some 0x22d3ee%float; color2 := Some 0x8b5cf6%float;
  waveHeight := 40; waveSpeed := 0.04; cameraZ := 1100; cameraY := 350;
  particleSize := 220; opacity := 0.45 |}.

Definition governance : Config := {|
  separation := 90; amountX := 55; amountY := 35;
  color := Some 0xd4a543%float; color2 := Some 0x8b5cf6%float;
  waveHeight := 25; waveSpeed := 0.03; cameraZ := 1300; cameraY := 450;
  particleSize := 190; opacity := 0.35 |}.

Definition classical : Config := {|
  separation := 75; amountX := 65; amountY := 42;
  color := Some 0x8b5cf6%float; color2 := None;
  waveHeight := 35; waveSpeed := 0.045; cameraZ := 1150; cameraY := 380;
  particleSize := 210; opacity := 0.4 |}.

(** The [presets] object literal: its own properties. *)
Definition own : gmap string Config :=
  list_to_map
    [ ("waves", waves); ("particles", particles); ("grid", grid);
      ("nebula", nebula); ("quantum", quantum);
      ("governance", governance); ("classical", classical) ].

(** The literal's prototype is [Object.prototype]: a property read with one
    of these names finds a function (or, for [__proto__], the prototype
    object), none of which is a preset. *)
Definition objectPrototypeKeys : list string :=
  [ "constructor"; "__defineGetter__"; "__defineSetter__"; "hasOwnProperty";
    "__lookupGetter__"; "__lookupSetter__"; "isPrototypeOf";
    "propertyIsEnumerable"; "toString"; "valueOf"; "__proto__";
    "toLocaleString" ].

Inductive Entry :=
| Own (c : Config)
| Inherited
| Undefined.

(** [this.presets[name]] *)
Definition get (name : string) : Entry :=
  match own !! name with
  | Some c => Own c
  | None =>
      if existsb (String.eqb name) objectPrototypeKeys then Inherited
      else Undefined
  end.

(** What spreading an object without own enumerable properties leaves: no
    field at all.  Every numeric field is read in arithmetic only, where
    [undefined] is NaN; an extent that is [undefined] bounds no iteration
    ([ix < undefined] is false) and gives a typed array of length 0, as the
    extent 0 does; the color stays [undefined]. *)
Definition noFields : Config := {|
  separation := nan; amountX := 0; amountY := 0;
  color := None; color2 := None;
  waveHeight := nan; waveSpeed := nan; cameraZ := nan; cameraY := nan;
  particleSize := nan; opacity := nan |}.

(** The [pathPresets] literal, in the order [Object.entries] lists it. *)
Definition pathPresets : list (string * string) :=
  [ ("/quantum", "quantum"); ("/governance", "governance");
    ("/classical", "classical"); ("/blog", "nebula");
    ("/about", "particles"); ("/visualizations", "grid"); ("/", "waves") ].

End Presets.

(** [{ ...preset, ...custom }] *)
Definition spread (p : Config) (c : Overrides) : Config := {|
  separation := default (separation p) (o_separation c);
  amountX := default (amountX p) (o_amountX c);
  amountY := default (amountY p) (o_amountY c);
  color := match o_color c with Some v => Some v | None => color p end;
  color2 := match o_color2 c with Some v => Some v | None => color2 p end;
  waveHeight := default (waveHeight p) (o_waveHeight c);
  waveSpeed := default (waveSpeed p) (o_waveSpeed c);
  cameraZ := default (cameraZ p) (o_cameraZ c);
  cameraY := default (cameraY p) (o_cameraY c);
  particleSize := default (particleSize p) (o_particleSize c);
  opacity := default (opacity p) (o_opacity c)
|}.

Definition setColor (v : float) (p : Config) : Config := {|
  separation := separation p; amountX := amountX p; amountY := amountY p;
  color := Some v; color2 := color2 p;
  waveHeight := waveHeight p; waveSpeed := waveSpeed p;
  cameraZ := cameraZ p; cameraY := cameraY p;
  particleSize := particleSize p; opacity := opacity p
|}.

(** ** Options of [init] *)

Record Options := {
  preset : option string;
  container : option string;
  fallbackId : option string;
  optColor : option float;
  custom : option Overrides
}.

Definition noOptions : Options := Build_Options None None None None None.

(** The argument of [init]: left out (or [undefined]), [null], or an object. *)
Inductive Arg :=
| ArgUndefined
| ArgNull
| ArgObject (o : Options).

(** [s || d] on an optional string: the empty string is falsy. *)
Definition strOr (s : option string) (d : string) : string :=
  match s with
  | Some EmptyString | None => d
  | Some s => s
  end.

(** [detectPreset]: the first pattern other than "/" that the path starts
    with. *)
Definition detectPreset (pathname : string) : string :=
  match
    find (fun e => negb (fst e =? "/")%string && String.prefix (fst e) pathname)
         Presets.pathPresets
  with
  | Some e => snd e
  | None => "waves"
  end.

(** The preset name [init] settles on. *)
Definition presetNameOf (pathname : string) (o : Options) : string :=
  strOr (preset o) (detectPreset pathname).

(** [this.presets[presetName] || this.presets.waves]: an inherited member is
    truthy, so it is taken, and spreading it gives no field. *)
Definition presetOrWaves (presetName : string) : Config :=
  match Presets.get presetName with
  | Presets.Own c => c
  | Presets.Inherited => Presets.noFields
  | Presets.Undefined => Presets.waves
  end.

(** [init], from the preset name to the color override: the configuration
    the pipeline runs with. *)
Definition resolveConfig (pathname : string) (o : Options) : Config :=
  let presetName := presetNameOf pathname o in
  let preset := presetOrWaves presetName in
  let config := spread preset (default noOverrides (custom o)) in
  match optColor o with
  | Some c => if Num.truthy c then setColor c config else config
  | None => config
  end.

(** ** The point field of the GPU tier *)

(** [for (let k = 0; k < n; k++) body] threading a state. *)
Definition forRange {S : Type} (n : Z) (body : Z -> S -> S) (s : S) : S :=
  fold_left (fun s k => body (Z.of_nat k) s) (seq 0 (Z.to_nat n)) s.

(** The two buffers with the counters [i] and [j] of the loops. *)
Record Cursor := {
  positions : Float32Array.t;
  scales : Float32Array.t;
  ci : nat;
  cj : nat
}.

Module Field.

Definition gridX (cfg : Config) (ix : Z) : float :=
  (Num.ofZ ix * separation cfg
   - (Num.ofZ (amountX cfg) * separation cfg) / 2)%float.

Definition gridZ (cfg : Config) (iy : Z) : float :=
  (Num.ofZ iy * separation cfg
   - (Num.ofZ (amountY cfg) * separation cfg) / 2)%float.

(** The body of the construction loops of [initWebGL]. *)
Definition layoutPoint (cfg : Config) (ix iy : Z) (c : Cursor) : Cursor :=
  let p := Float32Array.set (ci c) (gridX cfg ix) (positions c) in
  let p := Float32Array.set (ci c + 1) 0%float p in
  let p := Float32Array.set (ci c + 2) (gridZ cfg iy) p in
  let s := Float32Array.set (cj c) 1%float (scales c) in
  {| positions := p; scales := s; ci := ci c + 3; cj := cj c + 1 |}.

(** [initWebGL], from [numParticles] to the end of the loops: [None] when
    the length of an allocation is refused ([Float32Array.make]). *)
Definition build (cfg : Config) : option (Float32Array.t * Float32Array.t) :=
  let numParticles := amountX cfg * amountY cfg in
  pos ← Float32Array.make (numParticles * 3);
  scl ← Float32Array.make numParticles;
  let c :=
    forRange (amountX cfg)
      (fun ix => forRange (amountY cfg) (fun iy => layoutPoint cfg ix iy))
      {| positions := pos; scales := scl; ci := 0; cj := 0 |} in
  Some (positions c, scales c).

End Field.

(** ** The wave update of the GPU tier's render loop *)

Module Wave.

Section WithSin.

(** [Math.sin] of the engine. *)
Variable sin : float -> float.

Definition height (cfg : Config) (count : float) (ix iy : Z) : float :=
  (sin ((Num.ofZ ix + count) * 0.3) * waveHeight cfg
   + sin ((Num.ofZ iy + count) * 0.5) * waveHeight cfg)%float.

Definition size (count : float) (ix iy : Z) : float :=
  ((sin ((Num.ofZ ix + count) * 0.3) + 1) * 8
   + (sin ((Num.ofZ iy + count) * 0.5) + 1) * 8)%float.

(** The body of the update loops of [animate]. *)
Definition wavePoint (cfg : Config) (count : float) (ix iy : Z)
    (c : Cursor) : Cursor :=
  {| positions :=
       Float32Array.set (ci c + 1) (height cfg count ix iy) (positions c);
     scales := Float32Array.set (cj c) (size count ix iy) (scales c);
     ci := ci c + 3;
     cj := cj c + 1 |}.

(** One pass of the update over the two buffers, at time cursor [count]. *)
Definition advance (cfg : Config) (count : float)
    (b : Float32Array.t * Float32Array.t) : Float32Array.t * Float32Array.t :=
  let c :=
    forRange (amountX cfg)
      (fun ix => forRange (amountY cfg) (fun iy => wavePoint cfg count ix iy))
      {| positions := fst b; scales := snd b; ci := 0; cj := 0 |} in
  (positions c, scales c).

End WithSin.

End Wave.

(** ** The grid of the DOM tier *)

Module Css3d.

(** A [CSS3DObject] with its element: position, [userData], and the opacity
    of the element's style once a frame has set it. *)
Record Particle := {
  x : float;
  y : float;
  z : float;
  ix : Z;
  iy : Z;
  elOpacity : option float
}.

Definition countX (cfg : Config) : Z := Z.min (amountX cfg) 20.
Definition countY (cfg : Config) : Z := Z.min (amountY cfg) 15.
Definition spacing (cfg : Config) : float := (separation cfg * 1.5)%float.

Definition place (cfg : Config) (ix iy : Z) : Particle :=
  {| x := (Num.ofZ ix * spacing cfg
           - (Num.ofZ (countX cfg) * spacing cfg) / 2)%float;
     y := 0%float;
     z := (Num.ofZ iy * spacing cfg
           - (Num.ofZ (countY cfg) * spacing cfg) / 2)%float;
     ix := ix;
     iy := iy;
     elOpacity := None |}.

(** The loops of [startCSS3D]: the objects in the order they are pushed. *)
Definition grid (cfg : Config) : list Particle :=
  forRange (countX cfg)
    (fun ix => forRange (countY cfg) (fun iy ps => ps ++ [place cfg ix iy]))
    [].

Section WithSin.

Variable sin : float -> float.

(** The [forEach] of [animateCSS3D]. *)
Definition advance (cfg : Config) (count : float) (ps : list Particle)
    : list Particle :=
  map (fun p =>
         let scale :=
           ((sin ((Num.ofZ (ix p) + count) * 0.3) + 1) * 0.5
            + (sin ((Num.ofZ (iy p) + count) * 0.5) + 1) * 0.5 + 0.5)%float in
         {| x := x p;
            y := (sin ((Num.ofZ (ix p) + count) * 0.3) * waveHeight cfg * 1.3
                  + sin ((Num.ofZ (iy p) + count) * 0.5) * waveHeight cfg * 1.3)%float;
            z := z p;
            ix := ix p;
            iy := iy p;
            elOpacity := Some (scale * opacity cfg * 2)%float |})
      ps.

End WithSin.

(** The extent a grid covers along an axis: points times spacing. *)
Definition extentX (cfg : Config) : float := (Num.ofZ (countX cfg) * spacing cfg)%float.
Definition extentY (cfg : Config) : float := (Num.ofZ (countY cfg) * spacing cfg)%float.

End Css3d.

(** The extent of the full grid of the GPU tier. *)
Definition gpuExtentX (cfg : Config) : float := (Num.ofZ (amountX cfg) * separation cfg)%float.
Definition gpuExtentY (cfg : Config) : float := (Num.ofZ (amountY cfg) * separation cfg)%float.

(** ** The page and the controller's state

    The three.js objects (scene, camera, geometry, material, renderers) are
    opaque: the state keeps whether a renderer exists and what the theorems
    below are about (the buffers, the DOM particles, the frame requests).  The
    fields [scene] and [camera], the pointer position ([mouseX], [mouseY],
    [windowHalfX], [windowHalfY]) and the listeners of [setupInteraction] are
    not part of the state: [initWebGL] and [startCSS3D] assign [scene] and
    [camera] first in their [try] blocks, so a theorem on [Hero] speaks of
    the fields listed in the record and of no other. *)

(** An element of the document, as far as the pipeline writes to it:
    [style.display = 'block'] and the class [hidden]. *)
Record Element := {
  displayBlock : bool;
  hiddenClass : bool
}.

Definition newElement : Element := {| displayBlock := false; hiddenClass := false |}.

(** The two scripts the pipeline loads on demand. *)
Inductive Script := ThreeJs | Css3dJs.

(** The closures handed to [requestAnimationFrame]; each carries the [cfg] it
    captured when [animate] or [animateCSS3D] was called. *)
Inductive Callback :=
| GpuLoop (cfg : option Config)
| DomLoop (cfg : option Config).

(** Function entries: the page's [trace] lists them, the latest first. *)
Inductive Fn :=
| FInit | FLoadThreeJS | FOnThreeLoaded | FInitWebGL | FInitCSS3D
| FStartCSS3D | FAnimate | FAnimateCSS3D | FShowFallback | FDestroy
| FGpuFrame | FDomFrame.

Record WebGLRenderer := {
  canvas : option string;
  disposed : bool
}.

Record CSS3DRenderer := {
  attached : bool
}.

(** The fields of the [WaveHero] object that the model keeps ([scene],
    [camera] and the pointer fields are left out, see above). *)
Record Hero := {
  config : option Config;
  renderer : option WebGLRenderer;
  particles : option (Float32Array.t * Float32Array.t);
  css3dRenderer : option CSS3DRenderer;
  css3dParticles : list Css3d.Particle;
  animationId : option nat;
  initialized : bool;
  containerId : option string;
  fallbackEl : option string;
  count : float
}.

(** The browser side: the document, what it has been asked to load and to
    call back, the console, and the record of function entries.

    [dom] holds the elements that carry an id, with the two properties the
    pipeline writes on them ([Element]).  The elements without an id are kept
    with their owners: the [div]s of the DOM tier in [css3dParticles] (with
    the opacity a frame writes), the element of the CSS3D renderer in
    [css3dRenderer] ([attached]: whether it is in the document).  Equality of
    [dom] is therefore about the id-carrying elements only. *)
Record Page := {
  pathname : string;
  hasBody : bool;
  hasTHREE : bool;
  dom : gmap string Element;
  pendingScripts : list Script;
  frameRequests : list (nat * Callback);
  nextFrameId : nat;
  console : list string;
  trace : list Fn
}.

Record World := {
  hero : Hero;
  page : Page
}.

Definition newHero : Hero := {|
  config := None; renderer := None; particles := None; css3dRenderer := None;
  css3dParticles := []; animationId := None; initialized := false;
  containerId := None; fallbackEl := None; count := 0%float |}.

(** A page that has just loaded the script: [path] is its URL path, [body]
    whether [document.body] exists yet, [three] whether [window.THREE] is
    already defined, [elements] the elements it has with an id. *)
Definition freshWorld (path : string) (body three : bool)
    (elements : gmap string Element) : World :=
  {| hero := newHero;
     page := {| pathname := path; hasBody := body; hasTHREE := three;
                dom := elements; pendingScripts := []; frameRequests := [];
                nextFrameId := 1; console := []; trace := [] |} |}.

(** Field updates. *)

Definition updHero (f : Hero -> Hero) (w : World) : World :=
  {| hero := f (hero w); page := page w |}.

Definition updPage (f : Page -> Page) (w : World) : World :=
  {| hero := hero w; page := f (page w) |}.

Definition setConfig v (h : Hero) : Hero :=
  Build_Hero
    v (renderer h) (particles h) (css3dRenderer h) (css3dParticles h)
    (animationId h) (initialized h) (containerId h) (fallbackEl h) (count h).

Definition setRenderer v (h : Hero) : Hero :=
  Build_Hero
    (config h) v (particles h) (css3dRenderer h) (css3dParticles h)
    (animationId h) (initialized h) (containerId h) (fallbackEl h) (count h).

Definition setParticles v (h : Hero) : Hero :=
  Build_Hero
    (config h) (renderer h) v (css3dRenderer h) (css3dParticles h)
    (animationId h) (initialized h) (containerId h) (fallbackEl h) (count h).

Definition setCss3dRenderer v (h : Hero) : Hero :=
  Build_Hero
    (config h) (renderer h) (particles h) v (css3dParticles h)
    (animationId h) (initialized h) (containerId h) (fallbackEl h) (count h).

Definition setCss3dParticles v (h : Hero) : Hero :=
  Build_Hero
    (config h) (renderer h) (particles h) (css3dRenderer h) v (animationId h)
    (initialized h) (containerId h) (fallbackEl h) (count h).

Definition setAnimationId v (h : Hero) : Hero :=
  Build_Hero
    (config h) (renderer h) (particles h) (css3dRenderer h)
    (css3dParticles h) v (initialized h) (containerId h) (fallbackEl h)
    (count h).

Definition setInitialized v (h : Hero) : Hero :=
  Build_Hero
    (config h) (renderer h) (particles h) (css3dRenderer h)
    (css3dParticles h) (animationId h) v (containerId h) (fallbackEl h)
    (count h).

Definition setContainerId v (h : Hero) : Hero :=
  Build_Hero
    (config h) (renderer h) (particles h) (css3dRenderer h)
    (css3dParticles h) (animationId h) (initialized h) v (fallbackEl h)
    (count h).

Definition setFallbackEl v (h : Hero) : Hero :=
  Build_Hero
    (config h) (renderer h) (particles h) (css3dRenderer h)
    (css3dParticles h) (animationId h) (initialized h) (containerId h) v
    (count h).

Definition setCount v (h : Hero) : Hero :=
  Build_Hero
    (config h) (renderer h) (particles h) (css3dRenderer h)
    (css3dParticles h) (animationId h) (initialized h) (containerId h)
    (fallbackEl h) v.

Definition setHasTHREE v (p : Page) : Page :=
  Build_Page
    (pathname p) (hasBody p) v (dom p) (pendingScripts p) (frameRequests p)
    (nextFrameId p) (console p) (trace p).

Definition setDom v (p : Page) : Page :=
  Build_Page
    (pathname p) (hasBody p) (hasTHREE p) v (pendingScripts p)
    (frameRequests p) (nextFrameId p) (console p) (trace p).

Definition setPendingScripts v (p : Page) : Page :=
  Build_Page
    (pathname p) (hasBody p) (hasTHREE p) (dom p) v (frameRequests p)
    (nextFrameId p) (console p) (trace p).

Definition setFrameRequests v (p : Page) : Page :=
  Build_Page
    (pathname p) (hasBody p) (hasTHREE p) (dom p) (pendingScripts p) v
    (nextFrameId p) (console p) (trace p).

Definition setNextFrameId v (p : Page) : Page :=
  Build_Page
    (pathname p) (hasBody p) (hasTHREE p) (dom p) (pendingScripts p)
    (frameRequests p) v (console p) (trace p).

Definition setConsole v (p : Page) : Page :=
  Build_Page
    (pathname p) (hasBody p) (hasTHREE p) (dom p) (pendingScripts p)
    (frameRequests p) (nextFrameId p) v (trace p).

Definition setTrace v (p : Page) : Page :=
  Build_Page
    (pathname p) (hasBody p) (hasTHREE p) (dom p) (pendingScripts p)
    (frameRequests p) (nextFrameId p) (console p) v.


(** ** The environment

    What the pipeline cannot decide: [Math.sin], the result of the WebGL
    probe, and which call into three.js or into the engine (if any) throws.
    The steps are the calls of the two [try] blocks in source order.  What
    is thrown is an [Error], as three.js and the engine throw: the [catch]
    blocks read its [message]. *)

Inductive Probe := ProbeThrows | ProbeFalsy | ProbeTruthy.

Inductive GpuStep :=
| GScene      (* new THREE.Scene, new THREE.PerspectiveCamera *)
| GBuffers    (* new Float32Array: the buffer cannot be allocated *)
| GGeometry   (* BufferGeometry, ShaderMaterial, Points, scene.add *)
| GRenderer   (* new THREE.WebGLRenderer: the context cannot be created *)
| GSetup      (* setPixelRatio, setSize, setClearColor *)
| GRender.    (* renderer.render in a frame *)

Inductive DomStep :=
| DScene      (* new THREE.Scene, new THREE.PerspectiveCamera, lookAt *)
| DObject     (* new THREE.CSS3DObject, scene.add *)
| DRenderer   (* new THREE.CSS3DRenderer *)
| DRender.    (* css3dRenderer.render in a frame *)

#[global] Instance GpuStep_eq_dec : EqDecision GpuStep.
Proof. solve_decision. Defined.

#[global] Instance DomStep_eq_dec : EqDecision DomStep.
Proof. solve_decision. Defined.

#[global] Instance Fn_eq_dec : EqDecision Fn.
Proof. solve_decision. Defined.

Record Env := {
  Math_sin : float -> float;
  webglContext : Probe;
  gpuThrows : option GpuStep;
  domThrows : option DomStep
}.

(** ** Statements: state and exceptions *)

Inductive Res (A : Type) :=
| Ok (a : A)
| Throw (e : string).

Arguments Ok {A} a.
Arguments Throw {A} e.

Definition M (A : Type) : Type := World -> Res A * World.

Definition ret {A : Type} (a : A) : M A := fun w => (Ok a, w).

Definition bind {A B : Type} (m : M A) (k : A -> M B) : M B :=
  fun w =>
    match m w with
    | (Ok a, w') => k a w'
    | (Throw e, w') => (Throw e, w')
    end.

Definition throw {A : Type} (e : string) : M A := fun w => (Throw e, w).

(** [try { m } catch (e) { h e }]: the handler runs in the state the throw
    left. *)
Definition tryCatch {A : Type} (m : M A) (h : string -> M A) : M A :=
  fun w =>
    match m w with
    | (Ok a, w') => (Ok a, w')
    | (Throw e, w') => h e w'
    end.

Definition get : M World := fun w => (Ok w, w).

Definition modify (f : World -> World) : M unit := fun w => (Ok tt, f w).

Notation "x <- m ;; k" := (bind m (fun x => k))
  (at level 100, m at level 99, right associativity).
Notation "m ;; k" := (bind m (fun _ => k))
  (at level 100, right associativity).

Fixpoint forEach {A : Type} (l : list A) (body : A -> M unit) : M unit :=
  match l with
  | [] => ret tt
  | a :: l => body a ;; forEach l body
  end.

Definition dquote : string := String (Ascii.ascii_of_nat 34) EmptyString.

(** ** The functions of [WaveHero] *)

Section Pipeline.

Variable env : Env.

Definition enter (f : Fn) : M unit :=
  modify (updPage (fun p => setTrace (f :: trace p) p)).

(** [console.log] and [console.warn]. *)
Definition log (s : string) : M unit :=
  modify (updPage (fun p => setConsole (console p ++ [s]) p)).

(** [document.getElementById]: an element is referred to by its id. *)
Definition getElementById (id : option string) : M (option string) :=
  w <- get ;;
  ret (match id with
       | Some id => match dom (page w) !! id with Some _ => Some id | None => None end
       | None => None
       end).

(** [document.body.insertBefore(el, document.body.firstChild)] for a new
    element with this id: a TypeError while [document.body] is null. *)
Definition insertIntoBody (id : string) : M unit :=
  w <- get ;;
  if hasBody (page w)
  then modify (updPage (fun p => setDom (<[id := newElement]> (dom p)) p))
  else throw "TypeError: document.body is null".

Definition createElements : M unit :=
  w <- get ;;
  match dom (page w) !! "wavehero-canvas" with
  | Some _ => ret tt
  | None => insertIntoBody "wavehero-canvas"
  end ;;
  w <- get ;;
  match dom (page w) !! "wavehero-fallback" with
  | Some _ => ret tt
  | None => insertIntoBody "wavehero-fallback"
  end.

(** [document.head.appendChild(script)]: the load is pending until the
    browser settles it. *)
Definition appendScript (s : Script) : M unit :=
  modify (updPage (fun p => setPendingScripts (pendingScripts p ++ [s]) p)).

Definition requestAnimationFrame (cb : Callback) : M nat :=
  w <- get ;;
  let id := nextFrameId (page w) in
  modify (updPage (fun p =>
    setNextFrameId (S id) (setFrameRequests (frameRequests p ++ [(id, cb)]) p))) ;;
  ret id.

Definition cancelAnimationFrame (id : nat) : M unit :=
  modify (updPage (fun p =>
    setFrameRequests
      (filter (fun r => fst r ≠ id) (frameRequests p)) p)).

Definition oracleGpu (s : GpuStep) : M unit :=
  if decide (gpuThrows env = Some s) then throw "three.js threw" else ret tt.

Definition oracleDom (s : DomStep) : M unit :=
  if decide (domThrows env = Some s) then throw "three.js threw" else ret tt.

(** A property read on [cfg]: a TypeError when [cfg] is null. *)
Definition requireConfig (cfg : option Config) : M Config :=
  match cfg with
  | Some c => ret c
  | None => throw "TypeError: cfg is null"
  end.

(** [if (this.fallbackEl) this.fallbackEl.classList.add('hidden')] *)
Definition hideFallback : M unit :=
  w <- get ;;
  match fallbackEl (hero w) with
  | Some id =>
      modify (updPage (fun p =>
        setDom (alter (fun e => {| displayBlock := displayBlock e;
                                   hiddenClass := true |}) id (dom p)) p))
  | None => ret tt
  end.

Definition showFallback (reason : string) : M unit :=
  enter FShowFallback ;;
  log ("WaveHero: " +:+ reason +:+ ", using CSS fallback").

(** [setupInteraction]: the assignments up to [this.count = 0], then
    [document.body.addEventListener], a TypeError while [document.body] is
    null.  The listeners themselves write the pointer fields and the camera
    only. *)
Definition setupInteraction : M unit :=
  modify (updHero (setCount 0%float)) ;;
  w <- get ;;
  if hasBody (page w)
  then ret tt
  else throw "TypeError: document.body is null".

(** The function [loop] of [animate].  The camera arithmetic that comes
    first in the source reads [cfg.cameraY] (hence [requireConfig]) and
    changes the camera only; the call that can fail is [renderer.render]. *)
Definition gpuFrame (cfg : option Config) : M unit :=
  enter FGpuFrame ;;
  id <- requestAnimationFrame (GpuLoop cfg) ;;
  modify (updHero (setAnimationId (Some id))) ;;
  c <- requireConfig cfg ;;
  w <- get ;;
  match particles (hero w) with
  | Some b =>
      modify (updHero (setParticles
        (Some (Wave.advance (Math_sin env) c (count (hero w)) b))))
  | None => throw "TypeError: self.particles is null"
  end ;;
  match renderer (hero w) with
  | Some _ => oracleGpu GRender
  | None => throw "TypeError: self.renderer is null"
  end ;;
  w <- get ;;
  modify (updHero (setCount (count (hero w) + waveSpeed c)%float)).

Definition animate : M unit :=
  enter FAnimate ;;
  w <- get ;;
  gpuFrame (config (hero w)).

(** The function [loop] of [animateCSS3D]. *)
Definition domFrame (cfg : option Config) : M unit :=
  enter FDomFrame ;;
  id <- requestAnimationFrame (DomLoop cfg) ;;
  modify (updHero (setAnimationId (Some id))) ;;
  c <- requireConfig cfg ;;
  w <- get ;;
  modify (updHero (setCss3dParticles
    (Css3d.advance (Math_sin env) c (count (hero w)) (css3dParticles (hero w))))) ;;
  match css3dRenderer (hero w) with
  | Some _ => oracleDom DRender
  | None => throw "TypeError: self.css3dRenderer is null"
  end ;;
  w <- get ;;
  modify (updHero (setCount (count (hero w) + waveSpeed c)%float)).

Definition animateCSS3D : M unit :=
  enter FAnimateCSS3D ;;
  w <- get ;;
  domFrame (config (hero w)).

Definition startCSS3D : M unit :=
  enter FStartCSS3D ;;
  w <- get ;;
  c <- requireConfig (config (hero w)) ;;
  tryCatch
    (oracleDom DScene ;;
     match color c with
     | Some _ => ret tt
     | None => throw "TypeError: cfg.color is undefined"
     end ;;
     match Css3d.grid c with
     | [] => ret tt
     | _ :: _ => oracleDom DObject
     end ;;
     modify (updHero (setCss3dParticles (Css3d.grid c))) ;;
     oracleDom DRenderer ;;
     modify (updHero (setCss3dRenderer (Some {| attached := false |}))) ;;
     w <- get ;;
     (if hasBody (page w)
      then modify (updHero (setCss3dRenderer (Some {| attached := true |})))
      else throw "TypeError: document.body is null") ;;
     hideFallback ;;
     log "WaveHero: CSS3D active" ;;
     setupInteraction ;;
     animateCSS3D)
    (fun e => showFallback ("CSS3D failed: " +:+ e)).

Definition initCSS3D : M unit :=
  enter FInitCSS3D ;;
  appendScript Css3dJs.

Definition initWebGL : M unit :=
  enter FInitWebGL ;;
  w <- get ;;
  let cfg := config (hero w) in
  container <- getElementById (containerId (hero w)) ;;
  container <-
    match container with
    | Some el => ret (Some el)
    | None =>
        log "WaveHero: Canvas element not found, creating one" ;;
        createElements ;;
        getElementById (containerId (hero w))
    end ;;
  tryCatch
    (oracleGpu GScene ;;
     c <- requireConfig cfg ;;
     b <- match Field.build c with
          | Some b => oracleGpu GBuffers ;; ret b
          | None => throw "RangeError: Invalid typed array length"
          end ;;
     oracleGpu GGeometry ;;
     modify (updHero (setParticles (Some b))) ;;
     oracleGpu GRenderer ;;
     modify (updHero (setRenderer
       (Some {| canvas := container; disposed := false |}))) ;;
     oracleGpu GSetup ;;
     match container with
     | Some id =>
         modify (updPage (fun p =>
           setDom (alter (fun e => {| displayBlock := true;
                                      hiddenClass := hiddenClass e |}) id (dom p)) p))
     | None => throw "TypeError: container is null"
     end ;;
     hideFallback ;;
     (* the line ends with the pixel ratio, "(DPR: n)", left out here *)
     log "WaveHero: WebGL active" ;;
     setupInteraction ;;
     animate)
    (fun e =>
       log ("WaveHero: WebGL failed, trying CSS3D: " +:+ e) ;;
       initCSS3D).

Definition webglSupported : bool :=
  match webglContext env with
  | ProbeTruthy => true
  | ProbeFalsy | ProbeThrows => false
  end.

Definition onThreeLoaded : M unit :=
  enter FOnThreeLoaded ;;
  if webglSupported then initWebGL else initCSS3D.

Definition loadThreeJS : M unit :=
  enter FLoadThreeJS ;;
  w <- get ;;
  if hasTHREE (page w) then onThreeLoaded else appendScript ThreeJs.

Definition init (a : Arg) : M unit :=
  enter FInit ;;
  w <- get ;;
  if initialized (hero w) then log "WaveHero: Already initialized"
  else
    o <- match a with
         | ArgUndefined => ret noOptions
         | ArgObject o => ret o
         | ArgNull => throw "TypeError: Cannot read properties of null"
         end ;;
    let presetName := presetNameOf (pathname (page w)) o in
    modify (updHero (setConfig (Some (resolveConfig (pathname (page w)) o)))) ;;
    createElements ;;
    modify (updHero (setContainerId (Some (strOr (container o) "wavehero-canvas")))) ;;
    el <- getElementById (Some (strOr (fallbackId o) "wavehero-fallback")) ;;
    modify (updHero (setFallbackEl el)) ;;
    log ("WaveHero: Initializing with preset " +:+ dquote +:+ presetName +:+ dquote) ;;
    modify (updHero (setInitialized true)) ;;
    loadThreeJS.

Definition destroy : M unit :=
  enter FDestroy ;;
  w <- get ;;
  match animationId (hero w) with
  | Some id => if (id =? 0)%nat then ret tt else cancelAnimationFrame id
  | None => ret tt
  end ;;
  match renderer (hero w) with
  | Some r =>
      modify (updHero (setRenderer
        (Some {| canvas := canvas r; disposed := true |})))
  | None => ret tt
  end ;;
  match css3dRenderer (hero w) with
  | Some _ =>
      modify (updHero (setCss3dRenderer (Some {| attached := false |})))
  | None => ret tt
  end ;;
  modify (updHero (setInitialized false)).

(** *** What the browser does *)

(** The pending script at position [k] finishes: [onload] when [ok],
    [onerror] otherwise.  A throw in a handler goes to the console. *)
Definition scriptSettles (k : nat) (ok : bool) : M unit :=
  w <- get ;;
  match pendingScripts (page w) !! k with
  | None => ret tt
  | Some s =>
      modify (updPage (fun p => setPendingScripts (delete k (pendingScripts p)) p)) ;;
      match s, ok with
      | ThreeJs, true =>
          modify (updPage (setHasTHREE true)) ;; onThreeLoaded
      | ThreeJs, false => showFallback "Three.js failed to load"
      | Css3dJs, true => startCSS3D
      | Css3dJs, false => showFallback "CSS3D failed to load"
      end
  end.

Definition runCallback (r : nat * Callback) : M unit :=
  match snd r with
  | GpuLoop cfg => gpuFrame cfg
  | DomLoop cfg => domFrame cfg
  end.

(** One display frame: every callback requested before it runs once. *)
Definition frame : M unit :=
  w <- get ;;
  modify (updPage (setFrameRequests [])) ;;
  forEach (frameRequests (page w))
    (fun r => tryCatch (runCallback r) (fun e => log ("Uncaught " +:+ e))).

End Pipeline.

(** ** Runs *)

Inductive Event :=
| CallInit (a : Arg)
| CallDestroy
| ScriptSettles (k : nat) (ok : bool)
| Frame.

(** What one event does, and what its caller sees. *)
Definition step (env : Env) (ev : Event) : M unit :=
  match ev with
  | CallInit a => init env a
  | CallDestroy => destroy
  | ScriptSettles k ok => scriptSettles env k ok
  | Frame => frame env
  end.

(** A run: each event under the environment of its moment. *)
Definition run (evs : list (Env * Event)) (w : World) : World :=
  fold_left (fun w e => snd (step (fst e) (snd e) w)) evs w.

(** ** The pixel ratio *)

Module Math.

(** [Math.min] of two numbers: NaN when either is, and -0 below +0. *)
Definition min (x y : float) : float :=
  if is_nan x || is_nan y then nan
  else if (x <? y)%float then x
  else if (y <? x)%float then y
  else if is_zero x && get_sign x then x
  else y.

End Math.

(** [getPixelRatio]; [dpr] is [window.devicePixelRatio], [None] where the
    browser does not define it. *)
Definition getPixelRatio (dpr : option float) : float :=
  let dpr :=
    match dpr with
    | Some d => if Num.truthy d then d else 1%float
    | None => 1%float
    end in
  Math.min dpr 3.


(** ** Automatic initialization *)

(** A [script] element of the document: its [src], whether it has the
    attribute [data-auto], and its attributes [data-preset] and [data-color]
    ([None] where [getAttribute] gives [null]). *)
Record ScriptTag := {
  scriptSrc : option string;
  dataAuto : bool;
  dataPreset : option string;
  dataColor : option string
}.

(** [parseInt(s, 16)].  A string is the sequence of its code units, each
    below 256. *)
Module ParseInt.

(** The white space and line terminators below 256: TAB, LF, VT, FF, CR,
    SP and NBSP. *)
Definition isWhiteSpace (c : ascii) : bool :=
  bool_decide (nat_of_ascii c ∈ [9; 10; 11; 12; 13; 32; 160]%nat).

Definition hexDigit (c : ascii) : option Z :=
  let n := Z.of_nat (nat_of_ascii c) in
  if (48 <=? n) && (n <=? 57) then Some (n - 48)
  else if (97 <=? n) && (n <=? 102) then Some (n - 87)
  else if (65 <=? n) && (n <=? 70) then Some (n - 55)
  else None.

Fixpoint trimStart (s : string) : string :=
  match s with
  | String c r => if isWhiteSpace c then trimStart r else s
  | EmptyString => s
  end.

(** The value of the digits [s] starts with, after the digits read so far;
    [None] while no digit has been read. *)
Fixpoint digits (s : string) (read : option Z) : option Z :=
  match s with
  | String c r =>
      match hexDigit c with
      | Some d => digits r (Some (16 * default 0 read + d))
      | None => read
      end
  | EmptyString => read
  end.

Definition parseInt16 (s : string) : float :=
  let s := trimStart s in
  let negative :=
    match s with
    | String "-"%char _ => true
    | _ => false
    end in
  let s :=
    match s with
    | String "-"%char r | String "+"%char r => r
    | _ => s
    end in
  let s :=
    match s with
    | String "0"%char (String "x"%char r) | String "0"%char (String "X"%char r) => r
    | _ => s
    end in
  match digits s None with
  | None => nan
  | Some 0 => if negative then (-0)%float else 0%float
  | Some n => Num.ofZ (if negative then - n else n)
  end.

End ParseInt.

(** [s] contains [needle]. *)
Fixpoint contains (needle s : string) : bool :=
  String.prefix needle s
  || match s with
     | String _ r => contains needle r
     | EmptyString => false
     end.

(** The selector [script[src*="wave-hero.js"]]. *)
Definition selected (t : ScriptTag) : bool :=
  match scriptSrc t with
  | Some s => contains "wave-hero.js" s
  | None => false
  end.

(** [color ? parseInt(color, 16) : undefined] *)
Definition colorOf (t : ScriptTag) : option float :=
  match dataColor t with
  | None | Some EmptyString => None
  | Some c => Some (ParseInt.parseInt16 c)
  end.

(** The argument with which the callback of [autoInit] calls [init], if it
    does. *)
Definition tagArg (t : ScriptTag) : option Arg :=
  if dataAuto t then Some ArgUndefined
  else
    match dataPreset t with
    | None | Some EmptyString => None
    | Some p =>
        Some (ArgObject {| preset := Some p; container := None;
                           fallbackId := None; optColor := colorOf t;
                           custom := None |})
    end.

(** [autoInit]; [scripts] are the [script] elements of the document, in
    document order. *)
Definition autoInit (env : Env) (scripts : list ScriptTag) : M unit :=
  forEach (filter (fun t => selected t = true) scripts)
    (fun t => match tagArg t with
              | Some a => init env a
              | None => ret tt
              end).

(** * Definitions for the proofs *)

(** ** The nested loops

    The pairs (column, row) in the order the two nested loops visit them,
    and a loop body folded over them. *)

Definition gridPoints (nx ny : Z) : list (Z * Z) :=
  flat_map (fun ix => map (fun iy => (Z.of_nat ix, Z.of_nat iy)) (seq 0 (Z.to_nat ny)))
           (seq 0 (Z.to_nat nx)).

Definition foldPoints (body : Z -> Z -> Cursor -> Cursor) (l : list (Z * Z))
    (c : Cursor) : Cursor :=
  fold_left (fun c p => body (fst p) (snd p) c) l c.

(** The buffers with both running indices at 0. *)
Definition startCursor (pos scl : Float32Array.t) : Cursor :=
  {| positions := pos; scales := scl; ci := 0; cj := 0 |}.

(** The construction loops of [initWebGL] after the points [l], started on
    the buffers [pos0] and [scl0]. *)
Record LayoutInv (cfg : Config) (pos0 scl0 : Float32Array.t) (l : list (Z * Z))
    (c : Cursor) : Prop := {
  li_ci : ci c = (3 * length l)%nat;
  li_cj : cj c = length l;
  li_len_pos : length (positions c) = length pos0;
  li_len_scl : length (scales c) = length scl0;
  li_point : forall k p, l !! k = Some p -> (3 * k + 2 < length pos0)%nat ->
    positions c !! (3 * k)%nat = Some (Num.fround (Field.gridX cfg (fst p)))
    /\ positions c !! (3 * k + 1)%nat = Some 0%float
    /\ positions c !! (3 * k + 2)%nat = Some (Num.fround (Field.gridZ cfg (snd p)));
  li_scale : forall k, (k < length l)%nat -> (k < length scl0)%nat ->
    scales c !! k = Some 1%float
}.

(** The update loops of a frame after the points [l]. *)
Record WaveInv (sin : float -> float) (cfg : Config) (t : float) (pos0 scl0 : Float32Array.t)
    (l : list (Z * Z)) (c : Cursor) : Prop := {
  wi_ci : ci c = (3 * length l)%nat;
  wi_cj : cj c = length l;
  wi_len_pos : length (positions c) = length pos0;
  wi_len_scl : length (scales c) = length scl0;
  wi_xz : forall idx, (idx mod 3 <> 1)%nat -> positions c !! idx = pos0 !! idx;
  wi_beyond : forall idx, (3 * length l <= idx)%nat -> positions c !! idx = pos0 !! idx;
  wi_y : forall k p, l !! k = Some p -> (3 * k + 1 < length pos0)%nat ->
    positions c !! (3 * k + 1)%nat
    = Some (Num.fround (Wave.height sin cfg t (fst p) (snd p)));
  wi_scale : forall k p, l !! k = Some p -> (k < length scl0)%nat ->
    scales c !! k = Some (Num.fround (Wave.size sin t (fst p) (snd p)));
  wi_scale_beyond : forall idx, (length l <= idx)%nat -> scales c !! idx = scl0 !! idx
}.

(** The buffers after the frames whose time cursors are [ts], in order. *)
Definition frames (sin : float -> float) (cfg : Config) (ts : list float)
    (b : list float * list float) : list float * list float :=
  fold_left (fun b t => Wave.advance sin cfg t b) ts b.

(** ** What a statement leaves as it is *)

(** Every run of [m] relates the state it starts in to the state it ends
    in. *)
Definition steps {A : Type} (R : relation World) (m : M A) : Prop :=
  forall w, R w (snd (m w)).

(** A part of the state that a statement leaves as it is. *)
Definition keeps {X : Type} (f : World -> X) : relation World :=
  fun w w' => f w' = f w.

#[global] Instance keeps_preorder {X : Type} (f : World -> X) : PreOrder (keeps f).
Proof. split; unfold keeps; [intros w | intros a b c]; congruence. Qed.

(** What no function below [init] and [destroy] writes. *)
Definition settings (w : World) :=
  (config (hero w), initialized (hero w), containerId (hero w),
   fallbackEl (hero w), pathname (page w), hasBody (page w)).

(** ** Tiers, read off the trace *)

Inductive Tier := GpuTier | DomTier | StaticTier.

(** The tier a function belongs to: 2 for the GPU tier, 1 for the DOM tier,
    0 for the static fallback. *)
Definition rank (f : Fn) : option nat :=
  match f with
  | FInitWebGL | FAnimate => Some 2%nat
  | FInitCSS3D | FStartCSS3D | FAnimateCSS3D => Some 1%nat
  | FShowFallback => Some 0%nat
  | _ => None
  end.

Definition ranks (tr : list Fn) : list nat := omap rank tr.

(** On ranks listed latest first: no entry is followed in time by one of a
    higher tier. *)
Fixpoint neverRises (rs : list nat) : bool :=
  match rs with
  | r :: (r' :: _) as rest => (r <=? r')%nat && neverRises rest
  | _ => true
  end.

(** Each entry (latest first) is in the tier of the one before it or in the
    tier just below: the only changes are from 2 to 1 and from 1 to 0. *)
Fixpoint descends (rs : list nat) : bool :=
  match rs with
  | r :: (r' :: _) as rest =>
      (r <=? r')%nat && (r' <=? S r)%nat && descends rest
  | _ => true
  end.

(** The tier the pipeline is in: the one whose loop was started last, or the
    static fallback once [showFallback] ran; none while a tier is being set
    up. *)
Fixpoint tierOf (tr : list Fn) : option Tier :=
  match tr with
  | [] => None
  | FAnimate :: _ => Some GpuTier
  | FAnimateCSS3D :: _ => Some DomTier
  | FShowFallback :: _ => Some StaticTier
  | FInitWebGL :: _ | FInitCSS3D :: _ | FStartCSS3D :: _ => None
  | _ :: tr => tierOf tr
  end.

(** ** Effects of a statement *)

(** What a statement adds: function entries (latest first), script loads,
    whether it may have put the class [hidden] on an element, and whether it
    found [document.body] null in [setupInteraction]. *)
Record Effect := {
  e_trace : list Fn;
  e_scripts : list Script;
  e_hides : bool;
  e_nobody : bool
}.

#[global] Instance Script_eq_dec : EqDecision Script.
Proof. solve_decision. Defined.

#[global] Instance Effect_eq_dec : EqDecision Effect.
Proof. solve_decision. Defined.

Definition nothing : Effect :=
  {| e_trace := []; e_scripts := []; e_hides := false; e_nobody := false |}.

Definition entered (f : Fn) : Effect :=
  {| e_trace := [f]; e_scripts := []; e_hides := false; e_nobody := false |}.

Definition requested (s : Script) : Effect :=
  {| e_trace := []; e_scripts := [s]; e_hides := false; e_nobody := false |}.

Definition hides : Effect :=
  {| e_trace := []; e_scripts := []; e_hides := true; e_nobody := false |}.

Definition nobody : Effect :=
  {| e_trace := []; e_scripts := []; e_hides := false; e_nobody := true |}.

(** [o1], then [o2]. *)
Definition andThen (o1 o2 : Effect) : Effect :=
  {| e_trace := e_trace o2 ++ e_trace o1;
     e_scripts := e_scripts o1 ++ e_scripts o2;
     e_hides := e_hides o1 || e_hides o2;
     e_nobody := e_nobody o1 || e_nobody o2 |}.

(** Any of [X], then any of [Y]. *)
Definition andThenAny (X Y : list Effect) : list Effect :=
  flat_map (fun o1 => map (andThen o1) Y) X.

Definition subsetb (X Y : list Effect) : bool :=
  forallb (fun o => bool_decide (o ∈ Y)) X.

(** Every element that has the class [hidden] in [w'] had it in [w]. *)
Definition noneHidden (w w' : World) : Prop :=
  forall id e', dom (page w') !! id = Some e' -> hiddenClass e' = true ->
    exists e, dom (page w) !! id = Some e /\ hiddenClass e = true.

(** No element is removed. *)
Definition domGrows (w w' : World) : Prop :=
  forall id, is_Some (dom (page w) !! id) -> is_Some (dom (page w') !! id).

(** [w'] is [w] after the effect [o]. *)
Record does (o : Effect) (w w' : World) : Prop := {
  does_trace : trace (page w') = e_trace o ++ trace (page w);
  does_scripts : pendingScripts (page w') = pendingScripts (page w) ++ e_scripts o;
  does_hides : e_hides o = false -> noneHidden w w';
  does_settings : settings w' = settings w;
  does_dom : domGrows w w';
  does_nobody : e_nobody o = true -> hasBody (page w) = false
}.

(** The state [init] leaves to the functions it calls: a configuration, and
    the two default elements. *)
Definition ready (w : World) : Prop :=
  is_Some (config (hero w))
  /\ is_Some (dom (page w) !! "wavehero-canvas")
  /\ is_Some (dom (page w) !! "wavehero-fallback").

(** From a ready state, [m] has one of the effects [N] when it returns and
    one of [T] when it throws. *)
Definition eff {A : Type} (m : M A) (N T : list Effect) : Prop :=
  forall w, ready w ->
    exists o, does o w (snd (m w))
      /\ match fst (m w) with Ok _ => o ∈ N | Throw _ => o ∈ T end.

(** The outcomes of [initWebGL] and of [startCSS3D]: the tier runs, or fails
    before or in its first frame, or in [setupInteraction]; [h] tells
    whether the fallback element was there to be hidden. *)
Definition gpuRuns (h : bool) : Effect :=
  {| e_trace := [FGpuFrame; FAnimate; FInitWebGL]; e_scripts := []; e_hides := h; e_nobody := false |}.
Definition gpuFailsEarly : Effect :=
  {| e_trace := [FInitCSS3D; FInitWebGL]; e_scripts := [Css3dJs]; e_hides := false; e_nobody := false |}.
Definition gpuFailsLate (h : bool) : Effect :=
  {| e_trace := [FInitCSS3D; FGpuFrame; FAnimate; FInitWebGL];
     e_scripts := [Css3dJs]; e_hides := h; e_nobody := false |}.
(** [setupInteraction] threw for want of [document.body]. *)
Definition gpuFailsNoBody (h : bool) : Effect :=
  {| e_trace := [FInitCSS3D; FInitWebGL]; e_scripts := [Css3dJs];
     e_hides := h; e_nobody := true |}.
Definition domRuns (h : bool) : Effect :=
  {| e_trace := [FDomFrame; FAnimateCSS3D; FStartCSS3D]; e_scripts := []; e_hides := h; e_nobody := false |}.
Definition domFailsEarly : Effect :=
  {| e_trace := [FShowFallback; FStartCSS3D]; e_scripts := []; e_hides := false; e_nobody := false |}.
Definition domFailsLate (h : bool) : Effect :=
  {| e_trace := [FShowFallback; FDomFrame; FAnimateCSS3D; FStartCSS3D];
     e_scripts := []; e_hides := h; e_nobody := false |}.

Definition domFailsNoBody (h : bool) : Effect :=
  {| e_trace := [FShowFallback; FStartCSS3D]; e_scripts := [];
     e_hides := h; e_nobody := true |}.

Definition initWebGLEffects : list Effect :=
  [gpuRuns true; gpuRuns false; gpuFailsEarly; gpuFailsLate true; gpuFailsLate false;
   gpuFailsNoBody true; gpuFailsNoBody false].

Definition startCSS3DEffects : list Effect :=
  [domRuns true; domRuns false; domFailsEarly; domFailsLate true; domFailsLate false;
   domFailsNoBody true; domFailsNoBody false].

(** [o], then any of [X]. *)
Definition before (o : Effect) (X : list Effect) : list Effect := map (andThen o) X.

Definition onThreeLoadedEffects : list Effect :=
  before (entered FOnThreeLoaded)
    (initWebGLEffects
     ++ [ {| e_trace := [FInitCSS3D]; e_scripts := [Css3dJs]; e_hides := false; e_nobody := false |} ]).

Definition loadThreeJSEffects : list Effect :=
  before (entered FLoadThreeJS) (onThreeLoadedEffects ++ [requested ThreeJs]).

(** [initWebGL] was entered after the DOM tier or the static fallback. *)
Fixpoint reentersGpu (tr : list Fn) : bool :=
  match tr with
  | [] => false
  | FInitWebGL :: old =>
      existsb (fun f => bool_decide (f ∈ [FInitCSS3D; FStartCSS3D; FShowFallback])) old
      || reentersGpu old
  | _ :: old => reentersGpu old
  end.

(** ** [init] in two steps *)

(** The options [init] works with: the default parameter stands in for
    [undefined] only. *)
Definition optionsOf (a : Arg) : option Options :=
  match a with
  | ArgUndefined => Some noOptions
  | ArgObject o => Some o
  | ArgNull => None
  end.

(** The state in which [init] calls [createElements]. *)
Definition initStart (o : Options) (w : World) : World :=
  updHero (setConfig (Some (resolveConfig (pathname (page w)) o)))
    (updPage (fun p => setTrace (FInit :: trace p) p) w).

(** The state in which [init] calls [loadThreeJS], from the one
    [createElements] left. *)
Definition initReady (o : Options) (w : World) : World :=
  updHero (setInitialized true)
    (updPage (fun p =>
       setConsole
         (console p ++
          ["WaveHero: Initializing with preset " +:+ dquote +:+
           presetNameOf (pathname (page w)) o +:+ dquote]) p)
       (updHero
          (setFallbackEl
             match dom (page w) !! strOr (fallbackId o) "wavehero-fallback" with
             | Some _ => Some (strOr (fallbackId o) "wavehero-fallback")
             | None => None
             end)
          (updHero (setContainerId (Some (strOr (container o) "wavehero-canvas"))) w))).

(** The two default elements are in the document. *)
Definition hasDefaults (w : World) : Prop :=
  is_Some (dom (page w) !! "wavehero-canvas")
  /\ is_Some (dom (page w) !! "wavehero-fallback").

(** One of the two blocks of [createElements]: the element is created when
    it is missing. *)
Definition ensureElement (id : string) : M unit :=
  w <- get ;;
  match dom (page w) !! id with
  | Some _ => ret tt
  | None => insertIntoBody id
  end.

(** What [ensureElement id] does. *)
Record Ensured (id : string) (w : World) (r : Res unit * World) : Prop := {
  en_hero : hero (snd r) = hero w;
  en_trace : trace (page (snd r)) = trace (page w);
  en_scripts : pendingScripts (page (snd r)) = pendingScripts (page w);
  en_body : hasBody (page (snd r)) = hasBody (page w);
  en_path : pathname (page (snd r)) = pathname (page w);
  en_hidden : noneHidden w (snd r);
  en_grows : domGrows w (snd r);
  en_there : fst r = Ok tt -> is_Some (dom (page (snd r)) !! id);
  en_returns : hasBody (page w) = true \/ is_Some (dom (page w) !! id) -> fst r = Ok tt
}.

(** ** Script loads and frames *)

(** The outcomes of the handler of a script that loaded ([ok]) or failed. *)
Definition handlerEffects (s : Script) (ok : bool) : list Effect :=
  match s, ok with
  | ThreeJs, true => onThreeLoadedEffects
  | Css3dJs, true => startCSS3DEffects
  | _, false => [entered FShowFallback]
  end.

(** [w'] is [w] after pending script [k] settled with effect [o]. *)
Record SettlesWith (k : nat) (o : Effect) (w w' : World) : Prop := {
  sw_trace : trace (page w') = e_trace o ++ trace (page w);
  sw_scripts :
    pendingScripts (page w') = delete k (pendingScripts (page w)) ++ e_scripts o;
  sw_hides : e_hides o = false -> noneHidden w w';
  sw_settings : settings w' = settings w;
  sw_dom : domGrows w w';
  sw_nobody : e_nobody o = true -> hasBody (page w) = false
}.

(** What a frame leaves as it is. *)
Definition frameView (w : World) :=
  (settings w, pendingScripts (page w), ranks (trace (page w)),
   tierOf (trace (page w)), dom (page w)).

(** While nothing has called [destroy]: the tier goes down one step at a
    time, an initialized controller is ready, and the pending loads tell how
    far the cascade is. *)
Definition Inv (w : World) : Prop :=
  descends (ranks (trace (page w))) = true
  /\ (initialized (hero w) = true -> ready w)
  /\ match pendingScripts (page w) with
     | [] =>
         if initialized (hero w) then is_Some (tierOf (trace (page w)))
         else ranks (trace (page w)) = []
     | [ThreeJs] =>
         initialized (hero w) = true /\ ranks (trace (page w)) = []
     | [Css3dJs] =>
         initialized (hero w) = true /\ head (ranks (trace (page w))) = Some 1%nat
     | _ => False
     end.

(** [w'] is [w] after an [init] with options [o] that ran the cascade with
    effect [e]. *)
Record Initialized (o : Options) (e : Effect) (w w' : World) : Prop := {
  in_trace : trace (page w') = e_trace e ++ FInit :: trace (page w);
  in_scripts : pendingScripts (page w') = pendingScripts (page w) ++ e_scripts e;
  in_hides : e_hides e = false -> noneHidden w w';
  in_initialized : initialized (hero w') = true;
  in_ready : ready w';
  in_config : config (hero w') = Some (resolveConfig (pathname (page w)) o);
  in_nobody : e_nobody e = true -> hasBody (page w) = false;
  in_body : hasBody (page w') = hasBody (page w)
}.

(** A run in which nothing calls [destroy]. *)
Definition noDestroy (evs : list (Env * Event)) : Prop :=
  Forall (fun e => snd e <> CallDestroy) evs.

(** The first frame of a tier threw: its catch handler was entered right
    after the loop body. *)
Fixpoint firstFrameThrew (tr : list Fn) : bool :=
  match tr with
  | [] => false
  | f :: old =>
      match f, old with
      | FInitCSS3D, FGpuFrame :: _ => true
      | FShowFallback, FDomFrame :: _ => true
      | _, _ => firstFrameThrew old
      end
  end.

(** [w] is what the pipeline made of [w0], summed up as one effect. *)
Record Reached (acc : Effect) (w0 w : World) : Prop := {
  re_trace : trace (page w) = e_trace acc ++ trace (page w0);
  re_scripts : pendingScripts (page w) = e_scripts acc;
  re_hides : e_hides acc = false -> noneHidden w0 w;
  re_ready : ready w;
  re_nobody : e_nobody acc = true -> hasBody (page w0) = false;
  re_body : hasBody (page w) = hasBody (page w0)
}.

(** The outcomes of [init] and of the two script loads that can follow it,
    as effects. *)
Definition initAbs : list Effect := before (entered FInit) loadThreeJSEffects.

Definition settleAbs (ok : bool) (acc : Effect) : list Effect :=
  match e_scripts acc with
  | [] => [acc]
  | s :: rest =>
      map (fun o => {| e_trace := e_trace o ++ e_trace acc;
                       e_scripts := rest ++ e_scripts o;
                       e_hides := e_hides acc || e_hides o;
                       e_nobody := e_nobody acc || e_nobody o |})
          (handlerEffects s ok)
  end.

Definition bootAbs (ok1 ok2 : bool) : list Effect :=
  flat_map (settleAbs ok2) (flat_map (settleAbs ok1) initAbs).

(** No load is pending, the pipeline is in a tier, the tier went down one
    step at a time, and the fallback element can only be hidden when a tier
    above the static one is running, a first frame threw, or
    [document.body] was missing. *)
Definition settledOk (acc : Effect) : bool :=
  match e_scripts acc with [] => true | _ :: _ => false end
  && match tierOf (e_trace acc) with
     | Some t =>
         negb (e_hides acc)
         || match t with StaticTier => false | _ => true end
         || firstFrameThrew (e_trace acc)
         || e_nobody acc
     | None => false
     end
  && descends (ranks (e_trace acc)).

(** The configuration a loop captured when it was started. *)
Definition callbackConfig (cb : Callback) : option Config :=
  match cb with GpuLoop c | DomLoop c => c end.

(** The entry a callback of a loop leaves in the trace. *)
Definition loopFn (cb : Callback) : Fn :=
  match cb with GpuLoop _ => FGpuFrame | DomLoop _ => FDomFrame end.

(** What a callback of a loop does to the requests, to the trace and to the
    time cursor. *)
Record Looped (cb : Callback) (w : World) (r : Res unit * World) : Prop := {
  lo_requests :
    frameRequests (page (snd r))
    = frameRequests (page w) ++ [(nextFrameId (page w), cb)];
  lo_next : nextFrameId (page (snd r)) = S (nextFrameId (page w));
  lo_recorded : animationId (hero (snd r)) = Some (nextFrameId (page w));
  lo_scripts : pendingScripts (page (snd r)) = pendingScripts (page w);
  lo_dom : dom (page (snd r)) = dom (page w);
  lo_console : console (page (snd r)) = console (page w);
  lo_returns : fst r = Ok tt ->
    exists c, callbackConfig cb = Some c
      /\ count (hero (snd r)) = (count (hero w) + waveSpeed c)%float;
  lo_throws : fst r <> Ok tt -> count (hero (snd r)) = count (hero w);
  lo_trace : trace (page (snd r)) = loopFn cb :: trace (page w)
}.

(** The body of [frame] for one request. *)
Definition runRequest (env : Env) (r : nat * Callback) : M unit :=
  tryCatch (runCallback env r) (fun e => log ("Uncaught " +:+ e)).

Definition isGpuLoop (r : nat * Callback) : bool :=
  match snd r with GpuLoop _ => true | DomLoop _ => false end.

(** A callback of the GPU loop is waiting for the next frame. *)
Definition gpuLoopPending (w : World) : bool :=
  existsb isGpuLoop (frameRequests (page w)).

Definition isGpuFrame (f : Fn) : bool :=
  match f with FGpuFrame => true | _ => false end.

Fixpoint gpuFrames (tr : list Fn) : nat :=
  match tr with
  | [] => 0
  | f :: old => (if isGpuFrame f then 1 else 0) + gpuFrames old
  end.

(** An entry of the DOM tier or of the static fallback. *)
Definition lowRank (r : nat) : bool := (r <=? 1)%nat.

(** A frame of the GPU loop ran after a lower tier had been entered. *)
Fixpoint lateGpuFrame (tr : list Fn) : bool :=
  match tr with
  | [] => false
  | f :: old => (isGpuFrame f && existsb lowRank (ranks old)) || lateGpuFrame old
  end.

(** The first frame of the GPU loop threw: the catch handler of [initWebGL]
    called [initCSS3D] right after the loop body. *)
Fixpoint gpuFirstFrameThrew (tr : list Fn) : bool :=
  match tr with
  | [] => false
  | f :: old =>
      match f, old with
      | FInitCSS3D, FGpuFrame :: _ => true
      | _, _ => gpuFirstFrameThrew old
      end
  end.

(** What a statement does to the GPU loop: it runs frames of it or not, and
    a callback of it is waiting afterwards only if one was waiting before or
    a frame of it has run. *)
Definition loops : relation World := fun w w' =>
  (gpuFrames (trace (page w)) <= gpuFrames (trace (page w')))%nat
  /\ (gpuLoopPending w' = true ->
      gpuLoopPending w = true
      \/ (gpuFrames (trace (page w)) < gpuFrames (trace (page w')))%nat).

#[global] Instance loops_preorder : PreOrder loops.
Proof.
  split.
  - intros w. split; [lia | auto].
  - intros a b c [H1 H2] [H3 H4]. split; [lia|].
    intros H. destruct (H4 H) as [H5|H5]; [|right; lia].
    destruct (H2 H5) as [H6|H6]; [left; exact H6 | right; lia].
Qed.

(** A waiting callback of the GPU loop belongs to a GPU tier that is still
    the latest tier entered, or to one whose first frame threw; and so does
    every frame of the loop that ran after a downgrade. *)
Definition LoopInv (w : World) : Prop :=
  (gpuLoopPending w = true ->
   head (ranks (trace (page w))) = Some 2%nat
   \/ gpuFirstFrameThrew (trace (page w)) = true)
  /\ (lateGpuFrame (trace (page w)) = true ->
      gpuFirstFrameThrew (trace (page w)) = true).

(** ** Concrete pages and runs *)

(** Every call into the browser and into three.js succeeds. *)
Definition envAllFine : Env :=
  {| Math_sin := fun x => x; webglContext := ProbeTruthy;
     gpuThrows := None; domThrows := None |}.

(** The WebGL context cannot be created. *)
Definition envNoContext : Env :=
  {| Math_sin := fun x => x; webglContext := ProbeTruthy;
     gpuThrows := Some GRenderer; domThrows := None |}.

(** [renderer.render] throws. *)
Definition envRenderThrows : Env :=
  {| Math_sin := fun x => x; webglContext := ProbeTruthy;
     gpuThrows := Some GRender; domThrows := None |}.

(** The two default elements, as a page may already contain them. *)
Definition bothDefaults : gmap string Element :=
  <["wavehero-canvas" := newElement]> (<["wavehero-fallback" := newElement]> ∅).

(** Options that ask for the detected preset on a grid of 2 by 2. *)
Definition smallGrid : Overrides :=
  {| o_separation := None; o_amountX := Some 2; o_amountY := Some 2;
     o_color := None; o_color2 := None; o_waveHeight := None;
     o_waveSpeed := None; o_cameraZ := None; o_cameraY := None;
     o_particleSize := None; o_opacity := None |}.

Definition smallOptions : Options :=
  {| preset := None; container := None; fallbackId := None; optColor := None;
     custom := Some smallGrid |}.

(** [init], then the load event of the script it left pending. *)
Definition initThenLoaded (env : Env) : list (Env * Event) :=
  [ (env, CallInit (ArgObject smallOptions)); (env, ScriptSettles 0 true) ].

(** [init], then the error event of the script it left pending. *)
Definition initThenLoadError (env : Env) : list (Env * Event) :=
  [ (env, CallInit (ArgObject smallOptions)); (env, ScriptSettles 0 false) ].

(** The function entries of a run, and whether its fallback element has the
    class [hidden]. *)
Definition outcome (w : World) : list Fn * option bool :=
  (trace (page w), hiddenClass <$> dom (page w) !! "wavehero-fallback").

(** The GPU tier fails, the DOM tier runs a frame, [init] is called again and
    the DOM library fails to load. *)
Definition gpuFailsThenOn : list (Env * Event) :=
  [ (envNoContext, CallInit ArgUndefined);
    (envNoContext, ScriptSettles 0 true);
    (envNoContext, Frame);
    (envNoContext, CallInit ArgUndefined);
    (envNoContext, ScriptSettles 0 false) ].

(** [init], [destroy], [init] on a page that has three.js. *)
Definition initDestroyInit : list (Env * Event) :=
  [ (envNoContext, CallInit (ArgObject smallOptions));
    (envNoContext, CallDestroy);
    (envNoContext, CallInit (ArgObject smallOptions)) ].

(** [init] on a page that has three.js, then two display frames. *)
Definition initThenFrames (env : Env) : list (Env * Event) :=
  [ (env, CallInit (ArgObject smallOptions)); (env, Frame); (env, Frame) ].

(** The function entries of a run, whether [initWebGL] was entered after a
    lower tier, and whether a frame of the GPU loop ran after a lower tier
    had been entered. *)
Definition gpuAfterDowngrade (w : World) : list Fn * bool * bool :=
  (trace (page w), reentersGpu (trace (page w)), lateGpuFrame (trace (page w))).

(** Options with one field replaced. *)
Definition withPreset (name : option string) (o : Options) : Options :=
  {| preset := name; container := container o; fallbackId := fallbackId o;
     optColor := optColor o; custom := custom o |}.

Definition withColor (c : option float) (o : Options) : Options :=
  {| preset := preset o; container := container o; fallbackId := fallbackId o;
     optColor := c; custom := custom o |}.

(** The WebGL renderer exists and has not been disposed. *)
Definition activeGpu (h : Hero) : bool :=
  match renderer h with Some r => negb (disposed r) | None => false end.

(** The CSS3D renderer exists and its element is in the document. *)
Definition activeDom (h : Hero) : bool :=
  match css3dRenderer h with Some r => attached r | None => false end.

Definition activeRenderers (h : Hero) : nat :=
  ((if activeGpu h then 1 else 0) + (if activeDom h then 1 else 0))%nat.

(** What a statement does to the renderers when it creates none but the
    WebGL renderer of [initWebGL]. *)
Definition rendererAdded : relation World := fun w w' =>
  css3dRenderer (hero w') = css3dRenderer (hero w)
  /\ (renderer (hero w') = renderer (hero w) \/ activeGpu (hero w') = true).

#[global] Instance rendererAdded_preorder : PreOrder rendererAdded.
Proof.
  split.
  - intros w. split; [reflexivity | left; reflexivity].
  - intros a b c [H1 H2] [H3 H4]. split; [congruence|].
    destruct H4 as [H4|H4]; [|right; exact H4].
    destruct H2 as [H2|H2]; [left; congruence|].
    right. unfold activeGpu in *. rewrite H4. exact H2.
Qed.

(** Two calls of [init] in a row. *)
Definition initTwice (env : Env) : list (Env * Event) :=
  [ (env, CallInit (ArgObject smallOptions)); (env, CallInit ArgUndefined) ].

(** A session that is destroyed while the CSS3D script is loading; the script
    then loads, and [init] is called twice. *)
Definition domTierThenInitTwice : list (Env * Event) :=
  [ (envNoContext, CallInit (ArgObject smallOptions));
    (envNoContext, CallDestroy);
    (envNoContext, ScriptSettles 0 true);
    (envAllFine, CallInit (ArgObject smallOptions));
    (envAllFine, CallInit ArgUndefined) ].

(** The renderers that are active, and the loads that are pending. *)
Definition renderersOf (w : World) : nat * list Script :=
  (activeRenderers (hero w), pendingScripts (page w)).

(** [destroy] is called while three.js is loading; the load then succeeds and
    two frames pass. *)
Definition destroyWhileLoading (env : Env) : list (Env * Event) :=
  [ (env, CallInit ArgUndefined);
    (env, CallDestroy);
    (env, ScriptSettles 0 true);
    (env, Frame);
    (env, Frame) ].

(** A 2 x 2 field, 10 apart. *)
Definition smallField : Config :=
  spread Presets.waves
    {| o_separation := Some 10%float; o_amountX := Some 2; o_amountY := Some 2;
       o_color := None; o_color2 := None; o_waveHeight := None;
       o_waveSpeed := None; o_cameraZ := None; o_cameraY := None;
       o_particleSize := None; o_opacity := None |}.

(** A field of 2^27 by 2^27 points. *)
Definition hugeExtents : Overrides :=
  {| o_separation := None; o_amountX := Some 134217728; o_amountY := Some 134217728;
     o_color := None; o_color2 := None; o_waveHeight := None;
     o_waveSpeed := None; o_cameraZ := None; o_cameraY := None;
     o_particleSize := None; o_opacity := None |}.

Definition withCustom (v : option Overrides) (o : Options) : Options :=
  {| preset := preset o; container := container o; fallbackId := fallbackId o;
     optColor := optColor o; custom := v |}.

(** The function entries of a run and the buffers it left on the
    controller. *)
Definition buffersOf (w : World) : list Fn * option (list float * list float) :=
  (trace (page w), particles (hero w)).

(** ** Definitions for the further properties *)

(** Custom overrides that make the number of points negative. *)
Definition negativeExtent : Overrides :=
  {| o_separation := None; o_amountX := Some (-2); o_amountY := Some 3;
     o_color := None; o_color2 := None; o_waveHeight := None;
     o_waveSpeed := None; o_cameraZ := None; o_cameraY := None;
     o_particleSize := None; o_opacity := None |}.

(** A page with the canvas, and a controller configured by hand. *)
Definition configured (cfg : Config) (cid : string) : World :=
  updHero (setContainerId (Some cid))
    (updHero (setConfig (Some cfg))
       (freshWorld "/" true true {[ "wavehero-canvas" := newElement ]})).

(** [destroy], as one update of the state. *)
Definition destroyed (w : World) : World :=
  let requests :=
    match animationId (hero w) with
    | Some (S id) => filter (fun r => fst r ≠ S id) (frameRequests (page w))
    | _ => frameRequests (page w)
    end in
  {| hero :=
       setInitialized false
         (setCss3dRenderer
            (match css3dRenderer (hero w) with
             | Some _ => Some {| attached := false |}
             | None => None
             end)
            (setRenderer
               (match renderer (hero w) with
                | Some r => Some {| canvas := canvas r; disposed := true |}
                | None => None
                end)
               (hero w)));
     page :=
       setFrameRequests requests
         (setTrace (FDestroy :: trace (page w)) (page w)) |}.

(** Frames only, each under its environment. *)
Definition framesOnly (envs : list Env) : list (Env * Event) :=
  map (fun env => (env, Frame)) envs.

(** A tier is running: the GPU loop after a few frames. *)
Definition gpuRunning : World :=
  run [ (envAllFine, CallInit ArgUndefined); (envAllFine, Frame);
        (envAllFine, Frame) ]
      (freshWorld "/" true true ∅).

(** Where the DOM objects are on the grid: x, z and the indices kept in
    [userData]. *)
Definition domLayout (w : World) : list (float * float * Z * Z) :=
  map (fun p => (Css3d.x p, Css3d.z p, Css3d.ix p, Css3d.iy p))
      (css3dParticles (hero w)).

(** The events that are not calls of the page: script loads and frames. *)
Definition browserOnly (evs : list (Env * Event)) : Prop :=
  Forall (fun e => match snd e with
                   | ScriptSettles _ _ | Frame => True
                   | CallInit _ | CallDestroy => False
                   end) evs.

(** Every element that has the class [hidden] in [w'] is the fallback
    element of [w] or had the class in [w]. *)
Definition hidesOnly (w w' : World) : Prop :=
  forall id e', dom (page w') !! id = Some e' -> hiddenClass e' = true ->
    fallbackEl (hero w) = Some id
    \/ exists e, dom (page w) !! id = Some e /\ hiddenClass e = true.

(** The settings are unchanged and only the fallback element was hidden. *)
Definition quiet (w w' : World) : Prop :=
  settings w' = settings w /\ hidesOnly w w'.

#[global] Instance quiet_preorder : PreOrder quiet.
Proof.
  split.
  - intros w. split; [reflexivity|]. intros id e' H1 H2. right. eauto.
  - intros a b c [Sab Hab] [Sbc Hbc]. split; [congruence|].
    intros id e' H1 H2. destruct (Hbc id e' H1 H2) as [Hf | (e & He & Hh)].
    + left. unfold settings in Sab. injection Sab as _ _ _ Sf _ _. congruence.
    + apply (Hab id e He Hh).
Qed.

(** The callback of [autoInit]'s [forEach]. *)
Definition tagStep (env : Env) (t : ScriptTag) : M unit :=
  match tagArg t with
  | Some a => init env a
  | None => ret tt
  end.

(** What a call of [init] on an initialized controller leaves as it is. *)
Definition pipelineView (w : World) :=
  (hero w, dom (page w), pendingScripts (page w), frameRequests (page w),
   nextFrameId (page w), hasTHREE (page w)).

(** Script tags of a page: two that load this script, one that does not. *)
Definition tagAuto : ScriptTag :=
  {| scriptSrc := Some "/js/wave-hero.js"; dataAuto := true;
     dataPreset := Some "grid"; dataColor := None |}.

Definition tagQuantum : ScriptTag :=
  {| scriptSrc := Some "/js/wave-hero.js?v=2"; dataAuto := false;
     dataPreset := Some "quantum"; dataColor := Some "d4a543" |}.

Definition tagOther : ScriptTag :=
  {| scriptSrc := Some "/js/app.js"; dataAuto := true;
     dataPreset := None; dataColor := None |}.

(** [s] consists of hexadecimal digits. *)
Fixpoint allHex (s : string) : bool :=
  match s with
  | String c r =>
      match ParseInt.hexDigit c with
      | Some _ => allHex r
      | None => false
      end
  | EmptyString => true
  end.

(** The number that the digits of [s] denote. *)
Definition hexValue (s : string) : Z := default 0 (ParseInt.digits s None).

(** * Proofs *)

Section Loops.
Context {S : Type}.

Lemma fold_left_map_fused {A B} (f : S -> B -> S) (g : A -> B) (l : list A) (s : S) :
  fold_left f (map g l) s = fold_left (fun s a => f s (g a)) l s.
Proof. revert s. induction l as [|a l IH]; intros s; simpl; [reflexivity | apply IH]. Qed.

Lemma forRange_nested (nx ny : Z) (body : Z -> Z -> S -> S) (s : S) :
  forRange nx (fun ix => forRange ny (fun iy => body ix iy)) s
  = fold_left (fun s p => body (fst p) (snd p) s) (gridPoints nx ny) s.
Proof.
  unfold forRange, gridPoints.
  generalize (seq 0 (Z.to_nat nx)) as cols. intros cols. revert s.
  induction cols as [|c cols IH]; intros s; simpl; [reflexivity|].
  rewrite fold_left_app, IH. f_equal.
  symmetry. apply fold_left_map_fused.
Qed.

Lemma fold_left_snoc {A} (f : S -> A -> S) (l : list A) (a : A) (s : S) :
  fold_left f (l ++ [a]) s = f (fold_left f l s) a.
Proof. rewrite fold_left_app. reflexivity. Qed.
End Loops.

Lemma gridPoints_length nx ny :
  length (gridPoints nx ny) = (Z.to_nat nx * Z.to_nat ny)%nat.
Proof.
  unfold gridPoints. generalize 0%nat at 2.
  induction (Z.to_nat nx) as [|n IH]; intros a; simpl; [reflexivity|].
  rewrite length_app, length_map, length_seq, IH. reflexivity.
Qed.

Lemma gridPoints_lookup (nx ny : Z) (ix iy : nat) :
  (ix < Z.to_nat nx)%nat -> (iy < Z.to_nat ny)%nat ->
  gridPoints nx ny !! (ix * Z.to_nat ny + iy)%nat = Some (Z.of_nat ix, Z.of_nat iy).
Proof.
  unfold gridPoints. intros Hx Hy.
  assert (G : forall n a i, (i < n)%nat ->
    flat_map (fun ix => map (fun iy => (Z.of_nat ix, Z.of_nat iy)) (seq 0 (Z.to_nat ny)))
      (seq a n) !! (i * Z.to_nat ny + iy)%nat = Some (Z.of_nat (a + i), Z.of_nat iy)).
  { induction n as [|n IH]; intros a i Hi; [lia|]. simpl.
    destruct i as [|i].
    - rewrite lookup_app_l by (rewrite length_map, length_seq; lia).
      simpl. rewrite list_lookup_fmap, lookup_seq_lt by lia. simpl.
      do 2 f_equal; lia.
    - rewrite lookup_app_r by (rewrite length_map, length_seq; lia).
      rewrite length_map, length_seq.
      replace (Datatypes.S i * Z.to_nat ny + iy - Z.to_nat ny)%nat
        with (i * Z.to_nat ny + iy)%nat by lia.
      rewrite IH by lia. do 2 f_equal. lia. }
  rewrite (G _ 0%nat ix Hx). reflexivity.
Qed.

Lemma fround_zero : Num.fround 0 = 0%float.
Proof. reflexivity. Qed.

Lemma fround_one : Num.fround 1 = 1%float.
Proof. reflexivity. Qed.

Lemma layout_invariant cfg pos0 scl0 l :
  LayoutInv cfg pos0 scl0 l (foldPoints (Field.layoutPoint cfg) l (startCursor pos0 scl0)).
Proof.
  induction l as [|p l IH] using rev_ind.
  - split; simpl; try reflexivity; intros; try discriminate; lia.
  - unfold foldPoints in *. rewrite fold_left_app. simpl.
    set (c := fold_left _ l _) in *. destruct IH as [Hi Hj Hlp Hls Hpt Hsc].
    unfold Field.layoutPoint, Float32Array.set.
    split; cbn [positions scales ci cj];
      rewrite ?length_app, ?length_insert; cbn [length]; try lia.
    + intros k q Hk Hlen. rewrite Hi.
      destruct (decide (k = length l)) as [->|Hne].
      * rewrite lookup_app_r in Hk by lia. rewrite Nat.sub_diag in Hk.
        simpl in Hk. injection Hk as <-.
        repeat split.
        -- rewrite list_lookup_insert_ne by lia.
           rewrite list_lookup_insert_ne by lia.
           rewrite list_lookup_insert_eq by lia. reflexivity.
        -- rewrite list_lookup_insert_ne by lia.
           rewrite list_lookup_insert_eq by (rewrite length_insert; lia).
           rewrite fround_zero. reflexivity.
        -- rewrite list_lookup_insert_eq by (rewrite !length_insert; lia).
           reflexivity.
      * assert (Hk' : l !! k = Some q).
        { rewrite lookup_app_l in Hk; [exact Hk|].
          apply lookup_lt_Some in Hk. rewrite length_app in Hk. simpl in Hk. lia. }
        assert (k < length l)%nat by (apply lookup_lt_Some in Hk'; exact Hk').
        rewrite !list_lookup_insert_ne by lia.
        apply Hpt; assumption.
    + intros k Hk Hlen. rewrite Hj.
      destruct (decide (k = length l)) as [->|Hne].
      * rewrite list_lookup_insert_eq by lia. rewrite fround_one. reflexivity.
      * rewrite list_lookup_insert_ne by lia. apply Hsc; lia.
Qed.

Section WaveLoop.
Variable sin : float -> float.

Lemma wave_invariant cfg t pos0 scl0 l :
  WaveInv sin cfg t pos0 scl0 l
    (foldPoints (Wave.wavePoint sin cfg t) l (startCursor pos0 scl0)).
Proof.
  induction l as [|p l IH] using rev_ind.
  - split; simpl; try reflexivity; intros; try discriminate; lia.
  - unfold foldPoints in *. rewrite fold_left_app. simpl.
    set (c := fold_left _ l _) in *.
    destruct IH as [Hi Hj Hlp Hls Hxz Hbe Hy Hsc Hsb].
    unfold Wave.wavePoint, Float32Array.set.
    split; cbn [positions scales ci cj];
      rewrite ?length_app, ?length_insert; cbn [length]; try lia.
    + intros idx Hidx. rewrite Hi.
      rewrite list_lookup_insert_ne; [apply Hxz; exact Hidx|].
      intros <-. apply Hidx.
      replace (3 * length l + 1)%nat with (1 + length l * 3)%nat by lia.
      rewrite Nat.Div0.mod_add. reflexivity.
    + intros idx Hidx. rewrite Hi.
      rewrite list_lookup_insert_ne by lia. apply Hbe. lia.
    + intros k q Hk Hlen. rewrite Hi.
      destruct (decide (k = length l)) as [->|Hne].
      * rewrite lookup_app_r in Hk by lia. rewrite Nat.sub_diag in Hk.
        simpl in Hk. injection Hk as <-.
        rewrite list_lookup_insert_eq by lia. reflexivity.
      * assert (Hk' : l !! k = Some q).
        { rewrite lookup_app_l in Hk; [exact Hk|].
          apply lookup_lt_Some in Hk. rewrite length_app in Hk. simpl in Hk. lia. }
        rewrite list_lookup_insert_ne by lia. apply Hy; assumption.
    + intros k q Hk Hlen. rewrite Hj.
      destruct (decide (k = length l)) as [->|Hne].
      * rewrite lookup_app_r in Hk by lia. rewrite Nat.sub_diag in Hk.
        simpl in Hk. injection Hk as <-.
        rewrite list_lookup_insert_eq by lia. reflexivity.
      * assert (Hk' : l !! k = Some q).
        { rewrite lookup_app_l in Hk; [exact Hk|].
          apply lookup_lt_Some in Hk. rewrite length_app in Hk. simpl in Hk. lia. }
        rewrite list_lookup_insert_ne by lia. apply Hsc; assumption.
    + intros idx Hidx. rewrite Hj.
      rewrite list_lookup_insert_ne by lia. apply Hsb. lia.
Qed.
End WaveLoop.

(** * The point field *)

Lemma make_Some n :
  0 <= n <= Float32Array.maxLength ->
  Float32Array.make n = Some (replicate (Z.to_nat n) 0%float).
Proof.
  intros H. unfold Float32Array.make.
  destruct (Z.ltb_spec n 0); [lia|].
  destruct (Z.ltb_spec Float32Array.maxLength n); [lia|]. reflexivity.
Qed.

Lemma make_inv n a :
  Float32Array.make n = Some a ->
  0 <= n <= Float32Array.maxLength /\ a = replicate (Z.to_nat n) 0%float.
Proof.
  unfold Float32Array.make.
  destruct (Z.ltb_spec n 0); [discriminate|].
  destruct (Z.ltb_spec Float32Array.maxLength n); [discriminate|].
  intros [= <-]. split; [lia | reflexivity].
Qed.

Lemma make_None n :
  n < 0 \/ Float32Array.maxLength < n -> Float32Array.make n = None.
Proof.
  intros H. unfold Float32Array.make.
  destruct (Z.ltb_spec n 0); [reflexivity|].
  destruct (Z.ltb_spec Float32Array.maxLength n); [reflexivity|]. lia.
Qed.

Lemma build_fold cfg :
  0 <= amountX cfg * amountY cfg ->
  amountX cfg * amountY cfg * 3 <= Float32Array.maxLength ->
  Field.build cfg =
    let n := amountX cfg * amountY cfg in
    let c := foldPoints (Field.layoutPoint cfg)
               (gridPoints (amountX cfg) (amountY cfg))
               (startCursor (replicate (Z.to_nat (n * 3)) 0%float)
                            (replicate (Z.to_nat n) 0%float)) in
    Some (positions c, scales c).
Proof.
  intros Hn Hm. unfold Field.build.
  rewrite (make_Some (amountX cfg * amountY cfg * 3)) by lia.
  rewrite (make_Some (amountX cfg * amountY cfg)) by lia.
  cbn [mbind option_bind]. rewrite forRange_nested. reflexivity.
Qed.

Lemma build_inv cfg b :
  Field.build cfg = Some b ->
  0 <= amountX cfg * amountY cfg
  /\ amountX cfg * amountY cfg * 3 <= Float32Array.maxLength.
Proof.
  unfold Field.build.
  destruct (Float32Array.make (amountX cfg * amountY cfg * 3)) as [p|] eqn:E;
    [|discriminate].
  intros _. apply make_inv in E. destruct E as [[H0 H1] _].
  split; [|exact H1]. lia.
Qed.

Lemma build_None cfg :
  amountX cfg * amountY cfg < 0
  \/ Float32Array.maxLength < amountX cfg * amountY cfg * 3 ->
  Field.build cfg = None.
Proof.
  intros H. unfold Field.build. rewrite (make_None (amountX cfg * amountY cfg * 3)) by lia.
  reflexivity.
Qed.

Lemma gridPoints_lookup_lt nx ny (k : nat) :
  (k < Z.to_nat nx * Z.to_nat ny)%nat ->
  exists p, gridPoints nx ny !! k = Some p.
Proof.
  intros Hk. apply lookup_lt_is_Some_2. rewrite gridPoints_length. exact Hk.
Qed.

Lemma build_layout (cfg : Config) :
  1 <= amountX cfg -> 1 <= amountY cfg ->
  (3 * amountX cfg * amountY cfg <= Float32Array.maxLength ->
   exists pos scl : list float,
     Field.build cfg = Some (pos, scl)
     /\ Z.of_nat (length pos) = 3 * amountX cfg * amountY cfg
     /\ Z.of_nat (length scl) = amountX cfg * amountY cfg
     /\ (forall k : nat, Z.of_nat k < amountX cfg * amountY cfg ->
           pos !! (3 * k + 1)%nat = Some 0%float)
     /\ (forall k : nat, Z.of_nat k < amountX cfg * amountY cfg ->
           scl !! k = Some 1%float))
  /\ (Float32Array.maxLength < 3 * amountX cfg * amountY cfg ->
      Field.build cfg = None).
Proof.
  intros Hx Hy. split; [|intros Hm; apply build_None; lia].
  intros Hm.
  assert (Hn : 0 <= amountX cfg * amountY cfg) by nia.
  rewrite (build_fold cfg Hn) by lia. cbv zeta.
  set (n := amountX cfg * amountY cfg) in *.
  pose proof (layout_invariant cfg (replicate (Z.to_nat (n * 3)) 0%float)
                (replicate (Z.to_nat n) 0%float)
                (gridPoints (amountX cfg) (amountY cfg))) as I.
  set (c := foldPoints _ _ _) in *.
  destruct I as [_ _ Hlp Hls Hpt Hsc].
  rewrite length_replicate in Hlp, Hls.
  assert (Hlen : length (gridPoints (amountX cfg) (amountY cfg)) = Z.to_nat n).
  { rewrite gridPoints_length. unfold n. rewrite Z2Nat.inj_mul by lia. reflexivity. }
  exists (positions c), (scales c). repeat split.
  - rewrite Hlp. lia.
  - rewrite Hls. lia.
  - intros k Hk.
    destruct (lookup_lt_is_Some_2 (gridPoints (amountX cfg) (amountY cfg)) k) as [p Hp];
      [lia|].
    apply (Hpt k p Hp). rewrite length_replicate. lia.
  - intros k Hk. apply Hsc; rewrite ?length_replicate; lia.
Qed.

(** * The wave update *)

Section WaveFacts.
Variable sin : float -> float.

Lemma advance_fold cfg t (b : list float * list float) :
  Wave.advance sin cfg t b =
    let c := foldPoints (Wave.wavePoint sin cfg t)
               (gridPoints (amountX cfg) (amountY cfg))
               (startCursor (fst b) (snd b)) in
    (positions c, scales c).
Proof. unfold Wave.advance. rewrite forRange_nested. reflexivity. Qed.

Lemma advance_length cfg t b :
  length (fst (Wave.advance sin cfg t b)) = length (fst b)
  /\ length (snd (Wave.advance sin cfg t b)) = length (snd b).
Proof.
  rewrite advance_fold. cbv zeta.
  destruct (wave_invariant sin cfg t (fst b) (snd b)
              (gridPoints (amountX cfg) (amountY cfg))) as [_ _ Hlp Hls _ _ _ _ _].
  split; assumption.
Qed.

Lemma advance_xz cfg t b (idx : nat) :
  (idx mod 3 <> 1)%nat ->
  fst (Wave.advance sin cfg t b) !! idx = fst b !! idx.
Proof.
  intros H. rewrite advance_fold. cbv zeta.
  destruct (wave_invariant sin cfg t (fst b) (snd b)
              (gridPoints (amountX cfg) (amountY cfg))) as [_ _ _ _ Hxz _ _ _ _].
  apply Hxz. exact H.
Qed.

(** The closed form: what a pass leaves at the point of column [ix] and
    row [iy] depends on the indices and the time cursor alone. *)
Lemma advance_point cfg t b (ix iy : nat) :
  Z.of_nat ix < amountX cfg -> Z.of_nat iy < amountY cfg ->
  let k := (ix * Z.to_nat (amountY cfg) + iy)%nat in
  ((3 * k + 1 < length (fst b))%nat ->
     fst (Wave.advance sin cfg t b) !! (3 * k + 1)%nat
     = Some (Num.fround (Wave.height sin cfg t (Z.of_nat ix) (Z.of_nat iy))))
  /\ ((k < length (snd b))%nat ->
     snd (Wave.advance sin cfg t b) !! k
     = Some (Num.fround (Wave.size sin t (Z.of_nat ix) (Z.of_nat iy)))).
Proof.
  intros Hx Hy k. rewrite advance_fold. cbv zeta.
  destruct (wave_invariant sin cfg t (fst b) (snd b)
              (gridPoints (amountX cfg) (amountY cfg))) as [_ _ _ _ _ _ Hy' Hs _].
  assert (Hp : gridPoints (amountX cfg) (amountY cfg) !! k
               = Some (Z.of_nat ix, Z.of_nat iy))
    by (apply gridPoints_lookup; lia).
  split; intros Hlen.
  - apply (Hy' k _ Hp Hlen).
  - apply (Hs k _ Hp Hlen).
Qed.

Lemma advance_idem_pos cfg t b (idx : nat) :
  fst (Wave.advance sin cfg t (Wave.advance sin cfg t b)) !! idx
  = fst (Wave.advance sin cfg t b) !! idx.
Proof.
  set (b1 := Wave.advance sin cfg t b).
  pose proof (advance_length cfg t b) as [Hl1 _]. fold b1 in Hl1.
  rewrite (advance_fold cfg t b1). cbv zeta.
  set (l := gridPoints (amountX cfg) (amountY cfg)).
  destruct (wave_invariant sin cfg t (fst b1) (snd b1) l)
    as [_ _ Hlp _ Hxz Hbe Hy _ _].
  cbn [fst].
  destruct (decide (idx mod 3 = 1)%nat) as [Hm|Hm]; [|apply Hxz; exact Hm].
  destruct (decide (3 * length l <= idx)%nat) as [Hb|Hb]; [apply Hbe; exact Hb|].
  pose proof (Nat.div_mod_eq idx 3) as Hd.
  set (k := (idx / 3)%nat) in *.
  assert (Hidx : idx = (3 * k + 1)%nat) by lia.
  destruct (lookup_lt_is_Some_2 l k) as [p Hp]; [lia|].
  destruct (decide (idx < length (fst b1))%nat) as [Hlt|Hge].
  - rewrite Hidx. rewrite (Hy k p Hp) by lia.
    unfold b1. rewrite (advance_fold cfg t b). cbv zeta. fold l. cbn [fst].
    destruct (wave_invariant sin cfg t (fst b) (snd b) l)
      as [_ _ _ _ _ _ Hy0 _ _].
    symmetry. apply (Hy0 k p Hp). lia.
  - rewrite (lookup_ge_None_2 (fst b1)) by lia.
    apply lookup_ge_None_2. lia.
Qed.

Lemma advance_idem_scl cfg t b (idx : nat) :
  snd (Wave.advance sin cfg t (Wave.advance sin cfg t b)) !! idx
  = snd (Wave.advance sin cfg t b) !! idx.
Proof.
  set (b1 := Wave.advance sin cfg t b).
  pose proof (advance_length cfg t b) as [_ Hl1]. fold b1 in Hl1.
  rewrite (advance_fold cfg t b1). cbv zeta.
  set (l := gridPoints (amountX cfg) (amountY cfg)).
  destruct (wave_invariant sin cfg t (fst b1) (snd b1) l)
    as [_ _ _ Hls _ _ _ Hs Hsb].
  cbn [snd].
  destruct (decide (length l <= idx)%nat) as [Hb|Hb]; [apply Hsb; exact Hb|].
  destruct (lookup_lt_is_Some_2 l idx) as [p Hp]; [lia|].
  destruct (decide (idx < length (snd b1))%nat) as [Hlt|Hge].
  - rewrite (Hs idx p Hp) by lia.
    unfold b1. rewrite (advance_fold cfg t b). cbv zeta. fold l. cbn [snd].
    destruct (wave_invariant sin cfg t (fst b) (snd b) l)
      as [_ _ _ _ _ _ _ Hs0 _].
    symmetry. apply (Hs0 idx p Hp). lia.
  - rewrite (lookup_ge_None_2 (snd b1)) by lia.
    apply lookup_ge_None_2. lia.
Qed.

(** C5.  One pass of the wave update at the time cursor [t], applied to the
    buffers that a pass at [t] produced, leaves them as they are: the y values
    and the scales are a function of column, row and [t] alone. *)
Theorem advance_idempotent (cfg : Config) (t : float)
    (pos scl : list float) :
  Wave.advance sin cfg t (Wave.advance sin cfg t (pos, scl))
  = Wave.advance sin cfg t (pos, scl).
Proof.
  apply injective_projections; apply list_eq; intros idx.
  - apply advance_idem_pos.
  - apply advance_idem_scl.
Qed.

Lemma frames_xz cfg ts b (idx : nat) :
  (idx mod 3 <> 1)%nat -> fst (frames sin cfg ts b) !! idx = fst b !! idx.
Proof.
  intros H. revert b. induction ts as [|t ts IH]; intros b; [reflexivity|].
  simpl. rewrite IH. apply advance_xz. exact H.
Qed.

Lemma frames_length cfg ts b :
  length (fst (frames sin cfg ts b)) = length (fst b)
  /\ length (snd (frames sin cfg ts b)) = length (snd b).
Proof.
  revert b. induction ts as [|t ts IH]; intros b; [split; reflexivity|].
  simpl. destruct (IH (Wave.advance sin cfg t b)) as [-> ->].
  apply advance_length.
Qed.

Lemma frames_layout (cfg : Config) (b : list float * list float)
    (ts : list float) :
  Field.build cfg = Some b ->
  length (fst (frames sin cfg ts b)) = length (fst b)
  /\ length (snd (frames sin cfg ts b)) = length (snd b)
  /\ (forall idx : nat, (idx mod 3 <> 1)%nat ->
        fst (frames sin cfg ts b) !! idx = fst b !! idx)
  /\ (forall ix iy : nat,
        Z.of_nat ix < amountX cfg -> Z.of_nat iy < amountY cfg ->
        let k := (ix * Z.to_nat (amountY cfg) + iy)%nat in
        fst (frames sin cfg ts b) !! (3 * k)%nat
          = Some (Num.fround (Field.gridX cfg (Z.of_nat ix)))
        /\ fst (frames sin cfg ts b) !! (3 * k + 2)%nat
          = Some (Num.fround (Field.gridZ cfg (Z.of_nat iy)))).
Proof.
  intros Hb.
  destruct (frames_length cfg ts b) as [Hl1 Hl2].
  split; [exact Hl1|]. split; [exact Hl2|]. split.
  { intros idx H. apply frames_xz. exact H. }
  intros ix iy Hx Hy k. split.
  - rewrite frames_xz
      by (replace (3 * k)%nat with (0 + k * 3)%nat by lia;
          rewrite Nat.Div0.mod_add; discriminate).
    destruct (build_inv cfg b Hb) as [Hn Hm].
    revert Hb. rewrite (build_fold cfg Hn Hm). cbv zeta. intros [= <-]. cbn [fst].
    destruct (layout_invariant cfg
                (replicate (Z.to_nat (amountX cfg * amountY cfg * 3)) 0%float)
                (replicate (Z.to_nat (amountX cfg * amountY cfg)) 0%float)
                (gridPoints (amountX cfg) (amountY cfg))) as [_ _ _ _ Hpt _].
    apply (Hpt k (Z.of_nat ix, Z.of_nat iy)).
    + apply gridPoints_lookup; lia.
    + rewrite length_replicate. unfold k. nia.
  - rewrite frames_xz
      by (replace (3 * k + 2)%nat with (2 + k * 3)%nat by lia;
          rewrite Nat.Div0.mod_add; discriminate).
    destruct (build_inv cfg b Hb) as [Hn Hm].
    revert Hb. rewrite (build_fold cfg Hn Hm). cbv zeta. intros [= <-]. cbn [fst].
    destruct (layout_invariant cfg
                (replicate (Z.to_nat (amountX cfg * amountY cfg * 3)) 0%float)
                (replicate (Z.to_nat (amountX cfg * amountY cfg)) 0%float)
                (gridPoints (amountX cfg) (amountY cfg))) as [_ _ _ _ Hpt _].
    apply (Hpt k (Z.of_nat ix, Z.of_nat iy)).
    + apply gridPoints_lookup; lia.
    + rewrite length_replicate. unfold k. nia.
Qed.

End WaveFacts.

(** * Reasoning about statements *)

Section Steps.
Context (R : relation World) `{!PreOrder R}.

Lemma steps_ret {A} (a : A) : steps R (ret a).
Proof. intros w. reflexivity. Qed.

Lemma steps_throw {A} (e : string) : steps R (@throw A e).
Proof. intros w. reflexivity. Qed.

Lemma steps_get : steps R get.
Proof. intros w. reflexivity. Qed.

Lemma steps_modify (f : World -> World) :
  (forall w, R w (f w)) -> steps R (modify f).
Proof. intros H w. apply H. Qed.

Lemma steps_bind {A B} (m : M A) (k : A -> M B) :
  steps R m -> (forall a, steps R (k a)) -> steps R (bind m k).
Proof.
  intros Hm Hk w. unfold bind. specialize (Hm w).
  destruct (m w) as [[a|e] w']; simpl in *.
  - etransitivity; [exact Hm | apply Hk].
  - exact Hm.
Qed.

Lemma steps_tryCatch {A} (m : M A) (h : string -> M A) :
  steps R m -> (forall e, steps R (h e)) -> steps R (tryCatch m h).
Proof.
  intros Hm Hh w. unfold tryCatch. specialize (Hm w).
  destruct (m w) as [[a|e] w']; simpl in *.
  - exact Hm.
  - etransitivity; [exact Hm | apply Hh].
Qed.

Lemma steps_forEach {A} (l : list A) (body : A -> M unit) :
  (forall a, steps R (body a)) -> steps R (forEach l body).
Proof.
  intros Hb. induction l as [|a l IH]; simpl.
  - apply steps_ret.
  - apply steps_bind; [apply Hb | intros _; exact IH].
Qed.
End Steps.

Ltac steps_step :=
  match goal with
  | |- steps ?R (bind _ _) => apply (steps_bind R); [ | intro]
  | |- steps ?R (tryCatch _ _) => apply (steps_tryCatch R); [ | intro]
  | |- steps ?R (forEach _ _) => apply (steps_forEach R); intro
  | |- steps ?R (ret _) => apply (steps_ret R)
  | |- steps ?R (throw _) => apply (steps_throw R)
  | |- steps ?R get => apply (steps_get R)
  | |- steps ?R (modify _) => apply (steps_modify R); intro
  | |- steps _ (match ?x with _ => _ end) => destruct x
  | |- steps _ (if ?x then _ else _) => destruct x
  | |- steps _ (let _ := _ in _) => cbv zeta
  end.

Ltac keeps_done :=
  match goal with
  | |- keeps _ _ _ => unfold keeps; reflexivity
  end.

Create HintDb settings discriminated.

Ltac keeps_settings := repeat steps_step; try keeps_done; auto with settings.

Lemma enter_settings f : steps (keeps settings) (enter f).
Proof. unfold enter. keeps_settings. Qed.

Lemma log_settings s : steps (keeps settings) (log s).
Proof. unfold log. keeps_settings. Qed.

#[export] Hint Resolve enter_settings log_settings : settings.

Lemma createElements_settings : steps (keeps settings) createElements.
Proof. unfold createElements, insertIntoBody. keeps_settings. Qed.

Lemma showFallback_settings s : steps (keeps settings) (showFallback s).
Proof. unfold showFallback. keeps_settings. Qed.

Lemma requestAnimationFrame_settings cb :
  steps (keeps settings) (requestAnimationFrame cb).
Proof. unfold requestAnimationFrame. keeps_settings. Qed.

Lemma hideFallback_settings : steps (keeps settings) hideFallback.
Proof. unfold hideFallback. keeps_settings. Qed.

Lemma appendScript_settings s : steps (keeps settings) (appendScript s).
Proof. unfold appendScript. keeps_settings. Qed.

Lemma getElementById_settings id : steps (keeps settings) (getElementById id).
Proof. unfold getElementById. keeps_settings. Qed.

#[export] Hint Resolve createElements_settings showFallback_settings
  requestAnimationFrame_settings hideFallback_settings appendScript_settings
  getElementById_settings : settings.

Lemma gpuFrame_settings env c : steps (keeps settings) (gpuFrame env c).
Proof. unfold gpuFrame, requireConfig, oracleGpu. keeps_settings. Qed.

Lemma domFrame_settings env c : steps (keeps settings) (domFrame env c).
Proof. unfold domFrame, requireConfig, oracleDom. keeps_settings. Qed.

#[export] Hint Resolve gpuFrame_settings domFrame_settings : settings.

Lemma startCSS3D_settings env : steps (keeps settings) (startCSS3D env).
Proof.
  unfold startCSS3D, animateCSS3D, setupInteraction, requireConfig, oracleDom.
  keeps_settings.
Qed.

Lemma initCSS3D_settings : steps (keeps settings) initCSS3D.
Proof. unfold initCSS3D. keeps_settings. Qed.

#[export] Hint Resolve startCSS3D_settings initCSS3D_settings : settings.

Lemma initWebGL_settings env : steps (keeps settings) (initWebGL env).
Proof.
  unfold initWebGL, animate, setupInteraction, requireConfig, oracleGpu.
  keeps_settings.
Qed.

#[export] Hint Resolve initWebGL_settings : settings.

Lemma onThreeLoaded_settings env : steps (keeps settings) (onThreeLoaded env).
Proof. unfold onThreeLoaded. keeps_settings. Qed.

#[export] Hint Resolve onThreeLoaded_settings : settings.

Lemma loadThreeJS_settings env : steps (keeps settings) (loadThreeJS env).
Proof. unfold loadThreeJS. keeps_settings. Qed.

Lemma scriptSettles_settings env k ok : steps (keeps settings) (scriptSettles env k ok).
Proof. unfold scriptSettles. keeps_settings. Qed.

Lemma frame_settings env : steps (keeps settings) (frame env).
Proof. unfold frame, runCallback. keeps_settings. Qed.

Lemma settings_config w w' : keeps settings w w' -> config (hero w') = config (hero w).
Proof. unfold keeps, settings. congruence. Qed.

Lemma settings_initialized w w' :
  keeps settings w w' -> initialized (hero w') = initialized (hero w).
Proof. unfold keeps, settings. congruence. Qed.

Lemma settings_hasBody w w' : keeps settings w w' -> hasBody (page w') = hasBody (page w).
Proof. unfold keeps, settings. congruence. Qed.

Lemma noneHidden_refl w : noneHidden w w.
Proof. intros id e H1 H2. eauto. Qed.

Lemma noneHidden_trans a b c : noneHidden a b -> noneHidden b c -> noneHidden a c.
Proof.
  intros H1 H2 id e He Hh.
  destruct (H2 id e He Hh) as (e' & He' & Hh'). eauto.
Qed.

Lemma does_nothing_refl w : does nothing w w.
Proof.
  split; simpl; try reflexivity.
  - rewrite app_nil_r. reflexivity.
  - intros _. apply noneHidden_refl.
  - intros id H. exact H.
  - discriminate.
Qed.

Lemma does_andThen o1 o2 a b c : does o1 a b -> does o2 b c -> does (andThen o1 o2) a c.
Proof.
  intros [Ht1 Hs1 Hh1 Hk1 Hd1 Hb1] [Ht2 Hs2 Hh2 Hk2 Hd2 Hb2].
  split; simpl.
  - rewrite Ht2, Ht1, app_assoc. reflexivity.
  - rewrite Hs2, Hs1, app_assoc. reflexivity.
  - intros H. apply orb_false_iff in H as [H1 H2].
    eapply noneHidden_trans; eauto.
  - congruence.
  - intros id H. apply Hd2, Hd1, H.
  - intros H. apply orb_true_iff in H as [H|H]; [exact (Hb1 H)|].
    apply Hb2 in H. unfold settings in Hk1. congruence.
Qed.

Lemma does_ready o w w' : does o w w' -> ready w -> ready w'.
Proof.
  intros [_ _ _ Hk Hd _] (Hc & H1 & H2). unfold ready.
  unfold settings in Hk. split; [congruence|]. split; apply Hd; assumption.
Qed.

Lemma elem_of_andThenAny o1 o2 X Y :
  o1 ∈ X -> o2 ∈ Y -> andThen o1 o2 ∈ andThenAny X Y.
Proof.
  intros H1 H2. unfold andThenAny.
  apply list_elem_of_In, in_flat_map. exists o1. split.
  - apply list_elem_of_In, H1.
  - apply in_map, list_elem_of_In, H2.
Qed.

Lemma subsetb_spec X Y o : subsetb X Y = true -> o ∈ X -> o ∈ Y.
Proof.
  unfold subsetb. rewrite forallb_forall. intros H Ho.
  apply list_elem_of_In in Ho. apply H in Ho.
  apply bool_decide_eq_true in Ho. exact Ho.
Qed.

Section EffRules.
Context {A : Type}.

Lemma eff_weaken (m : M A) N T N' T' :
  eff m N T -> subsetb N N' = true -> subsetb T T' = true -> eff m N' T'.
Proof.
  intros H HN HT w Hw. destruct (H w Hw) as (o & Hd & Ho).
  exists o. split; [exact Hd|].
  destruct (fst (m w)); eauto using subsetb_spec.
Qed.

Lemma eff_ret (a : A) : eff (ret a) [nothing] [].
Proof.
  intros w _. exists nothing. split; [apply does_nothing_refl | simpl; left].
Qed.

Lemma eff_throw (e : string) : eff (@throw A e) [] [nothing].
Proof.
  intros w _. exists nothing. split; [apply does_nothing_refl | simpl; left].
Qed.

Lemma eff_false (m : M A) : False -> eff m [] [].
Proof. intros []. Qed.

Lemma eff_bind {B} (m : M B) (k : B -> M A) N1 T1 N2 T2 :
  eff m N1 T1 -> (forall b, eff (k b) N2 T2) ->
  eff (bind m k) (andThenAny N1 N2) (T1 ++ andThenAny N1 T2).
Proof.
  intros Hm Hk w Hw. unfold bind.
  destruct (Hm w Hw) as (o1 & Hd1 & Ho1).
  destruct (m w) as [[b|e] w1]; simpl in *.
  - destruct (Hk b w1 (does_ready _ _ _ Hd1 Hw)) as (o2 & Hd2 & Ho2).
    exists (andThen o1 o2). split; [eapply does_andThen; eauto|].
    destruct (fst (k b w1)).
    + apply elem_of_andThenAny; assumption.
    + apply elem_of_app. right. apply elem_of_andThenAny; assumption.
  - exists o1. split; [exact Hd1|]. apply elem_of_app. left. exact Ho1.
Qed.

Lemma eff_bind_get (k : World -> M A) N T :
  (forall w0, ready w0 -> eff (k w0) N T) -> eff (bind get k) N T.
Proof. intros H w Hw. unfold bind, get. apply (H w Hw w Hw). Qed.

Lemma eff_tryCatch (m : M A) (h : string -> M A) N1 T1 N2 T2 :
  eff m N1 T1 -> (forall e, eff (h e) N2 T2) ->
  eff (tryCatch m h) (N1 ++ andThenAny T1 N2) (andThenAny T1 T2).
Proof.
  intros Hm Hh w Hw. unfold tryCatch.
  destruct (Hm w Hw) as (o1 & Hd1 & Ho1).
  destruct (m w) as [[b|e] w1]; simpl in *.
  - exists o1. split; [exact Hd1|]. apply elem_of_app. left. exact Ho1.
  - destruct (Hh e w1 (does_ready _ _ _ Hd1 Hw)) as (o2 & Hd2 & Ho2).
    exists (andThen o1 o2). split; [eapply does_andThen; eauto|].
    destruct (fst (h e w1)).
    + apply elem_of_app. right. apply elem_of_andThenAny; assumption.
    + apply elem_of_andThenAny; assumption.
Qed.

Lemma eff_left (m : M A) N1 T1 N2 T2 : eff m N1 T1 -> eff m (N1 ++ N2) (T1 ++ T2).
Proof.
  intros H w Hw. destruct (H w Hw) as (o & Hd & Ho). exists o.
  split; [exact Hd|]. destruct (fst (m w)); apply elem_of_app; left; exact Ho.
Qed.

Lemma eff_right (m : M A) N1 T1 N2 T2 : eff m N2 T2 -> eff m (N1 ++ N2) (T1 ++ T2).
Proof.
  intros H w Hw. destruct (H w Hw) as (o & Hd & Ho). exists o.
  split; [exact Hd|]. destruct (fst (m w)); apply elem_of_app; right; exact Ho.
Qed.
End EffRules.

Lemma eff_modify (f : World -> World) (o : Effect) :
  (forall w, does o w (f w)) -> eff (modify f) [o] [].
Proof. intros H w _. exists o. split; [apply H | simpl; left]. Qed.

Lemma eff_forEach {B} (l : list B) (body : B -> M unit) :
  (forall b, eff (body b) [nothing] []) -> eff (forEach l body) [nothing] [].
Proof.
  intros Hb. induction l as [|b l IH]; simpl.
  - apply eff_ret.
  - eapply eff_weaken; [eapply eff_bind; [apply Hb | intros _; exact IH] | reflexivity..].
Qed.

(** ** The effects of the functions *)

Ltac does_nothing :=
  intros; split; simpl;
  [ reflexivity
  | rewrite app_nil_r; reflexivity
  | intros _; unfold noneHidden; simpl; eauto
  | reflexivity
  | let H := fresh in intros ? H; exact H
  | discriminate ].

Ltac ready_contra :=
  match goal with
  | Hr : ready ?w, E : config (hero ?w) = None |- _ =>
      destruct Hr as ([? Hc] & _ & _); congruence
  | Hr : ready ?w, E : dom (page ?w) !! "wavehero-canvas" = None |- _ =>
      destruct Hr as (_ & [? Hc] & _); congruence
  | Hr : ready ?w, E : dom (page ?w) !! "wavehero-fallback" = None |- _ =>
      destruct Hr as (_ & _ & [? Hc]); congruence
  end.

Create HintDb eff discriminated.

Ltac eff_join x :=
  match goal with
  | |- eff _ ?N ?T =>
      let N1 := fresh "N" in
      let N2 := fresh "N" in
      let T1 := fresh "T" in
      let T2 := fresh "T" in
      evar (N1 : list Effect); evar (N2 : list Effect);
      evar (T1 : list Effect); evar (T2 : list Effect);
      let n1 := eval unfold N1 in N1 in
      let n2 := eval unfold N2 in N2 in
      let t1 := eval unfold T1 in T1 in
      let t2 := eval unfold T2 in T2 in
      unify N (n1 ++ n2); unify T (t1 ++ t2);
      clear N1 N2 T1 T2;
      destruct x eqn:?;
      [ apply eff_left | apply eff_right ];
      try (apply eff_false; ready_contra)
  end.

Ltac eff_step :=
  lazymatch goal with
  | |- eff (bind get _) _ _ => apply eff_bind_get; intros ? ?
  | |- eff (bind _ _) _ _ => eapply eff_bind; [ | intro]
  | |- eff (tryCatch _ _) _ _ => eapply eff_tryCatch; [ | intro]
  | |- eff (ret _) _ _ => apply eff_ret
  | |- eff (throw _) _ _ => apply eff_throw
  | |- eff (modify _) _ _ =>
      first [ solve [eauto with eff] | apply (eff_modify _ nothing); does_nothing ]
  | |- eff (match ?x with _ => _ end) _ _ => eff_join x
  | |- eff (if ?x then _ else _) _ _ => eff_join x
  | |- eff (let _ := _ in _) _ _ => cbv zeta
  | |- eff _ _ _ => solve [eauto with eff]
  end.

(** Find the effects of a statement, then compare with the ones stated. *)
Ltac eff_auto :=
  eapply eff_weaken; [ repeat eff_step | .. ]; vm_compute; reflexivity.

Lemma enter_eff f : eff (enter f) [entered f] [].
Proof.
  unfold enter. apply eff_modify. intros w. split; simpl; try reflexivity.
  - rewrite app_nil_r. reflexivity.
  - intros _. unfold noneHidden. simpl. eauto.
  - intros id H. exact H.
  - discriminate.
Qed.

Lemma log_eff s : eff (log s) [nothing] [].
Proof. unfold log. eff_auto. Qed.

Lemma getElementById_eff id : eff (getElementById id) [nothing] [].
Proof. unfold getElementById. eff_auto. Qed.

Lemma createElements_eff : eff createElements [nothing] [].
Proof. unfold createElements. eff_auto. Qed.

Lemma appendScript_eff s : eff (appendScript s) [requested s] [].
Proof.
  unfold appendScript. apply eff_modify. intros w. split; simpl; try reflexivity.
  - intros _. unfold noneHidden. simpl. eauto.
  - intros id H. exact H.
  - discriminate.
Qed.

Lemma requestAnimationFrame_eff cb : eff (requestAnimationFrame cb) [nothing] [].
Proof. unfold requestAnimationFrame. eff_auto. Qed.

Lemma oracleGpu_eff env s : eff (oracleGpu env s) [nothing] [nothing].
Proof. unfold oracleGpu. eff_auto. Qed.

Lemma oracleDom_eff env s : eff (oracleDom env s) [nothing] [nothing].
Proof. unfold oracleDom. eff_auto. Qed.

Lemma requireConfig_eff c : eff (requireConfig c) [nothing] [nothing].
Proof. unfold requireConfig. eff_auto. Qed.

Lemma setupInteraction_eff : eff setupInteraction [nothing] [nobody].
Proof.
  intros w _. unfold setupInteraction, bind, get, modify, ret, throw.
  cbn [fst snd page updHero].
  destruct (hasBody (page w)) eqn:E; cbn [fst snd].
  - exists nothing. split; [does_nothing | left].
  - exists nobody. split; [|left].
    split; simpl;
      [ reflexivity | rewrite app_nil_r; reflexivity
      | intros _; unfold noneHidden; simpl; eauto | reflexivity
      | intros ? H; exact H | intros _; exact E ].
Qed.

#[export] Hint Resolve enter_eff log_eff getElementById_eff createElements_eff
  appendScript_eff requestAnimationFrame_eff oracleGpu_eff oracleDom_eff
  requireConfig_eff setupInteraction_eff : eff.

Lemma showFallback_eff s : eff (showFallback s) [entered FShowFallback] [].
Proof. unfold showFallback. eff_auto. Qed.

Lemma initCSS3D_eff :
  eff initCSS3D
    [ {| e_trace := [FInitCSS3D]; e_scripts := [Css3dJs]; e_hides := false; e_nobody := false |} ] [].
Proof. unfold initCSS3D. eff_auto. Qed.

#[export] Hint Resolve showFallback_eff initCSS3D_eff : eff.

Lemma alter_lookup_is_Some (f : Element -> Element) (id id' : string)
    (m : gmap string Element) :
  is_Some (m !! id') -> is_Some (alter f id m !! id').
Proof.
  intros [e He]. rewrite lookup_alter. case_decide; subst; rewrite He; eauto.
Qed.

Lemma hideFallback_eff : eff hideFallback [hides; nothing] [].
Proof.
  unfold hideFallback. apply eff_bind_get. intros w Hw.
  destruct (fallbackEl (hero w)) as [id|].
  - eapply eff_weaken; [apply (eff_modify _ hides) | reflexivity ..].
    intros w'. split; simpl; try reflexivity.
    + rewrite app_nil_r. reflexivity.
    + discriminate.
    + intros id'. apply alter_lookup_is_Some.
    + discriminate.
  - eapply eff_weaken; [apply eff_ret|reflexivity..].
Qed.

(** [container.style.display = 'block'] *)
Lemma showCanvas_eff id :
  eff (modify (updPage (fun p =>
         setDom (alter (fun e => {| displayBlock := true;
                                    hiddenClass := hiddenClass e |}) id (dom p)) p)))
      [nothing] [].
Proof.
  apply eff_modify. intros w. split; simpl; try reflexivity.
  - rewrite app_nil_r. reflexivity.
  - intros _. unfold noneHidden. simpl. intros id' e'.
    rewrite lookup_alter. case_decide; subst.
    + destruct (dom (page w) !! id') as [e|]; simpl; [|discriminate].
      intros [= <-] Hh. simpl in Hh. eauto.
    + eauto.
  - intros id'. apply alter_lookup_is_Some.
  - discriminate.
Qed.

#[export] Hint Resolve hideFallback_eff showCanvas_eff : eff.

Lemma gpuFrame_eff env c : eff (gpuFrame env c) [entered FGpuFrame] [entered FGpuFrame].
Proof. unfold gpuFrame. eff_auto. Qed.

Lemma domFrame_eff env c : eff (domFrame env c) [entered FDomFrame] [entered FDomFrame].
Proof. unfold domFrame. eff_auto. Qed.

#[export] Hint Resolve gpuFrame_eff domFrame_eff : eff.

Lemma initWebGL_eff env : eff (initWebGL env) initWebGLEffects [].
Proof. unfold initWebGL, animate. eff_auto. Qed.

Lemma startCSS3D_eff env : eff (startCSS3D env) startCSS3DEffects [].
Proof. unfold startCSS3D, animateCSS3D, requireConfig. eff_auto. Qed.

#[export] Hint Resolve initWebGL_eff startCSS3D_eff : eff.

Lemma onThreeLoaded_eff env : eff (onThreeLoaded env) onThreeLoadedEffects [].
Proof. unfold onThreeLoaded. eff_auto. Qed.

#[export] Hint Resolve onThreeLoaded_eff : eff.

Lemma loadThreeJS_eff env : eff (loadThreeJS env) loadThreeJSEffects [].
Proof. unfold loadThreeJS. eff_auto. Qed.

(** ** Traces *)

Lemma ranks_app a b : ranks (a ++ b) = ranks a ++ ranks b.
Proof. apply omap_app. Qed.

Lemma neverRises_head r rs :
  neverRises (r :: rs) = true -> Forall (fun x => (r <= x)%nat) rs.
Proof.
  revert r. induction rs as [|r' rs IH]; intros r H; [constructor|].
  simpl in H. apply andb_true_iff in H as [H1 H2].
  apply Nat.leb_le in H1. constructor; [exact H1|].
  eapply Forall_impl; [apply IH, H2|]. simpl. intros x Hx. lia.
Qed.

Lemma descends_neverRises rs : descends rs = true -> neverRises rs = true.
Proof.
  induction rs as [|r [|r' rs] IH]; try reflexivity.
  simpl. intros H. apply andb_true_iff in H as [H H2].
  apply andb_true_iff in H as [H1 _]. rewrite H1. exact (IH H2).
Qed.

Lemma descends_tail r rs : descends (r :: rs) = true -> descends rs = true.
Proof.
  destruct rs as [|r' rs]; [reflexivity|]. simpl.
  intros H. apply andb_true_iff in H as [_ H]. exact H.
Qed.

(** A descent that ends at [h] goes on with one that starts at [h]. *)
Lemma descends_app l h rs :
  descends (l ++ [h]) = true -> descends (h :: rs) = true ->
  descends (l ++ h :: rs) = true.
Proof.
  intros Hl Hrs. induction l as [|x [|y l] IH].
  - exact Hrs.
  - simpl in *. rewrite andb_true_r in Hl. rewrite Hl. exact Hrs.
  - change (descends (x :: (y :: l) ++ [h]) = true) in Hl.
    change (descends (x :: (y :: l) ++ h :: rs) = true).
    cbn [descends app] in Hl |- *.
    apply andb_true_iff in Hl as [Hxy Hl]. rewrite Hxy. exact (IH Hl).
Qed.

Lemma neverRises_tail r rs : neverRises (r :: rs) = true -> neverRises rs = true.
Proof.
  destruct rs as [|r' rs]; [reflexivity|]. simpl.
  intros H. apply andb_true_iff in H as [_ H]. exact H.
Qed.

Lemma lower_in_ranks old :
  existsb (fun f => bool_decide (f ∈ [FInitCSS3D; FStartCSS3D; FShowFallback])) old = true ->
  exists r, r ∈ ranks old /\ (r <= 1)%nat.
Proof.
  induction old as [|f old IH]; simpl; [discriminate|].
  intros H. apply orb_true_iff in H as [H|H].
  - apply bool_decide_eq_true in H.
    rewrite !elem_of_cons, elem_of_nil in H.
    destruct H as [-> | [-> | [-> | []]]]; unfold ranks; simpl; eexists;
      (split; [left | lia]).
  - destruct (IH H) as (r & Hr & Hle). exists r. split; [|exact Hle].
    unfold ranks in *. simpl. destruct (rank f); [right|]; exact Hr.
Qed.

Lemma neverRises_no_reentry tr :
  neverRises (ranks tr) = true -> reentersGpu tr = false.
Proof.
  induction tr as [|f tr IH]; [reflexivity|].
  intros H.
  assert (Ht : neverRises (ranks tr) = true).
  { destruct (rank f) as [r|] eqn:E.
    - apply (neverRises_tail r). unfold ranks in *. simpl in H.
      rewrite E in H. exact H.
    - unfold ranks in *. simpl in H. rewrite E in H. exact H. }
  specialize (IH Ht).
  destruct f; simpl; try exact IH.
  rewrite IH, orb_false_r.
  destruct (existsb _ tr) eqn:E; [|reflexivity].
  apply lower_in_ranks in E as (r & Hr & Hle).
  apply (neverRises_head 2 (ranks tr)) in H.
  rewrite Forall_forall in H. apply H in Hr. lia.
Qed.

(** ** [init], step by step *)

Local Opaque resolveConfig presetNameOf.

Lemma init_initialized_noop env a w :
  initialized (hero w) = true ->
  init env a w =
    (Ok tt, updPage (fun p => setConsole (console p ++ ["WaveHero: Already initialized"]) p)
              (updPage (fun p => setTrace (FInit :: trace p) p) w)).
Proof.
  intros Hi. unfold init, enter, log, bind, get, modify. cbn [hero page updPage fst snd].
  rewrite Hi. reflexivity.
Qed.

Lemma init_null env w :
  initialized (hero w) = false ->
  init env ArgNull w =
    (Throw "TypeError: Cannot read properties of null",
     updPage (fun p => setTrace (FInit :: trace p) p) w).
Proof.
  intros Hi. unfold init, enter, bind, get, modify, throw. cbn [hero page updPage fst snd].
  rewrite Hi. reflexivity.
Qed.

Lemma init_unfold env a o w :
  initialized (hero w) = false -> optionsOf a = Some o ->
  init env a w =
    match createElements (initStart o w) with
    | (Ok _, w2) => loadThreeJS env (initReady o w2)
    | (Throw e, w2) => (Throw e, w2)
    end.
Proof.
  intros Hi Ho. unfold init, enter, log, getElementById, bind, get, modify, ret, throw.
  cbn [hero page updPage fst snd]. rewrite Hi.
  assert (Hp := createElements_settings (initStart o w)).
  unfold initStart, initReady in *.
  destruct a; simpl in Ho; try discriminate; injection Ho as <-;
    cbn [hero page updPage updHero setTrace pathname fst snd] in *;
    destruct (createElements _) as [[[]|e] w2]; try reflexivity;
    apply (f_equal (fun s => s.1.2)) in Hp; simpl in Hp;
    cbn [hero page updPage updHero setTrace pathname fst snd] in *;
    rewrite Hp; reflexivity.
Qed.

Lemma createElements_ensure w :
  createElements w
  = (ensureElement "wavehero-canvas" ;; ensureElement "wavehero-fallback") w.
Proof.
  unfold createElements, ensureElement, bind, get.
  destruct (dom (page w) !! "wavehero-canvas"); reflexivity.
Qed.

Lemma ensureElement_spec id w : Ensured id w (ensureElement id w).
Proof.
  unfold ensureElement, insertIntoBody, bind, get, modify, ret, throw.
  destruct (dom (page w) !! id) as [e|] eqn:E.
  - split; cbn [fst snd]; try reflexivity.
    + apply noneHidden_refl.
    + intros id' H. exact H.
    + intros _. rewrite E. eauto.
  - destruct (hasBody (page w)) eqn:Eb.
    + split; cbn [fst snd hero page updPage setDom dom trace pendingScripts hasBody pathname];
        try reflexivity.
      * unfold noneHidden. cbn [page updPage setDom dom].
        intros id' e'. rewrite lookup_insert. case_decide; subst.
        -- intros [= <-]. discriminate.
        -- eauto.
      * unfold domGrows. cbn [page updPage setDom dom].
        intros id' H. rewrite lookup_insert. case_decide; subst; eauto.
      * intros _. rewrite lookup_insert_eq. eauto.
    + split; cbn [fst snd]; try reflexivity.
      * apply noneHidden_refl.
      * intros id' H. exact H.
      * discriminate.
      * intros [H|[e H]]; [rewrite Eb in H|rewrite E in H]; discriminate.
Qed.

Lemma createElements_spec w :
  let r := createElements w in
  hero (snd r) = hero w
  /\ trace (page (snd r)) = trace (page w)
  /\ pendingScripts (page (snd r)) = pendingScripts (page w)
  /\ pathname (page (snd r)) = pathname (page w)
  /\ noneHidden w (snd r)
  /\ domGrows w (snd r)
  /\ (fst r = Ok tt -> hasDefaults (snd r))
  /\ (hasBody (page w) = true \/ hasDefaults w -> fst r = Ok tt).
Proof.
  cbv zeta. rewrite createElements_ensure. unfold bind.
  pose proof (ensureElement_spec "wavehero-canvas" w) as [H1 H2 H3 H4 H4' H5 H6 H7 H8].
  destruct (ensureElement "wavehero-canvas" w) as [[[]|e] w1]; cbn [fst snd] in *.
  - pose proof (ensureElement_spec "wavehero-fallback" w1)
      as [K1 K2 K3 K4 K4' K5 K6 K7 K8].
    destruct (ensureElement "wavehero-fallback" w1) as [[[]|e] w2]; cbn [fst snd] in *.
    + split; [congruence|]. split; [congruence|]. split; [congruence|].
      split; [congruence|]. split; [eapply noneHidden_trans; eauto|].
      split; [intros id H; apply K6, H6, H|]. split.
      * intros _. split; [apply K6, H7; reflexivity | apply K7; reflexivity].
      * reflexivity.
    + split; [congruence|]. split; [congruence|]. split; [congruence|].
      split; [congruence|]. split; [eapply noneHidden_trans; eauto|].
      split; [intros id H; apply K6, H6, H|]. split.
      * discriminate.
      * intros H. apply K8. rewrite H4.
        destruct H as [H|[_ H]]; [left; exact H | right; apply H6, H].
  - split; [congruence|]. split; [congruence|]. split; [congruence|].
    split; [congruence|]. split; [exact H5|]. split; [exact H6|]. split.
    + discriminate.
    + intros H. apply H8. destruct H as [H|[H _]]; eauto.
Qed.

(** [createElements] writes the document only: the two default ids are the
    only ones it adds, and it replaces nothing. *)
Lemma createElements_dom w :
  exists d, snd (createElements w) = updPage (setDom d) w
    /\ (forall id e, dom (page w) !! id = Some e -> d !! id = Some e)
    /\ (forall id, id <> "wavehero-canvas" -> id <> "wavehero-fallback" ->
          d !! id = dom (page w) !! id).
Proof.
  destruct w as [h [pa bo th d sc fr nx co tr]].
  unfold createElements, insertIntoBody, bind, get, modify, ret, throw.
  cbn [hero page updPage fst snd dom hasBody setDom].
  destruct (d !! "wavehero-canvas") as [c|] eqn:Ec;
    destruct (d !! "wavehero-fallback") as [f|] eqn:Ef;
    destruct bo;
    repeat first [ rewrite Ec | rewrite Ef
                 | rewrite lookup_insert_ne by discriminate
                 | progress cbn [hero page updPage fst snd dom hasBody setDom] ];
    unfold updPage, setDom; cbn [hero page dom];
    (eexists; split; [reflexivity|]; split;
     [ intros id e He; rewrite ?lookup_insert_ne by congruence; exact He
     | intros id Hc Hf; rewrite ?lookup_insert_ne by congruence; reflexivity ]).
Qed.

(** ** Script loads *)

Lemma scriptSettles_none env k ok w :
  pendingScripts (page w) !! k = None -> scriptSettles env k ok w = (Ok tt, w).
Proof.
  intros H. unfold scriptSettles, bind, get, ret. rewrite H. reflexivity.
Qed.

Lemma eff_returns {A} (m : M A) N w :
  eff m N [] -> ready w ->
  exists a o, fst (m w) = Ok a /\ o ∈ N /\ does o w (snd (m w)).
Proof.
  intros H Hw. destruct (H w Hw) as (o & Hd & Ho).
  destruct (fst (m w)) as [a|e]; [eauto | apply elem_of_nil in Ho; destruct Ho].
Qed.

Lemma scriptSettles_effect env k ok w s :
  ready w -> pendingScripts (page w) !! k = Some s ->
  fst (scriptSettles env k ok w) = Ok tt
  /\ exists o, o ∈ handlerEffects s ok
       /\ SettlesWith k o w (snd (scriptSettles env k ok w)).
Proof.
  intros Hw Hs. unfold scriptSettles, bind, get, modify.
  cbn [fst snd]. rewrite Hs.
  set (w1 := updPage (fun p => setPendingScripts (delete k (pendingScripts p)) p) w).
  assert (Hw1 : ready w1) by exact Hw.
  destruct s, ok; unfold handlerEffects.
  - set (w2 := updPage (setHasTHREE true) w1).
    assert (Hw2 : ready w2) by exact Hw.
    destruct (eff_returns _ _ w2 (onThreeLoaded_eff env) Hw2) as ([] & o & Hr & Ho & Hd).
    destruct (onThreeLoaded env w2) as [r w']. cbn [fst snd] in *. subst r.
    split; [reflexivity|]. exists o. split; [exact Ho|].
    destruct Hd as [H1 H2 H3 H4 H5 H6]. split; assumption.
  - destruct (eff_returns _ _ w1 (showFallback_eff "Three.js failed to load") Hw1)
      as ([] & o & Hr & Ho & Hd).
    destruct (showFallback _ w1) as [r w']. cbn [fst snd] in *. subst r.
    split; [reflexivity|]. exists o. split; [exact Ho|].
    destruct Hd as [H1 H2 H3 H4 H5 H6]. split; assumption.
  - destruct (eff_returns _ _ w1 (startCSS3D_eff env) Hw1) as ([] & o & Hr & Ho & Hd).
    destruct (startCSS3D env w1) as [r w']. cbn [fst snd] in *. subst r.
    split; [reflexivity|]. exists o. split; [exact Ho|].
    destruct Hd as [H1 H2 H3 H4 H5 H6]. split; assumption.
  - destruct (eff_returns _ _ w1 (showFallback_eff "CSS3D failed to load") Hw1)
      as ([] & o & Hr & Ho & Hd).
    destruct (showFallback _ w1) as [r w']. cbn [fst snd] in *. subst r.
    split; [reflexivity|]. exists o. split; [exact Ho|].
    destruct Hd as [H1 H2 H3 H4 H5 H6]. split; assumption.
Qed.

Lemma tierOf_app a b :
  tierOf (a ++ b) = match ranks a with [] => tierOf b | _ :: _ => tierOf a end.
Proof.
  induction a as [|f a IH]; [reflexivity|].
  destruct f; simpl; try reflexivity; exact IH.
Qed.

Lemma neverRises_app_le l rs h :
  neverRises l = true -> neverRises rs = true -> head rs = Some h ->
  forallb (fun x => (x <=? h)%nat) l = true -> neverRises (l ++ rs) = true.
Proof.
  intros Hl Hrs Hh Hle. destruct rs as [|r rs]; [discriminate|].
  simpl in Hh. injection Hh as ->.
  induction l as [|x l IH]; [exact Hrs|].
  simpl in Hle. apply andb_true_iff in Hle as [Hx Hle].
  specialize (IH (neverRises_tail _ _ Hl) Hle).
  destruct l as [|y l].
  - simpl. rewrite Hx. exact Hrs.
  - simpl in Hl. apply andb_true_iff in Hl as [Hxy _].
    change (((x <=? y)%nat && neverRises ((y :: l) ++ h :: rs)) = true).
    rewrite Hxy. exact IH.
Qed.

(** ** The invariant of a session *)

Create HintDb frames discriminated.

Ltac keeps_frames := repeat steps_step; try keeps_done; auto with frames.

Lemma log_frameView s : steps (keeps frameView) (log s).
Proof. unfold log. keeps_frames. Qed.

Lemma requestAnimationFrame_frameView cb :
  steps (keeps frameView) (requestAnimationFrame cb).
Proof. unfold requestAnimationFrame. keeps_frames. Qed.

#[export] Hint Resolve log_frameView requestAnimationFrame_frameView : frames.

Lemma gpuFrame_frameView env c : steps (keeps frameView) (gpuFrame env c).
Proof. unfold gpuFrame, enter, requireConfig, oracleGpu. keeps_frames. Qed.

Lemma domFrame_frameView env c : steps (keeps frameView) (domFrame env c).
Proof. unfold domFrame, enter, requireConfig, oracleDom. keeps_frames. Qed.

#[export] Hint Resolve gpuFrame_frameView domFrame_frameView : frames.

Lemma frame_frameView env : steps (keeps frameView) (frame env).
Proof. unfold frame, runCallback. keeps_frames. Qed.

Ltac effects_in H :=
  cbv [loadThreeJSEffects onThreeLoadedEffects initWebGLEffects startCSS3DEffects
       handlerEffects before map app andThen entered requested gpuRuns gpuFailsEarly
       gpuFailsLate gpuFailsNoBody domRuns domFailsEarly domFailsLate domFailsNoBody
       e_trace e_scripts e_hides e_nobody orb] in H.

Ltac each_effect H :=
  effects_in H;
  repeat match type of H with
  | _ ∈ _ :: _ => apply elem_of_cons in H as [-> | H]
  | _ ∈ [] => apply elem_of_nil in H; destruct H
  end.

Lemma Inv_frameView w w' : frameView w' = frameView w -> Inv w -> Inv w'.
Proof.
  unfold frameView, settings, Inv, ready. intros [= E1 E2 E3 E4 E5 E6 E7 E8 E9 E10].
  rewrite E1, E2, E7, E8, E9, E10. tauto.
Qed.

Lemma Inv_fresh path body three elements : Inv (freshWorld path body three elements).
Proof. unfold Inv. simpl. split; [reflexivity|]. split; [discriminate|reflexivity]. Qed.

Lemma Inv_frame env w : Inv w -> Inv (snd (frame env w)).
Proof. apply Inv_frameView. apply (frame_frameView env w). Qed.

Lemma Inv_settle env k ok w : Inv w -> Inv (snd (scriptSettles env k ok w)).
Proof.
  intros (Hm & Hr & Hp).
  destruct (pendingScripts (page w) !! k) as [s|] eqn:Hk;
    [|rewrite scriptSettles_none by exact Hk; split; [exact Hm|split; assumption]].
  destruct (pendingScripts (page w)) as [|s0 [|s1 rest]] eqn:Hpend;
    [discriminate | | destruct s0; destruct Hp].
  destruct k as [|k]; [|discriminate]. simpl in Hk. injection Hk as ->.
  assert (Hi : initialized (hero w) = true) by (destruct s; tauto).
  assert (Hrd : ready w) by auto.
  destruct (scriptSettles_effect env 0 ok w s Hrd) as (_ & o & Ho & [Ht Hs _ Hk Hd _]).
  { rewrite Hpend. reflexivity. }
  set (w' := snd (scriptSettles env 0 ok w)) in *.
  rewrite Hpend in Hs. simpl in Hs.
  assert (Hi' : initialized (hero w') = true).
  { unfold settings in Hk. congruence. }
  assert (Hrd' : ready w').
  { destruct Hrd as (Hc & H1 & H2). unfold settings in Hk.
    split; [congruence|]. split; apply Hd; assumption. }
  unfold Inv. rewrite Ht, Hs, Hi', ranks_app, tierOf_app.
  split; [| split; [intros _; exact Hrd'|]].
  - destruct s; destruct Hp as [_ Hp].
    + rewrite Hp, app_nil_r. destruct ok; each_effect Ho; reflexivity.
    + destruct (ranks (trace (page w))) as [|r rs] eqn:Er; [discriminate|].
      injection Hp as ->.
      apply descends_app; [|exact Hm].
      destruct ok; each_effect Ho; reflexivity.
  - destruct s, ok; each_effect Ho; simpl; eauto.
Qed.

Lemma initReady_ready o w :
  is_Some (config (hero w)) -> hasDefaults w -> ready (initReady o w).
Proof. intros Hc [H1 H2]. split; [exact Hc|]. split; assumption. Qed.

Lemma init_effect env a o w :
  initialized (hero w) = false -> optionsOf a = Some o ->
  fst (createElements (initStart o w)) = Ok tt ->
  fst (init env a w) = Ok tt
  /\ exists e, e ∈ loadThreeJSEffects /\ Initialized o e w (snd (init env a w)).
Proof.
  intros Hi Ho Hc. rewrite (init_unfold env a o w Hi Ho).
  pose proof (createElements_settings (initStart o w)) as Hce.
  destruct (createElements_spec (initStart o w))
    as (Hh & Ht & Hs & Hpath & Hn & Hg & Hdef & _).
  destruct (createElements (initStart o w)) as [[[]|e] w2]; [|discriminate].
  cbn [fst snd] in *. specialize (Hdef eq_refl).
  assert (Hrd : ready (initReady o w2)).
  { apply initReady_ready; [|exact Hdef]. rewrite Hh. simpl. eauto. }
  destruct (eff_returns _ _ _ (loadThreeJS_eff env) Hrd) as ([] & e & Hr & He & Hd).
  split; [exact Hr|]. exists e. split; [exact He|].
  destruct Hd as [D1 D2 D3 D4 D5 D6].
  assert (Hbody : hasBody (page w2) = hasBody (page w)).
  { unfold keeps, settings in Hce. injection Hce as _ _ _ _ _ Hce. exact Hce. }
  assert (Hset : settings (snd (loadThreeJS env (initReady o w2)))
                 = settings (initReady o w2)) by exact D4.
  unfold settings in Hset. injection Hset as S1 S2 S3 S4 S5 S6.
  split.
  - rewrite D1. simpl. rewrite Ht. reflexivity.
  - rewrite D2. simpl. rewrite Hs. reflexivity.
  - intros H. apply (noneHidden_trans w w2); [exact Hn | exact (D3 H)].
  - rewrite S2. reflexivity.
  - eapply does_ready; [|exact Hrd]. split; eassumption.
  - rewrite S1. simpl. rewrite Hh. reflexivity.
  - intros H. apply D6 in H. simpl in H. congruence.
  - rewrite S6. simpl. exact Hbody.
Qed.

Lemma init_createElements_throws env a o w e w2 :
  initialized (hero w) = false -> optionsOf a = Some o ->
  createElements (initStart o w) = (Throw e, w2) ->
  init env a w = (Throw e, w2)
  /\ initialized (hero w2) = false
  /\ trace (page w2) = FInit :: trace (page w)
  /\ pendingScripts (page w2) = pendingScripts (page w).
Proof.
  intros Hi Ho Hc. rewrite (init_unfold env a o w Hi Ho), Hc.
  destruct (createElements_spec (initStart o w)) as (Hh & Ht & Hs & _).
  rewrite Hc in Hh, Ht, Hs. cbn [fst snd] in *.
  split; [reflexivity|]. split; [rewrite Hh; exact Hi|]. split; assumption.
Qed.

Lemma Inv_init env a w : Inv w -> Inv (snd (init env a w)).
Proof.
  intros HI. pose proof HI as (Hm & Hr & Hp).
  destruct (Bool.bool_dec (initialized (hero w)) true) as [Hi|Hi].
  - rewrite init_initialized_noop by exact Hi.
    apply (Inv_frameView w); [reflexivity | exact HI].
  - apply not_true_is_false in Hi. rewrite Hi in Hp.
    assert (Hpend : pendingScripts (page w) = [] /\ ranks (trace (page w)) = []).
    { destruct (pendingScripts (page w)) as [|[] [|? ?]]; try tauto;
        destruct Hp as [Hp _]; discriminate. }
    destruct Hpend as [Hpend Hranks].
    destruct (optionsOf a) as [o|] eqn:Ho.
    + destruct (createElements (initStart o w)) as [[[]|e] w2] eqn:Hc.
      * destruct (init_effect env a o w Hi Ho) as (_ & e & He & [I1 I2 _ I4 I5 _ _ _]).
        { rewrite Hc. reflexivity. }
        unfold Inv. rewrite I1, I2, I4, Hpend, ranks_app, tierOf_app.
        change (ranks (FInit :: trace (page w))) with (ranks (trace (page w))).
        rewrite Hranks, app_nil_r.
        split; [|split; [intros _; exact I5|]]; each_effect He; simpl; eauto.
      * destruct (init_createElements_throws env a o w e w2 Hi Ho Hc)
          as (-> & H1 & H2 & H3).
        unfold Inv. cbn [snd]. rewrite H1, H2, H3, Hpend.
        change (ranks (FInit :: trace (page w))) with (ranks (trace (page w))).
        split; [exact Hm|]. split; [discriminate|exact Hranks].
    + destruct a; try discriminate. rewrite init_null by exact Hi.
      apply (Inv_frameView w); [reflexivity | exact HI].
Qed.

Lemma Inv_run evs w : noDestroy evs -> Inv w -> Inv (run evs w).
Proof.
  unfold run. revert w. induction evs as [|[env ev] evs IH]; intros w Hn Hw; [exact Hw|].
  apply Forall_cons in Hn as [Hev Hn]. simpl. apply IH; [exact Hn|].
  destruct ev; simpl in *.
  - apply Inv_init, Hw.
  - congruence.
  - apply Inv_settle, Hw.
  - apply Inv_frame, Hw.
Qed.

(** ** From a fresh page to a settled pipeline *)

Lemma boot_settles ok1 ok2 : forallb settledOk (bootAbs ok1 ok2) = true.
Proof. destruct ok1, ok2; vm_compute; reflexivity. Qed.

Lemma settle_reached env ok acc w0 w :
  Reached acc w0 w ->
  fst (scriptSettles env 0 ok w) = Ok tt
  /\ exists acc', acc' ∈ settleAbs ok acc
       /\ Reached acc' w0 (snd (scriptSettles env 0 ok w)).
Proof.
  intros [Ht Hs Hh Hr Hnb Hb]. unfold settleAbs.
  destruct (e_scripts acc) as [|s rest] eqn:E.
  - rewrite scriptSettles_none by (rewrite Hs; reflexivity).
    cbn [fst snd]. split; [reflexivity|]. exists acc. split; [left|].
    split; try assumption. congruence.
  - destruct (scriptSettles_effect env 0 ok w s Hr)
      as (Hok & o & Ho & [S1 S2 S3 S4 S5 S6]).
    { rewrite Hs. reflexivity. }
    split; [exact Hok|].
    eexists. split; [apply list_elem_of_fmap; exists o; split; [reflexivity|exact Ho]|].
    split; cbn [e_trace e_scripts e_hides e_nobody].
    + rewrite S1, Ht, app_assoc. reflexivity.
    + rewrite S2, Hs. reflexivity.
    + intros H. apply orb_false_iff in H as [H1 H2].
      eapply noneHidden_trans; [apply Hh, H1 | apply S3, H2].
    + destruct Hr as (Hc & D1 & D2). unfold settings in S4.
      split; [congruence|]. split; apply S5; assumption.
    + intros H. apply orb_true_iff in H as [H|H]; [exact (Hnb H)|].
      apply S6 in H. congruence.
    + unfold settings in S4. congruence.
Qed.

Lemma init_returns env a w :
  a <> ArgNull -> hasBody (page w) = true \/ hasDefaults w ->
  fst (init env a w) = Ok tt.
Proof.
  intros Ha Hb. destruct (Bool.bool_dec (initialized (hero w)) true) as [Hi|Hi].
  - rewrite init_initialized_noop by exact Hi. reflexivity.
  - apply not_true_is_false in Hi.
    destruct (optionsOf a) as [o|] eqn:Ho; [|destruct a; congruence || discriminate].
    apply (init_effect env a o w Hi Ho).
    apply createElements_spec. exact Hb.
Qed.

Lemma init_reached env a w :
  a <> ArgNull -> hasBody (page w) = true \/ hasDefaults w ->
  initialized (hero w) = false -> pendingScripts (page w) = [] ->
  exists acc, acc ∈ initAbs /\ Reached acc w (snd (init env a w)).
Proof.
  intros Ha Hb Hi Hp.
  destruct (optionsOf a) as [o|] eqn:Ho; [|destruct a; congruence || discriminate].
  destruct (init_effect env a o w Hi Ho) as (_ & e & He & [I1 I2 I3 I4 I5 I6 I7 I8]).
  { apply createElements_spec. exact Hb. }
  exists (andThen (entered FInit) e). split.
  - unfold initAbs, before. apply list_elem_of_fmap. eauto.
  - split; cbn [andThen entered e_trace e_scripts e_hides e_nobody orb].
    + rewrite I1, <- app_assoc. reflexivity.
    + rewrite I2, Hp. reflexivity.
    + exact I3.
    + exact I5.
    + exact I7.
    + exact I8.
Qed.

(** ** The render loops *)

Ltac looped_done :=
  split; cbn; try reflexivity;
  try (let Hr := fresh in
       intros Hr;
       first [ discriminate Hr | eexists; split; reflexivity
             | exfalso; apply Hr; reflexivity ]).

Lemma gpuFrame_looped env cfg w : Looped (GpuLoop cfg) w (gpuFrame env cfg w).
Proof.
  unfold gpuFrame, enter, requestAnimationFrame, requireConfig, oracleGpu,
    bind, get, modify, ret, throw.
  cbn [hero page updHero updPage fst snd].
  destruct cfg as [c|]; [|looped_done].
  cbn [hero page updHero updPage fst snd setAnimationId particles renderer].
  destruct (particles (hero w)) as [b|]; [|looped_done].
  cbn [hero page updHero updPage fst snd setAnimationId setParticles particles renderer].
  destruct (renderer (hero w)) as [rd|]; [|looped_done].
  case_decide; looped_done.
Qed.

Lemma domFrame_looped env cfg w : Looped (DomLoop cfg) w (domFrame env cfg w).
Proof.
  unfold domFrame, enter, requestAnimationFrame, requireConfig, oracleDom,
    bind, get, modify, ret, throw.
  cbn [hero page updHero updPage fst snd].
  destruct cfg as [c|]; [|looped_done].
  cbn [hero page updHero updPage fst snd setAnimationId setCss3dParticles css3dRenderer].
  destruct (css3dRenderer (hero w)) as [rd|]; [|looped_done].
  case_decide; looped_done.
Qed.

Lemma runCallback_looped env r w : Looped (snd r) w (runCallback env r w).
Proof.
  unfold runCallback. destruct (snd r); [apply gpuFrame_looped | apply domFrame_looped].
Qed.

Lemma runRequest_requests env r w :
  fst (runRequest env r w) = Ok tt
  /\ frameRequests (page (snd (runRequest env r w)))
     = frameRequests (page w) ++ [(nextFrameId (page w), snd r)]
  /\ nextFrameId (page (snd (runRequest env r w))) = S (nextFrameId (page w))
  /\ trace (page (snd (runRequest env r w))) = loopFn (snd r) :: trace (page w).
Proof.
  destruct (runCallback_looped env r w) as [Hr Hn _ _ _ _ _ _ Ht].
  unfold runRequest, tryCatch, log, modify.
  destruct (runCallback env r w) as [[[]|e] w']; cbn [fst snd] in *;
    repeat split; assumption.
Qed.

Lemma forEach_requests env (l : list (nat * Callback)) w :
  let r := forEach l (runRequest env) w in
  fst r = Ok tt
  /\ frameRequests (page (snd r))
     = frameRequests (page w)
       ++ zip (seq (nextFrameId (page w)) (length l)) (map snd l)
  /\ nextFrameId (page (snd r)) = (nextFrameId (page w) + length l)%nat
  /\ trace (page (snd r)) = rev (map (fun r => loopFn (snd r)) l) ++ trace (page w).
Proof.
  revert w. induction l as [|a l IH]; intros w;
    cbn [forEach length seq map zip zip_with rev].
  - unfold ret. cbn. rewrite app_nil_r, Nat.add_0_r. repeat split.
  - destruct (runRequest_requests env a w) as (H1 & H2 & H3 & H4).
    unfold bind. destruct (runRequest env a w) as [[[]|e] w1]; cbn [fst snd] in *;
      [|discriminate].
    destruct (IH w1) as (I1 & I2 & I3 & I4). cbv zeta. rewrite I1, I2, I3, I4, H2, H3, H4.
    rewrite <- !app_assoc. cbn [app]. repeat split. lia.
Qed.

(** ** Frames of the GPU loop after a downgrade *)

Create HintDb loops discriminated.

Ltac loops_done :=
  match goal with
  | |- loops _ _ =>
      unfold loops, gpuLoopPending; cbn; split; [lia | intros; auto]
  end.

Ltac keeps_loops := repeat steps_step; try loops_done; auto with loops.

Lemma enter_loops f : steps loops (enter f).
Proof.
  unfold enter. apply (steps_modify loops). intros w.
  unfold loops, gpuLoopPending. cbn. split; [lia | intros; auto].
Qed.

Lemma log_loops s : steps loops (log s).
Proof. unfold log. keeps_loops. Qed.

#[export] Hint Resolve enter_loops log_loops : loops.

Lemma gpuFrames_app a b : gpuFrames (a ++ b) = (gpuFrames a + gpuFrames b)%nat.
Proof. induction a as [|f a IH]; simpl; [reflexivity | rewrite IH; lia]. Qed.

Lemma gpuFrames_pos k : (0 < gpuFrames k)%nat -> existsb isGpuFrame k = true.
Proof.
  induction k as [|f k IH]; simpl; [lia|].
  destruct (isGpuFrame f); [reflexivity|]. simpl. exact IH.
Qed.

Lemma gpuFrame_loops env c : steps loops (gpuFrame env c).
Proof.
  intros w. destruct (gpuFrame_looped env c w) as [_ _ _ _ _ _ _ _ Ht].
  unfold loops. rewrite Ht. cbn. split; [lia | right; lia].
Qed.

Lemma domFrame_loops env c : steps loops (domFrame env c).
Proof.
  intros w. destruct (domFrame_looped env c w) as [Hr _ _ _ _ _ _ _ Ht].
  unfold loops, gpuLoopPending. rewrite Ht, Hr, existsb_app. cbn.
  rewrite !orb_false_r. split; [lia | auto].
Qed.

Lemma createElements_loops : steps loops createElements.
Proof. unfold createElements, insertIntoBody. keeps_loops. Qed.

Lemma showFallback_loops s : steps loops (showFallback s).
Proof. unfold showFallback. keeps_loops. Qed.

Lemma hideFallback_loops : steps loops hideFallback.
Proof. unfold hideFallback. keeps_loops. Qed.

Lemma appendScript_loops s : steps loops (appendScript s).
Proof. unfold appendScript. keeps_loops. Qed.

Lemma getElementById_loops id : steps loops (getElementById id).
Proof. unfold getElementById. keeps_loops. Qed.

#[export] Hint Resolve gpuFrame_loops domFrame_loops createElements_loops
  showFallback_loops hideFallback_loops appendScript_loops getElementById_loops : loops.

Lemma startCSS3D_loops env : steps loops (startCSS3D env).
Proof.
  unfold startCSS3D, animateCSS3D, setupInteraction, requireConfig, oracleDom.
  keeps_loops.
Qed.

Lemma initCSS3D_loops : steps loops initCSS3D.
Proof. unfold initCSS3D. keeps_loops. Qed.

#[export] Hint Resolve startCSS3D_loops initCSS3D_loops : loops.

Lemma initWebGL_loops env : steps loops (initWebGL env).
Proof.
  unfold initWebGL, animate, setupInteraction, requireConfig, oracleGpu.
  keeps_loops.
Qed.

#[export] Hint Resolve initWebGL_loops : loops.

Lemma onThreeLoaded_loops env : steps loops (onThreeLoaded env).
Proof. unfold onThreeLoaded. keeps_loops. Qed.

#[export] Hint Resolve onThreeLoaded_loops : loops.

Lemma loadThreeJS_loops env : steps loops (loadThreeJS env).
Proof. unfold loadThreeJS. keeps_loops. Qed.

#[export] Hint Resolve loadThreeJS_loops : loops.

Lemma scriptSettles_loops env k ok : steps loops (scriptSettles env k ok).
Proof. unfold scriptSettles. keeps_loops. Qed.

Lemma init_loops env a : steps loops (init env a).
Proof. unfold init. keeps_loops. Qed.

(** *** Traces *)

Lemma gpuFirstFrameThrew_app_r a b :
  gpuFirstFrameThrew b = true -> gpuFirstFrameThrew (a ++ b) = true.
Proof.
  intros H. induction a as [|f a IH]; [exact H|].
  cbn [app gpuFirstFrameThrew]. rewrite IH.
  destruct f; try reflexivity. destruct (a ++ b) as [|[] ?]; reflexivity.
Qed.

Lemma gpuFirstFrameThrew_app_l a b :
  gpuFirstFrameThrew a = true -> gpuFirstFrameThrew (a ++ b) = true.
Proof.
  induction a as [|f a IH]; [discriminate|].
  cbn [app gpuFirstFrameThrew]. intros H.
  destruct f; try (apply IH; exact H).
  destruct a as [|g a]; [discriminate|].
  destruct g; try (apply IH; exact H). reflexivity.
Qed.

Lemma lateGpuFrame_app a b :
  lateGpuFrame (a ++ b)
  = lateGpuFrame a || lateGpuFrame b
    || (existsb isGpuFrame a && existsb lowRank (ranks b)).
Proof.
  induction a as [|f a IH]; cbn [app lateGpuFrame existsb].
  - rewrite orb_false_r. reflexivity.
  - rewrite IH, ranks_app, existsb_app.
    destruct (isGpuFrame f), (existsb lowRank (ranks a)), (lateGpuFrame a),
      (lateGpuFrame b), (existsb isGpuFrame a), (existsb lowRank (ranks b));
      reflexivity.
Qed.

Lemma lateGpuFrame_unranked k : ranks k = [] -> lateGpuFrame k = false.
Proof.
  induction k as [|f k IH]; [reflexivity|].
  intros H. assert (Hk : ranks k = []).
  { unfold ranks in *. simpl in H. destruct (rank f); [discriminate | exact H]. }
  cbn [lateGpuFrame]. rewrite Hk, IH by exact Hk. cbn.
  rewrite andb_false_r. reflexivity.
Qed.

Lemma head_ranks_app a b :
  head (ranks (a ++ b)) = match ranks a with [] => head (ranks b) | r :: _ => Some r end.
Proof. rewrite ranks_app. destruct (ranks a); reflexivity. Qed.

Lemma neverRises_above r rs :
  neverRises (r :: rs) = true -> (2 <= r)%nat -> existsb lowRank (r :: rs) = false.
Proof.
  intros H Hr. apply neverRises_head in H. rewrite Forall_forall in H.
  apply not_true_is_false. intros E. apply existsb_exists in E as (x & Hx & Hl).
  unfold lowRank in Hl. apply Nat.leb_le in Hl.
  destruct Hx as [<- | Hx]; [lia|].
  apply list_elem_of_In, H in Hx. lia.
Qed.

(** *** The invariant *)

Lemma LoopInv_fresh path body three elements :
  LoopInv (freshWorld path body three elements).
Proof. split; discriminate. Qed.

Lemma LoopInv_extend w w' k :
  trace (page w') = k ++ trace (page w) -> loops w w' -> LoopInv w ->
  (existsb isGpuFrame k = true ->
   head (ranks k) = Some 2%nat \/ gpuFirstFrameThrew k = true) ->
  (lateGpuFrame k = true -> gpuFirstFrameThrew k = true) ->
  (existsb isGpuFrame k = true -> ranks (trace (page w)) = []) ->
  (ranks k = [] \/ head (ranks (trace (page w))) <> Some 2%nat) ->
  LoopInv w'.
Proof.
  intros Ht [Hle Hl] [I1 I2] C1 C2 C3 C4. unfold LoopInv. rewrite Ht in *.
  rewrite gpuFrames_app in Hle, Hl. split.
  - intros Hp. destruct (Hl Hp) as [Hw|Hlt].
    + destruct (I1 Hw) as [Hh|Hf]; [|right; apply gpuFirstFrameThrew_app_r, Hf].
      destruct C4 as [Hk|Hk]; [|contradiction].
      left. rewrite head_ranks_app, Hk. exact Hh.
    + assert (Hg : existsb isGpuFrame k = true) by (apply gpuFrames_pos; lia).
      destruct (C1 Hg) as [Hh|Hf]; [|right; apply gpuFirstFrameThrew_app_l, Hf].
      left. rewrite head_ranks_app. destruct (ranks k); [discriminate | exact Hh].
  - rewrite lateGpuFrame_app. intros H.
    apply orb_true_iff in H as [H|H]; [apply orb_true_iff in H as [H|H]|].
    + apply gpuFirstFrameThrew_app_l, C2, H.
    + apply gpuFirstFrameThrew_app_r, I2, H.
    + apply andb_true_iff in H as [Hg Hlow].
      rewrite (C3 Hg) in Hlow. discriminate.
Qed.

Lemma existsb_isGpuLoop_zip (ids : list nat) (l : list (nat * Callback)) :
  length ids = length l ->
  existsb isGpuLoop (zip ids (map snd l)) = existsb isGpuLoop l.
Proof.
  revert ids. induction l as [|[i cb] l IH]; intros [|j ids] H; try discriminate;
    [reflexivity|].
  cbn. f_equal. apply IH. simpl in H. lia.
Qed.

Lemma loopFns_unranked (l : list (nat * Callback)) :
  ranks (rev (map (fun r => loopFn (snd r)) l)) = [].
Proof.
  induction l as [|[i cb] l IH]; [reflexivity|].
  cbn [map rev]. rewrite ranks_app, IH. destruct cb; reflexivity.
Qed.

Lemma loopFns_gpu (l : list (nat * Callback)) :
  existsb isGpuFrame (rev (map (fun r => loopFn (snd r)) l)) = existsb isGpuLoop l.
Proof.
  induction l as [|[i cb] l IH]; [reflexivity|].
  cbn [map rev existsb]. rewrite existsb_app, IH. cbn.
  unfold isGpuLoop at 2. cbn. destruct cb; cbn; rewrite ?orb_false_r, ?orb_true_r;
    reflexivity.
Qed.

Lemma frame_requests env w :
  let r := frame env w in
  fst r = Ok tt
  /\ frameRequests (page (snd r))
     = zip (seq (nextFrameId (page w)) (length (frameRequests (page w))))
           (map snd (frameRequests (page w)))
  /\ nextFrameId (page (snd r))
     = (nextFrameId (page w) + length (frameRequests (page w)))%nat
  /\ trace (page (snd r))
     = rev (map (fun r => loopFn (snd r)) (frameRequests (page w))) ++ trace (page w).
Proof.
  unfold frame, bind, get, modify. cbn [fst snd].
  destruct (forEach_requests env (frameRequests (page w))
              (updPage (setFrameRequests []) w)) as (H1 & H2 & H3 & H4).
  change (forEach (frameRequests (page w))
            (fun r => tryCatch (runCallback env r) (fun e => log ("Uncaught " +:+ e))))
    with (forEach (frameRequests (page w)) (runRequest env)).
  cbv zeta. split; [exact H1|]. rewrite H2, H3, H4. repeat split.
Qed.

Lemma LoopInv_frame env w : Inv w -> LoopInv w -> LoopInv (snd (frame env w)).
Proof.
  intros (Hd & _) [I1 I2].
  destruct (frame_requests env w) as (_ & Hr & _ & Ht).
  set (k := rev (map (fun r => loopFn (snd r)) (frameRequests (page w)))) in *.
  assert (Hk : ranks k = []) by apply loopFns_unranked.
  assert (Hp : gpuLoopPending (snd (frame env w)) = gpuLoopPending w).
  { unfold gpuLoopPending. rewrite Hr. apply existsb_isGpuLoop_zip.
    rewrite length_seq. reflexivity. }
  unfold LoopInv. rewrite Hp, Ht. split.
  - intros H. destruct (I1 H) as [Hh|Hf].
    + left. rewrite head_ranks_app, Hk. exact Hh.
    + right. apply gpuFirstFrameThrew_app_r, Hf.
  - rewrite lateGpuFrame_app, (lateGpuFrame_unranked k Hk). cbn [orb].
    intros H. apply orb_true_iff in H as [H|H];
      [apply gpuFirstFrameThrew_app_r, I2, H|].
    apply andb_true_iff in H as [Hg Hlow].
    unfold k in Hg. rewrite loopFns_gpu in Hg.
    destruct (I1 Hg) as [Hh|Hf]; [|apply gpuFirstFrameThrew_app_r, Hf].
    destruct (ranks (trace (page w))) as [|r rs] eqn:Er; [discriminate|].
    injection Hh as ->.
    rewrite (neverRises_above 2 rs) in Hlow;
      [discriminate | apply descends_neverRises, Hd | lia].
Qed.

Ltac chunk_cases He :=
  each_effect He; cbn;
  repeat split; intros; try discriminate; try congruence; auto.

Lemma LoopInv_init env a w : Inv w -> LoopInv w -> LoopInv (snd (init env a w)).
Proof.
  intros HI HL. pose proof HI as (Hm & Hr & Hp).
  pose proof (init_loops env a w) as Hloops.
  destruct (Bool.bool_dec (initialized (hero w)) true) as [Hi|Hi].
  - rewrite init_initialized_noop in * by exact Hi. cbn [snd] in *.
    apply (LoopInv_extend w _ [FInit]); try assumption; try discriminate;
      [reflexivity | left; reflexivity].
  - apply not_true_is_false in Hi. rewrite Hi in Hp.
    assert (Hranks : ranks (trace (page w)) = []).
    { destruct (pendingScripts (page w)) as [|[] [|? ?]]; try tauto;
        destruct Hp as [Hp _]; discriminate. }
    destruct (optionsOf a) as [o|] eqn:Ho.
    + destruct (createElements (initStart o w)) as [[[]|e] w2] eqn:Hc.
      * destruct (init_effect env a o w Hi Ho) as (_ & e & He & [I1 _ _ _ _ _ _ _]).
        { rewrite Hc. reflexivity. }
        apply (LoopInv_extend w _ (e_trace e ++ [FInit])); try assumption.
        -- rewrite I1, <- app_assoc. reflexivity.
        -- chunk_cases He.
        -- chunk_cases He.
        -- intros _. exact Hranks.
        -- right. rewrite Hranks. discriminate.
      * destruct (init_createElements_throws env a o w e w2 Hi Ho Hc)
          as (E & _ & H2 & _).
        rewrite E in *. cbn [snd] in *.
        apply (LoopInv_extend w _ [FInit]); try assumption; try discriminate;
          left; reflexivity.
    + destruct a; try discriminate. rewrite init_null in * by exact Hi. cbn [snd] in *.
      apply (LoopInv_extend w _ [FInit]); try assumption; try discriminate;
        [reflexivity | left; reflexivity].
Qed.

Lemma LoopInv_settle env k ok w :
  Inv w -> LoopInv w -> LoopInv (snd (scriptSettles env k ok w)).
Proof.
  intros (Hm & Hr & Hp) HL.
  pose proof (scriptSettles_loops env k ok w) as Hloops.
  destruct (pendingScripts (page w) !! k) as [s|] eqn:Hk;
    [|rewrite scriptSettles_none by exact Hk; exact HL].
  destruct (pendingScripts (page w)) as [|s0 [|s1 rest]] eqn:Hpend;
    [discriminate | | destruct s0; destruct Hp].
  destruct k as [|k]; [|discriminate]. simpl in Hk. injection Hk as ->.
  assert (Hi : initialized (hero w) = true) by (destruct s; tauto).
  destruct (scriptSettles_effect env 0 ok w s (Hr Hi))
    as (_ & o & Ho & [Ht _ _ _ _ _]).
  { rewrite Hpend. reflexivity. }
  apply (LoopInv_extend w _ (e_trace o)); try assumption.
  - destruct s, ok; chunk_cases Ho.
  - destruct s, ok; chunk_cases Ho.
  - destruct s; destruct Hp as [_ Hp].
    + intros _. exact Hp.
    + destruct ok; chunk_cases Ho.
  - right. destruct s; destruct Hp as [_ Hp]; rewrite Hp; discriminate.
Qed.

Lemma LoopInv_run evs w :
  noDestroy evs -> Inv w -> LoopInv w -> LoopInv (run evs w).
Proof.
  unfold run. revert w. induction evs as [|[env ev] evs IH]; intros w Hn Hw HL;
    [exact HL|].
  apply Forall_cons in Hn as [Hev Hn]. simpl.
  destruct ev; simpl in *.
  - apply IH; [exact Hn | apply Inv_init, Hw | apply LoopInv_init; assumption].
  - congruence.
  - apply IH; [exact Hn | apply Inv_settle, Hw | apply LoopInv_settle; assumption].
  - apply IH; [exact Hn | apply Inv_frame, Hw | apply LoopInv_frame; assumption].
Qed.

(** * The controller: init, the tier cascade, destroy *)







(** * The DOM grid, presets and the colour override *)

Lemma fold_left_push {A B} (f : A -> B) (l : list A) (acc : list B) :
  fold_left (fun ps a => ps ++ [f a]) l acc = acc ++ map f l.
Proof.
  revert acc. induction l as [|a l IH]; intros acc; simpl.
  - rewrite app_nil_r. reflexivity.
  - rewrite IH, <- app_assoc. reflexivity.
Qed.

Lemma grid_map cfg :
  Css3d.grid cfg
  = map (fun p => Css3d.place cfg (fst p) (snd p))
        (gridPoints (Css3d.countX cfg) (Css3d.countY cfg)).
Proof.
  unfold Css3d.grid. rewrite forRange_nested.
  apply (fold_left_push (fun p => Css3d.place cfg (fst p) (snd p))).
Qed.

(** C7 (amended).  The DOM grid has [min amountX 20 * min amountY 15] objects,
    at most 20 * 15, placed with 1.5 times the configured separation as
    spacing; the extent it covers is [min amountX 20] by [min amountY 15]
    times that spacing. *)
Theorem css3d_grid_shape (cfg : Config) :
  Css3d.grid cfg
  = map (fun p => Css3d.place cfg (fst p) (snd p))
        (gridPoints (Z.min (amountX cfg) 20) (Z.min (amountY cfg) 15))
  /\ length (Css3d.grid cfg)
     = (Z.to_nat (Z.min (amountX cfg) 20) * Z.to_nat (Z.min (amountY cfg) 15))%nat
  /\ (length (Css3d.grid cfg) <= 20 * 15)%nat
  /\ Css3d.spacing cfg = (separation cfg * 1.5)%float
  /\ Css3d.extentX cfg
     = (Num.ofZ (Z.min (amountX cfg) 20) * (separation cfg * 1.5))%float
  /\ Css3d.extentY cfg
     = (Num.ofZ (Z.min (amountY cfg) 15) * (separation cfg * 1.5))%float.
Proof.
  assert (L : length (Css3d.grid cfg)
     = (Z.to_nat (Z.min (amountX cfg) 20) * Z.to_nat (Z.min (amountY cfg) 15))%nat).
  { rewrite grid_map, length_map, gridPoints_length. reflexivity. }
  split; [apply grid_map|]. split; [exact L|]. split; [|repeat split].
  rewrite L. apply Nat.mul_le_mono; lia.
Qed.

Lemma css3d_footprint_differs :
  Css3d.extentX Presets.waves = 2400%float
  /\ gpuExtentX Presets.waves = 4800%float
  /\ Css3d.extentX Presets.waves <> gpuExtentX Presets.waves
  /\ Css3d.extentY Presets.waves <> gpuExtentY Presets.waves.
Proof. repeat split; try reflexivity; vm_compute; discriminate. Qed.

Lemma init_config env a o w :
  initialized (hero w) = false -> optionsOf a = Some o ->
  config (hero (snd (init env a w))) = Some (resolveConfig (pathname (page w)) o).
Proof.
  intros Hi Ho. rewrite (init_unfold env a o w Hi Ho).
  assert (Hc := createElements_settings (initStart o w)).
  apply settings_config in Hc.
  destruct (createElements (initStart o w)) as [[[]|e] w2]; cbn [snd] in *.
  - rewrite (settings_config _ _ (loadThreeJS_settings env (initReady o w2))).
    unfold initReady. cbn. exact Hc.
  - exact Hc.
Qed.

Local Transparent resolveConfig presetNameOf.

Lemma resolveConfig_unknown path o name :
  preset o = Some name -> name <> "" -> Presets.get name = Presets.Undefined ->
  resolveConfig path o = resolveConfig path (withPreset (Some "waves") o).
Proof.
  intros Hp Hn Hu. unfold resolveConfig, presetNameOf, presetOrWaves, withPreset.
  cbn [preset custom optColor]. rewrite Hp. unfold strOr.
  destruct name as [|ch name]; [contradiction|].
  cbn [String.eqb]. rewrite Hu. reflexivity.
Qed.

Lemma spread_noOverrides p : spread p noOverrides = p.
Proof. destruct p as [s ax ay [c|] [c2|] h sp cz cy ps op]; reflexivity. Qed.

(** C8 (amended).  For a preset name that is not empty, not a preset and not a
    property inherited from [Object.prototype], [init] resolves the
    configuration as it does for the name "waves"; with no custom overrides
    and no colour it is the [waves] preset exactly. *)
Theorem unknown_preset_resolves_to_waves (env : Env) (w : World) (o : Options)
    (name : string) :
  initialized (hero w) = false ->
  preset o = Some name -> name <> "" -> Presets.get name = Presets.Undefined ->
  let w' := snd (init env (ArgObject o) w) in
  config (hero w')
    = Some (resolveConfig (pathname (page w)) (withPreset (Some "waves") o))
  /\ (custom o = None -> optColor o = None -> config (hero w') = Some Presets.waves).
Proof.
  intros Hi Hp Hn Hu w'. unfold w'.
  rewrite (init_config env (ArgObject o) o w Hi eq_refl).
  rewrite (resolveConfig_unknown _ o name Hp Hn Hu).
  split; [reflexivity|]. intros Hc Hcol.
  unfold resolveConfig, withPreset. cbn [preset custom optColor]. rewrite Hc, Hcol.
  cbn [default]. rewrite spread_noOverrides. reflexivity.
Qed.

Lemma unknown_preset_resolves_to_waves_witness :
  config (hero (snd (init envAllFine (ArgObject (withPreset (Some "bogus") noOptions))
                       (freshWorld "/quantum/" true false ∅))))
  = Some Presets.waves.
Proof.
  apply (unknown_preset_resolves_to_waves envAllFine
           (freshWorld "/quantum/" true false ∅)
           (withPreset (Some "bogus") noOptions) "bogus");
    [reflexivity | reflexivity | discriminate | vm_compute; reflexivity
    | reflexivity | reflexivity].
Defined.

Lemma empty_preset_name_detects_from_path :
  Presets.get "" = Presets.Undefined
  /\ config (hero (snd (init envAllFine (ArgObject (withPreset (Some "") noOptions))
                          (freshWorld "/quantum/" true false ∅))))
     = Some Presets.quantum
  /\ Presets.quantum <> Presets.waves.
Proof.
  split; [vm_compute; reflexivity|]. split; [vm_compute; reflexivity|].
  intros H. apply (f_equal amountX) in H. discriminate.
Qed.

(** C10.  When [options.color] is missing or falsy (0, -0 and NaN are), [init]
    resolves the configuration to the preset overlaid with the custom
    overrides: its colour is the custom one when there is one, and the
    preset's otherwise. *)
Theorem falsy_color_is_ignored (env : Env) (w : World) (o : Options) :
  initialized (hero w) = false ->
  match optColor o with Some c => Num.truthy c = false | None => True end ->
  let base := spread (presetOrWaves (presetNameOf (pathname (page w)) o))
                (default noOverrides (custom o)) in
  config (hero (snd (init env (ArgObject o) w))) = Some base
  /\ color base
     = match custom o ≫= o_color with
       | Some c => Some c
       | None => color (presetOrWaves (presetNameOf (pathname (page w)) o))
       end
  /\ Num.truthy 0 = false /\ Num.truthy (-0) = false /\ Num.truthy nan = false.
Proof.
  intros Hi Hc base. rewrite (init_config env (ArgObject o) o w Hi eq_refl).
  split; [|split; [|repeat split]].
  - unfold resolveConfig. fold base. destruct (optColor o) as [c|]; [|reflexivity].
    rewrite Hc. reflexivity.
  - unfold base. destruct (custom o) as [c|]; cbn; [reflexivity|].
    destruct (color _); reflexivity.
Qed.

Lemma falsy_color_is_ignored_witness :
  Num.truthy 0 = false
  /\ config (hero (snd (init envAllFine (ArgObject (withColor (Some 0%float) noOptions))
                          (freshWorld "/quantum/" true false ∅))))
     = Some Presets.quantum.
Proof.
  split; [reflexivity|].
  apply (falsy_color_is_ignored envAllFine (freshWorld "/quantum/" true false ∅)
           (withColor (Some 0%float) noOptions)); reflexivity.
Defined.

(** * [init] called twice *)

Lemma init_ok_initialized env a w :
  fst (init env a w) = Ok tt -> initialized (hero (snd (init env a w))) = true.
Proof.
  intros Hok. destruct (Bool.bool_dec (initialized (hero w)) true) as [Hi|Hi].
  - rewrite init_initialized_noop by exact Hi. exact Hi.
  - apply not_true_is_false in Hi.
    destruct (optionsOf a) as [o|] eqn:Ho.
    + destruct (createElements (initStart o w)) as [[[]|e] w2] eqn:Hc.
      * destruct (init_effect env a o w Hi Ho) as (_ & e & _ & [_ _ _ I4 _ _]);
          [rewrite Hc; reflexivity | exact I4].
      * destruct (init_createElements_throws env a o w e w2 Hi Ho Hc) as (E & _).
        rewrite E in Hok. discriminate.
    + destruct a; try discriminate. rewrite init_null in Hok by exact Hi. discriminate.
Qed.

(** ** The renderers *)

Ltac rendererAdded_done :=
  match goal with
  | |- rendererAdded _ _ =>
      unfold rendererAdded, activeGpu; cbn;
      split; [reflexivity | first [left; reflexivity | right; reflexivity]]
  end.

Lemma init_rendererAdded env a : steps rendererAdded (init env a).
Proof.
  unfold init.
  repeat first
    [ steps_step
    | rendererAdded_done
    | progress unfold createElements, insertIntoBody, getElementById, log, enter,
        loadThreeJS, onThreeLoaded, initWebGL, initCSS3D, appendScript, animate,
        gpuFrame, requestAnimationFrame, hideFallback, setupInteraction,
        requireConfig, oracleGpu ].
Qed.

(** [initWebGL] when nothing fails. *)
Lemma initWebGL_runs (env : Env) (w : World) (c : Config)
    (b : list float * list float) (cid : string) :
  gpuThrows env = None -> hasBody (page w) = true ->
  containerId (hero w) = Some cid -> is_Some (dom (page w) !! cid) ->
  config (hero w) = Some c -> Field.build c = Some b ->
  let r := initWebGL env w in
  fst r = Ok tt
  /\ trace (page (snd r)) = FGpuFrame :: FAnimate :: FInitWebGL :: trace (page w)
  /\ particles (hero (snd r)) = Some (Wave.advance (Math_sin env) c 0 b)
  /\ renderer (hero (snd r)) = Some {| canvas := Some cid; disposed := false |}
  /\ count (hero (snd r)) = (0 + waveSpeed c)%float
  /\ frameRequests (page (snd r))
     = frameRequests (page w) ++ [(nextFrameId (page w), GpuLoop (Some c))]
  /\ animationId (hero (snd r)) = Some (nextFrameId (page w))
  /\ displayBlock <$> dom (page (snd r)) !! cid = Some true
  /\ (forall fid, fallbackEl (hero w) = Some fid ->
        hiddenClass <$> dom (page (snd r)) !! fid
        = (fun _ => true) <$> dom (page w) !! fid)
  /\ pendingScripts (page (snd r)) = pendingScripts (page w).
Proof.
  intros Hg Hbody Hid [el Hel] Hc Hb r. subst r.
  destruct (initWebGL env w) as [res w'] eqn:E. cbn [fst snd]. revert E.
  destruct (fallbackEl (hero w)) as [fid|] eqn:Hf.
  all: unfold initWebGL, animate, gpuFrame, setupInteraction, hideFallback,
    requestAnimationFrame, enter, log, getElementById, oracleGpu, requireConfig,
    tryCatch, bind, get, modify, ret, throw.
  all: repeat first [ rewrite Hid | rewrite Hel | rewrite Hc | rewrite Hb | rewrite Hg
                    | rewrite Hf | rewrite Hbody | progress cbn ].
  all: repeat (case_decide; [discriminate|]).
  all: repeat first [ rewrite Hid | rewrite Hel | rewrite Hc | rewrite Hb | rewrite Hg
                    | rewrite Hf | rewrite Hbody | progress cbn ].
  all: intros [= <- <-]; cbn.
  all: do 7 (split; [reflexivity|]).
  all: split; [|split; [|reflexivity]].
  - destruct (decide (fid = cid)) as [->|Hne].
    + rewrite !lookup_alter_eq, Hel. reflexivity.
    + rewrite lookup_alter_ne, lookup_alter_eq, Hel by exact Hne. reflexivity.
  - intros ? [= <-]. rewrite lookup_alter_eq.
    destruct (decide (cid = fid)) as [->|Hne].
    + rewrite lookup_alter_eq. destruct (dom (page w) !! fid); reflexivity.
    + rewrite lookup_alter_ne by exact Hne.
      destruct (dom (page w) !! fid); reflexivity.
  - rewrite lookup_alter_eq, Hel. reflexivity.
  - intros ? [=].
Qed.

(** [init] on a page that has three.js and WebGL, when nothing fails: the
    WebGL renderer is created on the default canvas. *)
Lemma init_starts_gpu env a o w b :
  initialized (hero w) = false -> optionsOf a = Some o ->
  hasTHREE (page w) = true -> hasBody (page w) = true ->
  webglContext env = ProbeTruthy -> gpuThrows env = None ->
  container o = None ->
  Field.build (resolveConfig (pathname (page w)) o) = Some b ->
  renderer (hero (snd (init env a w)))
  = Some {| canvas := Some "wavehero-canvas"; disposed := false |}.
Proof.
  intros Hi Ho Ht Hb Hp Hg Hc Hf. rewrite (init_unfold env a o w Hi Ho).
  destruct (createElements_spec (initStart o w)) as (_ & _ & _ & _ & _ & _ & Hd & Hok).
  destruct (createElements_dom (initStart o w)) as (d & Hw & _ & _).
  destruct (createElements (initStart o w)) as [[[]|e] w2]; cbn [fst snd] in *;
    [|specialize (Hok (or_introl Hb)); discriminate].
  destruct (Hd eq_refl) as [Hcanvas _]. subst w2.
  unfold loadThreeJS, onThreeLoaded, webglSupported, enter, bind, get, modify.
  cbn [fst snd hero page updHero updPage initReady initStart hasTHREE setTrace
       setConsole setInitialized setFallbackEl setContainerId setConfig setDom].
  rewrite Ht, Hp. cbn [fst snd].
  match goal with
  | |- renderer (hero (snd (initWebGL env ?W))) = _ =>
      destruct (initWebGL_runs env W (resolveConfig (pathname (page w)) o) b
                  "wavehero-canvas") as (_ & _ & _ & Hr & _);
        [ exact Hg | exact Hb | cbn; rewrite Hc; reflexivity | exact Hcanvas
        | reflexivity | exact Hf | exact Hr ]
  end.
Qed.




(** ** [destroy] *)

Lemma destroy_returns w : fst (destroy w) = Ok tt.
Proof.
  unfold destroy, enter, cancelAnimationFrame, bind, get, modify, ret.
  cbn [fst snd hero page updPage].
  destruct (animationId (hero w)) as [[|id]|]; cbn [Nat.eqb fst snd hero page updPage updHero];
    destruct (renderer (hero w)); cbn [fst snd hero page updPage updHero setRenderer css3dRenderer];
    destruct (css3dRenderer (hero w)); reflexivity.
Qed.

(** [destroy] cancels the request that [animationId] records. *)
Lemma destroy_cancels_recorded w id :
  animationId (hero w) = Some id -> id <> 0%nat ->
  id ∉ map fst (frameRequests (page (snd (destroy w)))).
Proof.
  intros Hid Hne. unfold destroy, enter, cancelAnimationFrame, bind, get, modify, ret.
  cbn [fst snd hero page updPage]. rewrite Hid.
  destruct id as [|id]; [congruence|]. cbn [Nat.eqb fst snd hero page updPage updHero].
  destruct (renderer (hero w)); cbn [fst snd hero page updPage updHero setRenderer css3dRenderer];
    destruct (css3dRenderer (hero w));
    cbn [fst snd hero page updPage updHero setRenderer setCss3dRenderer setInitialized
         setFrameRequests setTrace frameRequests];
    intros Hin; apply list_elem_of_fmap in Hin as (r & -> & Hr);
    apply list_elem_of_filter in Hr as [Hr _]; apply Hr; reflexivity.
Qed.

(** C3.  [destroy] called while three.js is still loading leaves the load
    handler in place: when the script then loads, the GPU tier starts, and its
    loop runs and keeps a frame requested although [destroy] has returned. *)
Theorem destroy_misses_pending_load (sin : float -> float) :
  let env := {| Math_sin := sin; webglContext := ProbeTruthy;
                gpuThrows := None; domThrows := None |} in
  let w := run (destroyWhileLoading env) (freshWorld "/" true false ∅) in
  trace (page w)
  = [FGpuFrame; FGpuFrame; FGpuFrame; FAnimate; FInitWebGL; FOnThreeLoaded;
     FDestroy; FLoadThreeJS; FInit]
  /\ map fst (frameRequests (page w)) = [3%nat]
  /\ initialized (hero w) = false.
Proof. vm_compute. repeat split. Qed.

(** * The buffers of the GPU tier *)

Lemma gpuFrame_particles env c w b :
  particles (hero w) = Some b ->
  particles (hero (snd (gpuFrame env (Some c) w)))
  = Some (Wave.advance (Math_sin env) c (count (hero w)) b).
Proof.
  intros Hb. unfold gpuFrame, enter, requestAnimationFrame, requireConfig, oracleGpu,
    bind, get, modify, ret, throw.
  cbn [hero page updHero updPage fst snd particles renderer count setAnimationId
       setParticles]. rewrite Hb. cbn.
  destruct (renderer (hero w)); [|reflexivity].
  case_decide; reflexivity.
Qed.

(** A statement that always throws ends the sequence it starts. *)
Lemma steps_bind_throws {A B} (R : relation World) (m : M A) (k : A -> M B) :
  steps R m -> (forall w, exists e, fst (m w) = Throw e) -> steps R (bind m k).
Proof.
  intros Hm Hf w. unfold bind. specialize (Hm w). destruct (Hf w) as [e He].
  destruct (m w) as [[a|e'] w']; simpl in *; [discriminate | exact Hm].
Qed.

Ltac keeps_particles :=
  repeat first
    [ steps_step
    | keeps_done
    | progress unfold createElements, insertIntoBody, getElementById, log, enter,
        initCSS3D, appendScript, requireConfig, oracleGpu ].

(** When the engine cannot allocate the buffers, [initWebGL] stores none. *)
Lemma initWebGL_allocation_fails env :
  gpuThrows env = Some GBuffers ->
  steps (keeps (fun w => particles (hero w))) (initWebGL env).
Proof.
  intros H. unfold initWebGL.
  apply (steps_bind _); [keeps_particles | intros _].
  apply (steps_bind _); [keeps_particles | intros w0]. cbv zeta.
  apply (steps_bind _); [keeps_particles | intros c1].
  apply (steps_bind _); [keeps_particles | intros c2].
  apply (steps_tryCatch _); [|intros e; keeps_particles].
  apply (steps_bind _); [keeps_particles | intros _].
  apply (steps_bind _); [keeps_particles | intros c].
  apply (steps_bind_throws _); [keeps_particles|].
  intros w. destruct (Field.build c) as [b|]; [|eexists; reflexivity].
  unfold oracleGpu, bind, throw. rewrite H.
  case_decide; [eexists; reflexivity | congruence].
Qed.

(** C4 (amended).  For [amountX >= 1] and [amountY >= 1]: when the length [3 *
    amountX * amountY] of the position buffer is at most 2^53 - 1, the buffers
    that the construction code of [initWebGL] builds have [3 * amountX *
    amountY] positions and [amountX * amountY] scales, the y of every point is
    0 and every scale is 1; when the length is larger, the allocation throws
    and no buffer is built; and when the engine cannot allocate the buffers,
    [initWebGL] stores none. *)
Theorem build_shape (cfg : Config) :
  1 <= amountX cfg -> 1 <= amountY cfg ->
  (3 * amountX cfg * amountY cfg <= Float32Array.maxLength ->
   exists pos scl : list float,
     Field.build cfg = Some (pos, scl)
     /\ Z.of_nat (length pos) = 3 * amountX cfg * amountY cfg
     /\ Z.of_nat (length scl) = amountX cfg * amountY cfg
     /\ (forall k : nat, Z.of_nat k < amountX cfg * amountY cfg ->
           pos !! (3 * k + 1)%nat = Some 0%float)
     /\ (forall k : nat, Z.of_nat k < amountX cfg * amountY cfg ->
           scl !! k = Some 1%float))
  /\ (Float32Array.maxLength < 3 * amountX cfg * amountY cfg ->
      Field.build cfg = None)
  /\ (forall env w, config (hero w) = Some cfg -> gpuThrows env = Some GBuffers ->
        particles (hero (snd (initWebGL env w))) = particles (hero w)).
Proof.
  intros Hx Hy. destruct (build_layout cfg Hx Hy) as [H1 H2].
  split; [exact H1|]. split; [exact H2|].
  intros env w _ Hg. apply (initWebGL_allocation_fails env Hg w).
Qed.

Lemma build_shape_witness :
  exists pos scl : list float,
    Field.build Presets.waves = Some (pos, scl)
    /\ Z.of_nat (length pos) = 3 * amountX Presets.waves * amountY Presets.waves
    /\ Z.of_nat (length scl) = amountX Presets.waves * amountY Presets.waves
    /\ (forall k : nat, Z.of_nat k < amountX Presets.waves * amountY Presets.waves ->
          pos !! (3 * k + 1)%nat = Some 0%float)
    /\ (forall k : nat, Z.of_nat k < amountX Presets.waves * amountY Presets.waves ->
          scl !! k = Some 1%float).
Proof. apply (build_shape Presets.waves); vm_compute; discriminate. Defined.

Lemma build_fails_on_huge_extents :
  1 <= amountX (spread Presets.waves hugeExtents)
  /\ 1 <= amountY (spread Presets.waves hugeExtents)
  /\ Field.build (spread Presets.waves hugeExtents) = None
  /\ buffersOf (snd (init envAllFine (ArgObject (withCustom (Some hugeExtents) noOptions))
                       (freshWorld "/" true true ∅)))
     = ([FInitCSS3D; FInitWebGL; FOnThreeLoaded; FLoadThreeJS; FInit], None).
Proof. vm_compute. repeat split; discriminate. Qed.

(** C6.  A frame of the GPU loop replaces the buffers by one pass of the wave
    update over them.  After any number of passes over the buffers [initWebGL]
    built, the lengths are unchanged, every position entry other than a y
    (index 1 modulo 3) is unchanged, and the x and z of every point are those
    of the grid layout. *)
Theorem gpu_frames_keep_layout (env : Env) (cfg : Config)
    (b : list float * list float) (ts : list float) :
  Field.build cfg = Some b ->
  let sin := Math_sin env in
  (forall w b', particles (hero w) = Some b' ->
     particles (hero (snd (gpuFrame env (Some cfg) w)))
     = Some (Wave.advance sin cfg (count (hero w)) b'))
  /\ length (fst (frames sin cfg ts b)) = length (fst b)
  /\ length (snd (frames sin cfg ts b)) = length (snd b)
  /\ (forall idx : nat, (idx mod 3 <> 1)%nat ->
        fst (frames sin cfg ts b) !! idx = fst b !! idx)
  /\ (forall ix iy : nat,
        Z.of_nat ix < amountX cfg -> Z.of_nat iy < amountY cfg ->
        let k := (ix * Z.to_nat (amountY cfg) + iy)%nat in
        fst (frames sin cfg ts b) !! (3 * k)%nat
          = Some (Num.fround (Field.gridX cfg (Z.of_nat ix)))
        /\ fst (frames sin cfg ts b) !! (3 * k + 2)%nat
          = Some (Num.fround (Field.gridZ cfg (Z.of_nat iy)))).
Proof.
  intros Hb sin. split.
  - intros w b' Hp. apply gpuFrame_particles. exact Hp.
  - apply frames_layout. exact Hb.
Qed.

Lemma gpu_frames_keep_layout_witness :
  Field.build smallField
  = Some ([-10; 0; -10; -10; 0; 0; 0; 0; -10; 0; 0; 0]%float, [1; 1; 1; 1]%float)
  /\ forall idx : nat, (idx mod 3 <> 1)%nat ->
       fst (frames (Math_sin envAllFine) smallField [0; 0.5]%float
              ([-10; 0; -10; -10; 0; 0; 0; 0; -10; 0; 0; 0]%float, [1; 1; 1; 1]%float))
         !! idx
       = [-10; 0; -10; -10; 0; 0; 0; 0; -10; 0; 0; 0]%float !! idx.
Proof.
  split; [vm_compute; reflexivity|].
  apply (gpu_frames_keep_layout envAllFine smallField
           ([-10; 0; -10; -10; 0; 0; 0; 0; -10; 0; 0; 0]%float, [1; 1; 1; 1]%float)
           [0; 0.5]%float).
  vm_compute; reflexivity.
Defined.

(** * Further properties of the code *)

(** * Preset detection *)

Lemma prefix_app p s : String.prefix p s = true -> exists r, s = String.append p r.
Proof.
  revert s. induction p as [|c p IH]; intros s H.
  - exists s. reflexivity.
  - destruct s as [|d s]; simpl in H; [discriminate|].
    destruct (Ascii.ascii_dec c d) as [->|]; [|discriminate].
    destruct (IH s H) as [r ->]. exists r. reflexivity.
Qed.

(** X1.  Whatever the path, [detectPreset] returns the name of one of the
    seven presets: for a detected name the lookup in [presets] succeeds and
    the waves default of [init] is not needed. *)
Theorem detectPreset_is_a_preset (path : string) :
  exists c, Presets.own !! detectPreset path = Some c
            /\ presetOrWaves (detectPreset path) = c.
Proof.
  unfold detectPreset.
  destruct (find _ Presets.pathPresets) as [e|] eqn:E.
  - apply find_some in E as [Hin _].
    unfold Presets.pathPresets in Hin. simpl in Hin.
    repeat (destruct Hin as [<-|Hin]; [eexists; split; reflexivity|]).
    contradiction.
  - eexists; split; reflexivity.
Qed.

(** X2.  A path that starts with a pattern of [pathPresets] other than "/"
    detects the preset of that pattern, whatever follows the pattern. *)
Theorem detectPreset_by_prefix (path pat name : string) :
  (pat, name) ∈ Presets.pathPresets -> pat <> "/" ->
  String.prefix pat path = true ->
  detectPreset path = name.
Proof.
  intros Hin Hne Hp. unfold Presets.pathPresets in Hin.
  apply prefix_app in Hp as [r ->].
  rewrite !elem_of_cons, elem_of_nil in Hin.
  destruct Hin as [H|[H|[H|[H|[H|[H|[H|[]]]]]]]]; injection H as -> ->;
    try (destruct r; vm_compute; reflexivity).
  exfalso. apply Hne. reflexivity.
Qed.

Lemma detectPreset_by_prefix_witness :
  detectPreset "/blog/2024/post.html" = "nebula".
Proof.
  apply (detectPreset_by_prefix "/blog/2024/post.html" "/blog" "nebula");
    [ unfold Presets.pathPresets; repeat constructor | discriminate | reflexivity ].
Defined.

(** X3.  A path that starts with no pattern of [pathPresets] other than "/"
    detects "waves": the entry for "/" is never consulted. *)
Theorem detectPreset_default (path : string) :
  (forall pat name, (pat, name) ∈ Presets.pathPresets -> pat <> "/" ->
     String.prefix pat path = false) ->
  detectPreset path = "waves".
Proof.
  intros Hno. unfold detectPreset.
  destruct (find _ Presets.pathPresets) as [[pat name]|] eqn:E; [|reflexivity].
  apply find_some in E as [Hin Hp]. cbn [fst snd] in Hp.
  apply andb_true_iff in Hp as [Hne Hp].
  rewrite (Hno pat name) in Hp; [discriminate| apply list_elem_of_In, Hin |].
  intros ->. discriminate.
Qed.

Lemma detectPreset_default_witness : detectPreset "/index.html" = "waves".
Proof.
  apply (detectPreset_default "/index.html").
  intros pat name Hin Hne. unfold Presets.pathPresets in Hin.
  rewrite !elem_of_cons, elem_of_nil in Hin.
  destruct Hin as [H|[H|[H|[H|[H|[H|[H|[]]]]]]]]; injection H as -> ->;
    try reflexivity.
  exfalso. apply Hne. reflexivity.
Defined.

(** * The colour override *)

(** X4.  A truthy [options.color] replaces the colour of the preset overlaid
    with the custom overrides, the custom colour included, and changes no
    other field. *)
Theorem truthy_color_overrides (env : Env) (w : World) (o : Options) (c : float) :
  initialized (hero w) = false ->
  optColor o = Some c -> Num.truthy c = true ->
  let base := spread (presetOrWaves (presetNameOf (pathname (page w)) o))
                (default noOverrides (custom o)) in
  config (hero (snd (init env (ArgObject o) w))) = Some (setColor c base).
Proof.
  intros Hi Ho Hc base. rewrite (init_config env (ArgObject o) o w Hi eq_refl).
  unfold resolveConfig. fold base. rewrite Ho, Hc. reflexivity.
Qed.

Lemma truthy_color_overrides_witness :
  color <$> config (hero (snd (init envAllFine
                                 (ArgObject (withColor (Some 0x22d3ee%float) noOptions))
                                 (freshWorld "/" true false ∅))))
  = Some (Some 0x22d3ee%float).
Proof.
  rewrite (truthy_color_overrides envAllFine (freshWorld "/" true false ∅)
             (withColor (Some 0x22d3ee%float) noOptions) 0x22d3ee%float);
    reflexivity.
Defined.

(** * Extents that are not positive *)

Lemma gridPoints_nil nx ny : nx <= 0 \/ ny <= 0 -> gridPoints nx ny = [].
Proof.
  intros H. unfold gridPoints.
  destruct H as [H|H].
  - replace (Z.to_nat nx) with 0%nat by lia. reflexivity.
  - replace (Z.to_nat ny) with 0%nat by lia. simpl.
    induction (seq 0 (Z.to_nat nx)); [reflexivity | assumption].
Qed.

Theorem build_negative_product (cfg : Config) :
  amountX cfg * amountY cfg < 0 -> Field.build cfg = None.
Proof.
  intros H. unfold Field.build, Float32Array.make.
  destruct (amountX cfg * amountY cfg * 3 <? 0) eqn:E; [reflexivity|].
  apply Z.ltb_ge in E. lia.
Qed.



(** X6.  The DOM grid has no object exactly when [amountX] or [amountY] is
    zero or negative. *)
Theorem css3d_grid_empty (cfg : Config) :
  Css3d.grid cfg = [] <-> amountX cfg <= 0 \/ amountY cfg <= 0.
Proof.
  rewrite grid_map. unfold Css3d.countX, Css3d.countY. split.
  - intros H. apply (f_equal (@length _)) in H.
    rewrite length_map, gridPoints_length in H. simpl in H. nia.
  - intros H. rewrite gridPoints_nil; [reflexivity | lia].
Qed.

(** * [initWebGL] at its edges *)

(** X7.  With a negative number of points the allocation of the buffers
    throws; [initWebGL] catches it and requests the CSS3D library: it returns,
    and leaves the buffers, the renderers, the DOM objects, the recorded
    request, the time cursor, the settings, the frame requests and the
    elements that carry an id as they were.  ([scene] and [camera], which the
    state does not keep, were assigned before the allocation.) *)
Theorem initWebGL_negative_extents (env : Env) (w : World) (cfg : Config)
    (cid : string) :
  config (hero w) = Some cfg -> amountX cfg * amountY cfg < 0 ->
  containerId (hero w) = Some cid -> is_Some (dom (page w) !! cid) ->
  let r := initWebGL env w in
  fst r = Ok tt
  /\ trace (page (snd r)) = FInitCSS3D :: FInitWebGL :: trace (page w)
  /\ pendingScripts (page (snd r)) = pendingScripts (page w) ++ [Css3dJs]
  /\ particles (hero (snd r)) = particles (hero w)
  /\ renderer (hero (snd r)) = renderer (hero w)
  /\ css3dRenderer (hero (snd r)) = css3dRenderer (hero w)
  /\ css3dParticles (hero (snd r)) = css3dParticles (hero w)
  /\ animationId (hero (snd r)) = animationId (hero w)
  /\ count (hero (snd r)) = count (hero w)
  /\ settings (snd r) = settings w
  /\ frameRequests (page (snd r)) = frameRequests (page w)
  /\ dom (page (snd r)) = dom (page w).
Proof.
  intros Hc Hn Hid [e He] r. unfold r, initWebGL, initCSS3D, appendScript, enter, log,
    getElementById, oracleGpu, requireConfig, tryCatch, bind, get, modify, ret, throw.
  cbn [hero page updHero updPage fst snd dom setTrace]. rewrite Hid, He, Hc.
  rewrite (build_negative_product cfg Hn).
  case_decide; cbn; repeat split.
Qed.

Lemma initWebGL_negative_extents_witness :
  pendingScripts (page (snd (initWebGL envAllFine
     (configured (spread Presets.waves negativeExtent) "wavehero-canvas"))))
  = [Css3dJs].
Proof.
  apply (initWebGL_negative_extents envAllFine
           (configured (spread Presets.waves negativeExtent) "wavehero-canvas")
           (spread Presets.waves negativeExtent) "wavehero-canvas");
    [ reflexivity | cbn; lia | reflexivity | eexists; reflexivity ].
Defined.

(** * [createElements] *)

(** X8.  [createElements] returns exactly when [document.body] exists or both
    default elements are already there; it then leaves both in the document,
    keeps every element that was there, adds no other id, and a second call
    changes nothing. *)
Theorem createElements_adds_missing_only (w : World) :
  let r := createElements w in
  (fst r = Ok tt <-> hasBody (page w) = true \/ hasDefaults w)
  /\ (fst r = Ok tt -> hasDefaults (snd r))
  /\ (forall id e, dom (page w) !! id = Some e -> dom (page (snd r)) !! id = Some e)
  /\ (forall id, id <> "wavehero-canvas" -> id <> "wavehero-fallback" ->
        dom (page (snd r)) !! id = dom (page w) !! id)
  /\ (fst r = Ok tt -> createElements (snd r) = (Ok tt, snd r)).
Proof.
  intros r. destruct (createElements_spec w) as (_ & _ & _ & _ & _ & _ & Hd & Hok).
  destruct (createElements_dom w) as (d & Hw & Hkeep & Hother).
  fold r in Hd, Hok, Hw.
  split; [split; [|exact Hok]|].
  - intros Ho. unfold hasDefaults.
    destruct (hasBody (page w)) eqn:Eb; [left; reflexivity | right].
    unfold r, createElements, insertIntoBody, bind, get, modify, ret, throw in Ho.
    cbn [hero page updPage fst snd dom hasBody] in Ho.
    destruct (dom (page w) !! "wavehero-canvas") as [c|] eqn:Ec;
      cbn [hero page updPage fst snd dom hasBody] in Ho; rewrite ?Eb in Ho;
      [|discriminate].
    destruct (dom (page w) !! "wavehero-fallback") as [f|] eqn:Ef;
      cbn [hero page updPage fst snd dom hasBody] in Ho; rewrite ?Eb in Ho;
      [split; eauto | discriminate].
  - split; [exact Hd|]. rewrite Hw. cbn [page updPage setDom dom].
    split; [exact Hkeep|]. split; [exact Hother|].
    intros Ho. destruct (Hd Ho) as [[c Hc] [f Hf]]. rewrite Hw in Hc, Hf.
    cbn [page updPage setDom dom] in Hc, Hf.
    unfold createElements, bind, get, ret. cbn [hero page updPage fst snd dom setDom].
    rewrite Hc. cbn [hero page updPage fst snd dom setDom]. rewrite Hf. reflexivity.
Qed.



(** * The tiers when nothing throws *)



(** X11.  When three.js throws nothing, the configuration has a colour and
    [document.body] exists, [startCSS3D] returns with the capped grid advanced
    by one pass at time 0, its renderer attached, the fallback element (if
    any) hidden, the time cursor at [waveSpeed], and the loop requested once
    under the id it recorded. *)
Theorem startCSS3D_starts_the_dom_tier (env : Env) (w : World) (c : Config) :
  domThrows env = None ->
  config (hero w) = Some c -> is_Some (color c) -> hasBody (page w) = true ->
  let r := startCSS3D env w in
  fst r = Ok tt
  /\ trace (page (snd r))
     = FDomFrame :: FAnimateCSS3D :: FStartCSS3D :: trace (page w)
  /\ css3dParticles (hero (snd r))
     = Css3d.advance (Math_sin env) c 0 (Css3d.grid c)
  /\ css3dRenderer (hero (snd r)) = Some {| attached := true |}
  /\ count (hero (snd r)) = (0 + waveSpeed c)%float
  /\ frameRequests (page (snd r))
     = frameRequests (page w) ++ [(nextFrameId (page w), DomLoop (Some c))]
  /\ animationId (hero (snd r)) = Some (nextFrameId (page w))
  /\ (forall fid, fallbackEl (hero w) = Some fid ->
        hiddenClass <$> dom (page (snd r)) !! fid
        = (fun _ => true) <$> dom (page w) !! fid)
  /\ pendingScripts (page (snd r)) = pendingScripts (page w).
Proof.
  intros Hd Hc [col Hcol] Hb r. subst r.
  destruct (startCSS3D env w) as [res w'] eqn:E. cbn [fst snd]. revert E.
  destruct (fallbackEl (hero w)) as [fid|] eqn:Hf.
  all: unfold startCSS3D, animateCSS3D, domFrame, setupInteraction, hideFallback,
    requestAnimationFrame, enter, log, oracleDom, requireConfig,
    tryCatch, bind, get, modify, ret, throw.
  all: repeat first [ rewrite Hc | rewrite Hcol | rewrite Hd | rewrite Hb
                    | rewrite Hf | progress cbn ].
  all: destruct (Css3d.grid c) as [|p ps] eqn:Hgrid.
  all: repeat (case_decide; [discriminate|]).
  all: repeat first [ rewrite Hc | rewrite Hcol | rewrite Hd | rewrite Hb
                    | rewrite Hf | progress cbn ].
  all: intros [= <- <-]; cbn.
  all: do 7 (split; [reflexivity|]).
  all: split; [|reflexivity].
  all: try (intros ? [=]; fail).
  all: intros ? [= <-]; rewrite lookup_alter_eq;
    destruct (dom (page w) !! fid); reflexivity.
Qed.

Lemma startCSS3D_starts_the_dom_tier_witness :
  length (css3dParticles (hero (snd (startCSS3D envAllFine
            (configured Presets.waves "wavehero-canvas")))))
  = 300%nat.
Proof.
  destruct (startCSS3D_starts_the_dom_tier envAllFine
              (configured Presets.waves "wavehero-canvas") Presets.waves)
    as (_ & _ & H & _);
    [ reflexivity | reflexivity | eexists; reflexivity | reflexivity | ].
  rewrite H. vm_compute. reflexivity.
Defined.

(** X12.  A configuration without a colour cannot run the DOM tier:
    [startCSS3D] catches the TypeError and goes to the static fallback,
    leaving the DOM objects, the renderers, the buffers, the recorded request,
    the time cursor, the settings, the elements that carry an id and the frame
    requests as they were.  ([scene] and [camera], which the state does not
    keep, were assigned before the colour is read.) *)
Theorem startCSS3D_without_color (env : Env) (w : World) (c : Config) :
  config (hero w) = Some c -> color c = None ->
  let r := startCSS3D env w in
  fst r = Ok tt
  /\ trace (page (snd r)) = FShowFallback :: FStartCSS3D :: trace (page w)
  /\ css3dParticles (hero (snd r)) = css3dParticles (hero w)
  /\ css3dRenderer (hero (snd r)) = css3dRenderer (hero w)
  /\ particles (hero (snd r)) = particles (hero w)
  /\ renderer (hero (snd r)) = renderer (hero w)
  /\ animationId (hero (snd r)) = animationId (hero w)
  /\ count (hero (snd r)) = count (hero w)
  /\ settings (snd r) = settings w
  /\ dom (page (snd r)) = dom (page w)
  /\ frameRequests (page (snd r)) = frameRequests (page w)
  /\ pendingScripts (page (snd r)) = pendingScripts (page w).
Proof.
  intros Hc Hcol r. subst r.
  unfold startCSS3D, showFallback, enter, log, oracleDom, requireConfig,
    tryCatch, bind, get, modify, ret, throw.
  cbn [hero page updHero updPage fst snd]. rewrite Hc, Hcol.
  case_decide; cbn; repeat split.
Qed.

Lemma startCSS3D_without_color_witness :
  trace (page (snd (startCSS3D envAllFine
                      (configured Presets.noFields "wavehero-canvas"))))
  = [FShowFallback; FStartCSS3D].
Proof.
  apply (startCSS3D_without_color envAllFine
           (configured Presets.noFields "wavehero-canvas") Presets.noFields);
    reflexivity.
Defined.

(** * A first frame that throws *)



(** * The element references of [init] *)

(** X14.  An [init] that ran and returned leaves [initialized] set and the
    container id at [options.container] or "wavehero-canvas"; the fallback
    element is the one named by [options.fallbackId] or "wavehero-fallback"
    when that is a default id or was in the document, and null otherwise. *)
Theorem init_sets_references (env : Env) (a : Arg) (o : Options) (w : World) :
  initialized (hero w) = false -> optionsOf a = Some o ->
  fst (init env a w) = Ok tt ->
  let w' := snd (init env a w) in
  let fid := strOr (fallbackId o) "wavehero-fallback" in
  initialized (hero w') = true
  /\ containerId (hero w') = Some (strOr (container o) "wavehero-canvas")
  /\ (fid = "wavehero-canvas" \/ fid = "wavehero-fallback"
      \/ is_Some (dom (page w) !! fid) ->
      fallbackEl (hero w') = Some fid)
  /\ (fid <> "wavehero-canvas" -> fid <> "wavehero-fallback" ->
      dom (page w) !! fid = None ->
      fallbackEl (hero w') = None).
Proof.
  intros Hi Ho Hok w' fid. subst w'.
  rewrite (init_unfold env a o w Hi Ho) in *.
  destruct (createElements_spec (initStart o w)) as (_ & _ & _ & _ & _ & _ & Hd & _).
  destruct (createElements_dom (initStart o w)) as (d & Hw & Hkeep & Hother).
  destruct (createElements (initStart o w)) as [[[]|e] w2]; cbn [fst snd] in *;
    [|discriminate].
  specialize (Hd eq_refl). subst w2.
  pose proof (loadThreeJS_settings env (initReady o (updPage (setDom d) (initStart o w))))
    as S.
  unfold keeps, settings in S. injection S as _ S1 S2 S3 _ _.
  rewrite S1, S2, S3. cbn. fold fid.
  clearbody fid. destruct Hd as [[c Hc] [f Hf]].
  cbn [page updPage setDom dom] in Hc, Hf.
  split; [reflexivity|]. split; [reflexivity|]. split.
  - intros [-> | [-> | [e He]]].
    + rewrite Hc. reflexivity.
    + rewrite Hf. reflexivity.
    + rewrite (Hkeep fid e He). reflexivity.
  - intros Hnc Hnf Hn. rewrite (Hother fid Hnc Hnf). cbn. rewrite Hn. reflexivity.
Qed.

Lemma init_sets_references_witness :
  fallbackEl (hero (snd (init envAllFine
     (ArgObject {| preset := None; container := None;
                   fallbackId := Some "no-such-element";
                   optColor := None; custom := None |})
     (freshWorld "/" true false ∅))))
  = None.
Proof.
  apply (init_sets_references envAllFine
     (ArgObject {| preset := None; container := None;
                   fallbackId := Some "no-such-element";
                   optColor := None; custom := None |})
     {| preset := None; container := None;
        fallbackId := Some "no-such-element";
        optColor := None; custom := None |}
     (freshWorld "/" true false ∅));
    first [ reflexivity | discriminate ].
Defined.

(** * The render loops in a frame *)

(** X15.  A display frame never throws and never ends a loop: every callback
    that was requested has requested itself again, once and in the same order,
    under fresh consecutive ids, also when it threw. *)
Theorem frame_keeps_every_loop (env : Env) (w : World) :
  let r := frame env w in
  fst r = Ok tt
  /\ map snd (frameRequests (page (snd r))) = map snd (frameRequests (page w))
  /\ map fst (frameRequests (page (snd r)))
     = seq (nextFrameId (page w)) (length (frameRequests (page w))).
Proof.
  destruct (frame_requests env w) as (H1 & H2 & _).
  cbv zeta. split; [exact H1|]. rewrite H2.
  split.
  - rewrite snd_zip; [reflexivity|]. rewrite length_seq, length_map. lia.
  - rewrite fst_zip; [reflexivity|]. rewrite length_seq, length_map. lia.
Qed.

(** X16.  A loop callback records the id of its new request in [animationId];
    when it returns the time cursor has advanced by the [waveSpeed] of the
    configuration the loop captured, and when it throws the cursor is
    unchanged. *)
Theorem loop_advances_cursor (env : Env) (r : nat * Callback) (w : World) :
  let res := runCallback env r w in
  animationId (hero (snd res)) = Some (nextFrameId (page w))
  /\ (fst res = Ok tt ->
      exists c, callbackConfig (snd r) = Some c
        /\ count (hero (snd res)) = (count (hero w) + waveSpeed c)%float)
  /\ (fst res <> Ok tt -> count (hero (snd res)) = count (hero w)).
Proof.
  destruct (runCallback_looped env r w) as [_ _ Ha _ _ _ Hok Hthrow _].
  split; [exact Ha|]. split; assumption.
Qed.

(** * [destroy] *)

Lemma filter_twice {A} (P : A -> Prop) `{!forall x, Decision (P x)} (l : list A) :
  filter P (filter P l) = filter P l.
Proof.
  induction l as [|a l IH]; [reflexivity|].
  rewrite filter_cons. case_decide as Ha.
  - rewrite filter_cons. case_decide; [|contradiction]. f_equal. exact IH.
  - exact IH.
Qed.

Lemma filter_none {A} (P : A -> Prop) `{!forall x, Decision (P x)} (l : list A) :
  Forall (fun a => ~ P a) l -> filter P l = [].
Proof.
  induction 1 as [|a l Ha _ IH]; [reflexivity|].
  rewrite filter_cons. case_decide; [contradiction | exact IH].
Qed.

Lemma destroy_destroyed w : destroy w = (Ok tt, destroyed w).
Proof.
  destruct w as [[cf rd pt cr cp ai ini ci fe cn] [pa bo th d sc fr nx co tr]].
  unfold destroy, destroyed, enter, cancelAnimationFrame, bind, get, modify, ret.
  cbn [hero page updHero updPage fst snd animationId renderer css3dRenderer].
  destruct ai as [[|id]|], rd as [r|], cr as [c|]; reflexivity.
Qed.

(** X17.  [destroy] never throws, clears [initialized], marks the WebGL
    renderer (if any) disposed, takes the element of the CSS3D renderer (if
    any) out of the document, and leaves the configuration, the DOM objects,
    the elements that carry an id and the pending loads alone; a second call
    in a row changes nothing, and on a controller that was never initialized
    the first changes nothing (the trace of calls apart). *)
Theorem destroy_is_safe (w : World) :
  let w1 := snd (destroy w) in
  fst (destroy w) = Ok tt
  /\ initialized (hero w1) = false
  /\ config (hero w1) = config (hero w)
  /\ renderer (hero w1)
     = (fun r => {| canvas := canvas r; disposed := true |}) <$> renderer (hero w)
  /\ css3dRenderer (hero w1)
     = (fun _ => {| attached := false |}) <$> css3dRenderer (hero w)
  /\ css3dParticles (hero w1) = css3dParticles (hero w)
  /\ dom (page w1) = dom (page w)
  /\ pendingScripts (page w1) = pendingScripts (page w)
  /\ destroy w1
     = (Ok tt, updPage (fun p => setTrace (FDestroy :: trace p) p) w1)
  /\ (animationId (hero w) = None -> renderer (hero w) = None ->
      css3dRenderer (hero w) = None -> initialized (hero w) = false ->
      w1 = updPage (fun p => setTrace (FDestroy :: trace p) p) w).
Proof.
  rewrite !destroy_destroyed. cbn [fst snd].
  destruct w as [[cf rd pt cr cp ai ini ci fe cn] [pa bo th d sc fr nx co tr]].
  repeat split.
  - rewrite destroy_destroyed. unfold destroyed, updPage.
    cbn [hero page animationId renderer css3dRenderer setInitialized setCss3dRenderer
         setRenderer setFrameRequests setTrace frameRequests trace canvas].
    destruct ai as [[|id]|], rd as [r|], cr as [c|]; cbn;
      rewrite ?filter_twice; reflexivity.
  - cbn. intros -> -> -> ->. reflexivity.
Qed.

Lemma frame_idle env w :
  frameRequests (page w) = [] ->
  frame env w = (Ok tt, w).
Proof.
  intros H. unfold frame, bind, get, modify. cbn [fst snd]. rewrite H.
  cbn [forEach]. unfold ret. f_equal.
  destruct w as [h [pa bo th d sc fr nx co tr]]. cbn in H. subst fr. reflexivity.
Qed.

Lemma frames_idle envs w :
  frameRequests (page w) = [] -> run (framesOnly envs) w = w.
Proof.
  intros H. induction envs as [|env envs IH]; [reflexivity|].
  cbn [framesOnly map run fold_left step fst snd].
  rewrite (frame_idle env w H). exact IH.
Qed.

(** X18.  When every pending frame request carries the (non-zero) id recorded
    in [animationId], no request is pending after [destroy], and any number of
    display frames after it change nothing. *)
Theorem destroy_stops_the_recorded_loop (w : World) (id : nat) (envs : list Env) :
  animationId (hero w) = Some id -> id <> 0%nat ->
  Forall (fun r => fst r = id) (frameRequests (page w)) ->
  let w1 := snd (destroy w) in
  frameRequests (page w1) = []
  /\ run (framesOnly envs) w1 = w1.
Proof.
  intros Ha Hid Hall w1.
  assert (H : frameRequests (page w1) = []).
  { unfold w1. rewrite destroy_destroyed. unfold destroyed.
    cbn [snd page setFrameRequests frameRequests]. rewrite Ha.
    destruct id as [|id]; [congruence|].
    apply filter_none. eapply Forall_impl; [exact Hall|].
    intros r Hr Hne. apply Hne, Hr. }
  split; [exact H | apply frames_idle, H].
Qed.

Lemma destroy_stops_the_recorded_loop_witness :
  run (framesOnly [envAllFine; envAllFine]) (snd (destroy gpuRunning))
  = snd (destroy gpuRunning).
Proof.
  apply (destroy_stops_the_recorded_loop gpuRunning 3 [envAllFine; envAllFine]);
    [ vm_compute; reflexivity | discriminate
    | vm_compute; repeat constructor ].
Defined.

(** * The DOM tier's objects *)

(** X19.  One pass of the DOM tier's update, applied to the objects that a
    pass at the same time cursor produced, leaves them as they are, and a pass
    keeps the number of objects. *)
Theorem css3d_advance_idempotent (sin : float -> float) (cfg : Config) (t : float)
    (ps : list Css3d.Particle) :
  Css3d.advance sin cfg t (Css3d.advance sin cfg t ps) = Css3d.advance sin cfg t ps
  /\ length (Css3d.advance sin cfg t ps) = length ps.
Proof.
  unfold Css3d.advance. split; [|apply length_map].
  rewrite map_map. apply map_ext. intros p. reflexivity.
Qed.

Lemma advance_layout sin cfg t ps :
  map (fun p => (Css3d.x p, Css3d.z p, Css3d.ix p, Css3d.iy p))
      (Css3d.advance sin cfg t ps)
  = map (fun p => (Css3d.x p, Css3d.z p, Css3d.ix p, Css3d.iy p)) ps.
Proof. unfold Css3d.advance. rewrite map_map. reflexivity. Qed.

Lemma domFrame_layout env cfg w : domLayout (snd (domFrame env cfg w)) = domLayout w.
Proof.
  unfold domFrame, enter, requestAnimationFrame, requireConfig, oracleDom,
    bind, get, modify, ret, throw, domLayout.
  cbn [hero page updHero updPage fst snd].
  destruct cfg as [c|]; [|reflexivity].
  cbn [hero page updHero updPage fst snd setAnimationId setCss3dParticles css3dRenderer].
  destruct (css3dRenderer (hero w)) as [rd|]; [case_decide|]; cbn;
    apply advance_layout.
Qed.

Lemma gpuFrame_layout env cfg w : domLayout (snd (gpuFrame env cfg w)) = domLayout w.
Proof.
  unfold gpuFrame, enter, requestAnimationFrame, requireConfig, oracleGpu,
    bind, get, modify, ret, throw, domLayout.
  cbn [hero page updHero updPage fst snd].
  destruct cfg as [c|]; [|reflexivity].
  cbn [hero page updHero updPage fst snd setAnimationId particles renderer].
  destruct (particles (hero w)) as [b|]; [|reflexivity].
  cbn [hero page updHero updPage fst snd setAnimationId setParticles particles renderer].
  destruct (renderer (hero w)) as [rd|]; [case_decide|]; reflexivity.
Qed.

Lemma runRequest_layout env r w :
  domLayout (snd (runRequest env r w)) = domLayout w.
Proof.
  assert (H : domLayout (snd (runCallback env r w)) = domLayout w).
  { unfold runCallback. destruct (snd r); [apply gpuFrame_layout | apply domFrame_layout]. }
  unfold runRequest, tryCatch, log, modify.
  destruct (runCallback env r w) as [[[]|e] w']; exact H.
Qed.

Lemma forEach_layout env (l : list (nat * Callback)) w :
  domLayout (snd (forEach l (runRequest env) w)) = domLayout w.
Proof.
  revert w. induction l as [|a l IH]; intros w; cbn [forEach]; [reflexivity|].
  unfold bind. pose proof (runRequest_layout env a w) as H.
  destruct (runRequest env a w) as [[[]|e] w1]; cbn [fst snd] in *;
    [rewrite IH|]; exact H.
Qed.

Lemma frame_layout env w : domLayout (snd (frame env w)) = domLayout w.
Proof.
  unfold frame, bind, get, modify. cbn [fst snd].
  change (forEach (frameRequests (page w))
            (fun r => tryCatch (runCallback env r) (fun e => log ("Uncaught " +:+ e))))
    with (forEach (frameRequests (page w)) (runRequest env)).
  rewrite forEach_layout. reflexivity.
Qed.

(** X20.  Over any number of display frames the DOM objects keep their number,
    their x and z and their grid indices (a frame writes their y and the
    opacity of their elements only), the elements that carry an id keep their
    display and their class [hidden], and the pending loads stay as they are. *)
Theorem frames_keep_dom_layout (envs : list Env) (w : World) :
  let w' := run (framesOnly envs) w in
  domLayout w' = domLayout w
  /\ length (css3dParticles (hero w')) = length (css3dParticles (hero w))
  /\ (forall id, dom (page w') !! id = dom (page w) !! id)
  /\ pendingScripts (page w') = pendingScripts (page w).
Proof.
  revert w. induction envs as [|env envs IH]; intros w; [repeat split|].
  cbn [framesOnly map run fold_left step fst snd].
  destruct (IH (snd (frame env w))) as (H1 & H2 & H3 & H4).
  unfold framesOnly, run in H1, H2, H3, H4. cbv zeta in H1, H2, H3, H4.
  pose proof (frame_layout env w) as L.
  pose proof (frame_frameView env w) as V. unfold keeps, frameView in V.
  injection V as _ Hs _ _ Hd.
  rewrite H1, H2, H4, L.
  split; [reflexivity|]. split; [|split; [|assumption]].
  - apply (f_equal (@length _)) in L. unfold domLayout in L.
    rewrite !length_map in L. exact L.
  - intros id. rewrite H3. f_equal. assumption.
Qed.

(** * What stays fixed between [init] and [destroy] *)

(** X21.  Script loads and display frames never change the configuration, the
    [initialized] flag, the container id or the fallback element: only [init]
    and [destroy] write them. *)
Theorem browser_events_keep_settings (evs : list (Env * Event)) (w : World) :
  browserOnly evs ->
  let w' := run evs w in
  config (hero w') = config (hero w)
  /\ initialized (hero w') = initialized (hero w)
  /\ containerId (hero w') = containerId (hero w)
  /\ fallbackEl (hero w') = fallbackEl (hero w).
Proof.
  intros H. revert w. induction H as [|[env ev] evs Hev _ IH]; intros w; [repeat split|].
  cbn [run fold_left fst snd].
  assert (S : settings (snd (step env ev w)) = settings w).
  { destruct ev; cbn [snd] in Hev; try contradiction; cbn [step].
    - apply (scriptSettles_settings env k ok w).
    - apply (frame_settings env w). }
  destruct (IH (snd (step env ev w))) as (H1 & H2 & H3 & H4).
  unfold run in H1, H2, H3, H4. cbv zeta in H1, H2, H3, H4.
  unfold settings in S. injection S as S1 S2 S3 S4 _ _.
  rewrite H1, H2, H3, H4. repeat split; assumption.
Qed.

Lemma browser_events_keep_settings_witness :
  let evs := [ (envNoContext, ScriptSettles 0 true); (envAllFine, Frame);
               (envAllFine, ScriptSettles 0 true); (envAllFine, Frame) ] in
  let w := snd (init envAllFine ArgUndefined (freshWorld "/blog/" true false ∅)) in
  config (hero (run evs w)) = Some Presets.nebula.
Proof.
  intros evs w.
  destruct (browser_events_keep_settings evs w) as (H & _).
  - repeat constructor.
  - rewrite H. reflexivity.
Defined.

(** * What the pipeline hides *)

Create HintDb quiet discriminated.

Ltac quiet_done :=
  match goal with
  | |- quiet _ _ =>
      split; [reflexivity | intros ? ? ? ?; right; eexists; split; eassumption]
  end.

Ltac keeps_quiet := repeat steps_step; try quiet_done; auto with quiet.

Lemma enter_quiet f : steps quiet (enter f).
Proof. unfold enter. keeps_quiet. Qed.

Lemma log_quiet s : steps quiet (log s).
Proof. unfold log. keeps_quiet. Qed.

Lemma appendScript_quiet s : steps quiet (appendScript s).
Proof. unfold appendScript. keeps_quiet. Qed.

Lemma requestAnimationFrame_quiet cb : steps quiet (requestAnimationFrame cb).
Proof. unfold requestAnimationFrame. keeps_quiet. Qed.

Lemma getElementById_quiet id : steps quiet (getElementById id).
Proof. unfold getElementById. keeps_quiet. Qed.

Lemma insertIntoBody_quiet id : steps quiet (insertIntoBody id).
Proof.
  unfold insertIntoBody. repeat steps_step.
  split; [reflexivity|]. intros i e' H1 H2. right.
  cbn [page updPage dom setDom] in H1.
  destruct (decide (id = i)) as [->|Hne].
  - rewrite lookup_insert_eq in H1. injection H1 as <-. discriminate.
  - rewrite lookup_insert_ne in H1 by exact Hne. eauto.
Qed.

#[export] Hint Resolve enter_quiet log_quiet appendScript_quiet
  requestAnimationFrame_quiet getElementById_quiet insertIntoBody_quiet : quiet.

Lemma createElements_quiet : steps quiet createElements.
Proof. unfold createElements. keeps_quiet. Qed.

Lemma showFallback_quiet s : steps quiet (showFallback s).
Proof. unfold showFallback. keeps_quiet. Qed.

Lemma hideFallback_quiet : steps quiet hideFallback.
Proof.
  intros w. unfold hideFallback, bind, get, modify, ret. cbn [fst snd].
  destruct (fallbackEl (hero w)) as [fid|] eqn:Hf; cbn [fst snd]; [|reflexivity].
  split; [reflexivity|]. intros i e' H1 H2.
  cbn [page updPage dom setDom] in H1.
  destruct (decide (fid = i)) as [->|Hne]; [left; exact Hf | right].
  rewrite lookup_alter_ne in H1 by exact Hne. eauto.
Qed.

Lemma showCanvas_quiet cid w :
  quiet w
    (updPage (fun p =>
       setDom (alter (fun e => {| displayBlock := true;
                                  hiddenClass := hiddenClass e |}) cid (dom p)) p) w).
Proof.
  split; [reflexivity|]. intros i e' H1 H2. right.
  cbn [page updPage dom setDom] in H1.
  destruct (decide (cid = i)) as [->|Hne].
  - rewrite lookup_alter_eq in H1.
    destruct (dom (page w) !! i) as [e|]; [|discriminate].
    injection H1 as <-. eauto.
  - rewrite lookup_alter_ne in H1 by exact Hne. eauto.
Qed.

#[export] Hint Resolve createElements_quiet showFallback_quiet hideFallback_quiet
  showCanvas_quiet : quiet.

Lemma gpuFrame_quiet env c : steps quiet (gpuFrame env c).
Proof. unfold gpuFrame, requireConfig, oracleGpu. keeps_quiet. Qed.

Lemma domFrame_quiet env c : steps quiet (domFrame env c).
Proof. unfold domFrame, requireConfig, oracleDom. keeps_quiet. Qed.

#[export] Hint Resolve gpuFrame_quiet domFrame_quiet : quiet.

Lemma startCSS3D_quiet env : steps quiet (startCSS3D env).
Proof.
  unfold startCSS3D, animateCSS3D, setupInteraction, requireConfig, oracleDom.
  keeps_quiet.
Qed.

Lemma initCSS3D_quiet : steps quiet initCSS3D.
Proof. unfold initCSS3D. keeps_quiet. Qed.

#[export] Hint Resolve startCSS3D_quiet initCSS3D_quiet : quiet.

Lemma initWebGL_quiet env : steps quiet (initWebGL env).
Proof.
  unfold initWebGL, animate, setupInteraction, requireConfig, oracleGpu.
  keeps_quiet.
Qed.

#[export] Hint Resolve initWebGL_quiet : quiet.

Lemma onThreeLoaded_quiet env : steps quiet (onThreeLoaded env).
Proof. unfold onThreeLoaded. keeps_quiet. Qed.

#[export] Hint Resolve onThreeLoaded_quiet : quiet.

Lemma scriptSettles_quiet env k ok : steps quiet (scriptSettles env k ok).
Proof. unfold scriptSettles. keeps_quiet. Qed.

Lemma frame_quiet env : steps quiet (frame env).
Proof. unfold frame, runCallback. keeps_quiet. Qed.

(** X22.  Across script loads and display frames the pipeline gives the class
    [hidden] to no element other than the fallback element [init] resolved: an
    element that has the class afterwards is that one, or had the class
    before. *)
Theorem only_the_fallback_is_hidden (evs : list (Env * Event)) (w : World) :
  browserOnly evs ->
  forall id e', dom (page (run evs w)) !! id = Some e' -> hiddenClass e' = true ->
    fallbackEl (hero w) = Some id
    \/ exists e, dom (page w) !! id = Some e /\ hiddenClass e = true.
Proof.
  intros H. change (hidesOnly w (run evs w)).
  assert (Q : quiet w (run evs w)); [|exact (proj2 Q)].
  revert w. induction H as [|[env ev] evs Hev _ IH]; intros w; [reflexivity|].
  cbn [run fold_left fst snd]. etransitivity; [|apply IH].
  destruct ev; cbn [snd] in Hev; try contradiction; cbn [step].
  - apply scriptSettles_quiet.
  - apply frame_quiet.
Qed.

Lemma only_the_fallback_is_hidden_witness :
  let evs := [ (envAllFine, ScriptSettles 0 true); (envAllFine, Frame) ] in
  let w := snd (init envAllFine ArgUndefined (freshWorld "/" true false ∅)) in
  fallbackEl (hero w) = Some "wavehero-fallback"
  \/ exists e, dom (page w) !! "wavehero-fallback" = Some e /\ hiddenClass e = true.
Proof.
  apply (only_the_fallback_is_hidden
           [ (envAllFine, ScriptSettles 0 true); (envAllFine, Frame) ]
           (snd (init envAllFine ArgUndefined (freshWorld "/" true false ∅)))
           ltac:(repeat constructor)
           "wavehero-fallback" {| displayBlock := false; hiddenClass := true |});
    vm_compute; reflexivity.
Defined.

(** * The wave update in closed form *)

(** X23.  After one pass of the wave update, the y of the point in column [ix]
    and row [iy] and its scale are the source's closed forms in [ix], [iy] and
    the time cursor (as 32-bit floats), whatever the buffers held before. *)
Theorem advance_closed_form (sin : float -> float) (cfg : Config) (t : float)
    (b : list float * list float) (ix iy : nat) :
  Z.of_nat ix < amountX cfg -> Z.of_nat iy < amountY cfg ->
  let k := (ix * Z.to_nat (amountY cfg) + iy)%nat in
  (3 * k + 1 < length (fst b))%nat -> (k < length (snd b))%nat ->
  fst (Wave.advance sin cfg t b) !! (3 * k + 1)%nat
  = Some (Num.fround
            (sin ((Num.ofZ (Z.of_nat ix) + t) * 0.3) * waveHeight cfg
             + sin ((Num.ofZ (Z.of_nat iy) + t) * 0.5) * waveHeight cfg)%float)
  /\ snd (Wave.advance sin cfg t b) !! k
     = Some (Num.fround
               ((sin ((Num.ofZ (Z.of_nat ix) + t) * 0.3) + 1) * 8
                + (sin ((Num.ofZ (Z.of_nat iy) + t) * 0.5) + 1) * 8)%float).
Proof.
  intros Hx Hy k Hp Hs.
  destruct (advance_point sin cfg t b ix iy Hx Hy) as [H1 H2].
  split; [apply H1, Hp | apply H2, Hs].
Qed.

Lemma advance_closed_form_witness :
  snd (Wave.advance (fun x => x) smallField 0.5
         ([-10; 0; -10; -10; 0; 0; 0; 0; -10; 0; 0; 0]%float, [1; 1; 1; 1]%float))
    !! 3%nat
  = Some (Num.fround (((Num.ofZ 1 + 0.5) * 0.3 + 1) * 8
                      + ((Num.ofZ 1 + 0.5) * 0.5 + 1) * 8)%float).
Proof.
  apply (advance_closed_form (fun x => x) smallField 0.5
           ([-10; 0; -10; -10; 0; 0; 0; 0; -10; 0; 0; 0]%float, [1; 1; 1; 1]%float)
           1 1); cbn; lia.
Defined.

(** * A library that fails to load *)

(** X24.  When a library fails to load, the error handler only logs the static
    fallback: it returns, and the controller, the document and the frame
    requests are as they were. *)
Theorem script_error_falls_to_static (env : Env) (w : World) (k : nat) (s : Script) :
  pendingScripts (page w) !! k = Some s ->
  let r := scriptSettles env k false w in
  fst r = Ok tt
  /\ trace (page (snd r)) = FShowFallback :: trace (page w)
  /\ pendingScripts (page (snd r)) = delete k (pendingScripts (page w))
  /\ hero (snd r) = hero w
  /\ dom (page (snd r)) = dom (page w)
  /\ frameRequests (page (snd r)) = frameRequests (page w)
  /\ console (page (snd r))
     = console (page w)
       ++ [match s with
           | ThreeJs => "WaveHero: Three.js failed to load, using CSS fallback"
           | Css3dJs => "WaveHero: CSS3D failed to load, using CSS fallback"
           end].
Proof.
  intros Hk r. subst r.
  unfold scriptSettles, showFallback, enter, log, bind, get, modify, ret.
  cbn [hero page updHero updPage fst snd]. rewrite Hk.
  destruct s; cbn; repeat split.
Qed.

Lemma script_error_falls_to_static_witness :
  trace (page (snd (scriptSettles envAllFine 0 false
                      (snd (init envAllFine ArgUndefined
                              (freshWorld "/" true false ∅))))))
  = [FShowFallback; FLoadThreeJS; FInit].
Proof.
  destruct (script_error_falls_to_static envAllFine
              (snd (init envAllFine ArgUndefined (freshWorld "/" true false ∅)))
              0 ThreeJs) as (_ & H & _); [reflexivity|].
  rewrite H. reflexivity.
Defined.

(** * The pixel ratio *)

Lemma ltb_leb (x y : float) : (x <? y)%float = true -> (x <=? y)%float = true.
Proof.
  rewrite ltb_spec, leb_spec. unfold SFltb, SFleb.
  destruct (SFcompare (Prim2SF x) (Prim2SF y)) as [[]|]; congruence.
Qed.

(** X25.  [getPixelRatio] is never NaN and never above 3; it is 1 when
    [devicePixelRatio] is undefined, 0 or NaN, and the device's ratio when
    that is truthy and below 3. *)
Theorem getPixelRatio_capped (dpr : option float) :
  is_nan (getPixelRatio dpr) = false
  /\ (getPixelRatio dpr <=? 3)%float = true
  /\ (match dpr with Some d => Num.truthy d = false | None => True end ->
      getPixelRatio dpr = 1%float)
  /\ (forall d, dpr = Some d -> Num.truthy d = true -> (d <? 3)%float = true ->
      getPixelRatio dpr = d).
Proof.
  unfold getPixelRatio.
  assert (H1 : Math.min 1 3 = 1%float) by reflexivity.
  destruct dpr as [d|]; [destruct (Num.truthy d) eqn:T|]; cbv zeta;
    try (rewrite H1; repeat split; intros; try reflexivity; congruence).
  pose proof T as T'.
  unfold Num.truthy in T. apply negb_true_iff, orb_false_iff in T as [Tz Tn].
  unfold Math.min. rewrite Tn. change (is_nan 3) with false. cbn [orb].
  rewrite Tz. cbn [andb].
  destruct (d <? 3)%float eqn:L.
  - split; [exact Tn|]. split; [apply ltb_leb, L|]. split; [congruence|].
    intros d' [= <-] _ _. reflexivity.
  - assert (R : (if (3 <? d)%float then 3%float else 3%float) = 3%float)
      by (destruct (3 <? d)%float; reflexivity).
    rewrite R. split; [reflexivity|]. split; [reflexivity|]. split; [congruence|].
    intros d' [= <-] _ L'. congruence.
Qed.

Lemma tagArg_not_null t a : tagArg t = Some a -> a <> ArgNull.
Proof.
  unfold tagArg. destruct (dataAuto t); [intros [= <-]; discriminate|].
  destruct (dataPreset t) as [[|c p]|]; try discriminate.
  intros [= <-]. discriminate.
Qed.

Lemma omap_cons_match {A B} (f : A -> option B) (a : A) (l : list A) :
  omap f (a :: l) = match f a with Some b => b :: omap f l | None => omap f l end.
Proof. reflexivity. Qed.

Lemma forEach_tags_initialized env (l : list ScriptTag) w :
  initialized (hero w) = true ->
  exists w', forEach l (tagStep env) w = (Ok tt, w')
    /\ pipelineView w' = pipelineView w
    /\ console (page w')
       = console (page w)
         ++ replicate (length (omap tagArg l)) "WaveHero: Already initialized".
Proof.
  revert w. induction l as [|t l IH]; intros w Hi; cbn [forEach].
  - exists w. unfold ret. cbn. rewrite app_nil_r. repeat split.
  - unfold bind, tagStep at 1. rewrite omap_cons_match.
    destruct (tagArg t) as [a|].
    + rewrite (init_initialized_noop env a w Hi).
      set (w1 := updPage _ (updPage _ w)).
      destruct (IH w1 Hi) as (w' & H1 & H2 & H3). exists w'.
      split; [exact H1|]. split; [exact H2|].
      rewrite H3. cbn. rewrite <- app_assoc. reflexivity.
    + unfold ret. apply (IH w Hi).
Qed.

Lemma forEach_tags_first env (l : list ScriptTag) (a : Arg) (rest : list Arg) w :
  omap tagArg l = a :: rest ->
  initialized (hero w) = false ->
  hasBody (page w) = true \/ hasDefaults w ->
  exists w', forEach l (tagStep env) w = (Ok tt, w')
    /\ pipelineView w' = pipelineView (snd (init env a w))
    /\ console (page w')
       = console (page (snd (init env a w)))
         ++ replicate (length rest) "WaveHero: Already initialized".
Proof.
  revert w. induction l as [|t l IH]; intros w Hl Hi Hb; [discriminate|].
  cbn [forEach]. unfold bind, tagStep at 1. rewrite omap_cons_match in Hl.
  destruct (tagArg t) as [a'|] eqn:Ht.
  - injection Hl as -> Hl.
    pose proof (init_returns env a w (tagArg_not_null t a Ht) Hb) as Hok.
    pose proof (init_ok_initialized env a w Hok) as Hi1.
    destruct (init env a w) as [[[]|e] w1]; cbn [fst snd] in *; [|discriminate].
    rewrite <- Hl. apply (forEach_tags_initialized env l w1 Hi1).
  - unfold ret. apply (IH w Hl Hi Hb).
Qed.

(** X26.  When several selected script tags carry [data-auto] or a non-empty
    [data-preset], [autoInit] initializes with the first of them: it returns,
    each later one only logs "Already initialized", and the controller, the
    document, the pending loads and the frame requests are those of the first
    [init]. *)
Theorem autoInit_first_tag_wins (env : Env) (scripts : list ScriptTag)
    (a : Arg) (rest : list Arg) (w : World) :
  omap tagArg (filter (fun t => selected t = true) scripts) = a :: rest ->
  initialized (hero w) = false ->
  hasBody (page w) = true \/ hasDefaults w ->
  let r := autoInit env scripts w in
  let w1 := snd (init env a w) in
  fst r = Ok tt
  /\ hero (snd r) = hero w1
  /\ dom (page (snd r)) = dom (page w1)
  /\ pendingScripts (page (snd r)) = pendingScripts (page w1)
  /\ frameRequests (page (snd r)) = frameRequests (page w1)
  /\ console (page (snd r))
     = console (page w1) ++ replicate (length rest) "WaveHero: Already initialized".
Proof.
  intros Hl Hi Hb r w1.
  destruct (forEach_tags_first env _ a rest w Hl Hi Hb) as (w' & H1 & H2 & H3).
  unfold r, autoInit. fold (tagStep env). rewrite H1. cbn [fst snd].
  unfold pipelineView in H2. injection H2 as E1 E2 E3 E4 _ _.
  repeat split; assumption.
Qed.

Lemma autoInit_first_tag_wins_witness :
  config (hero (snd (autoInit envAllFine [tagOther; tagAuto; tagQuantum]
                       (freshWorld "/about/" true false ∅))))
  = Some Presets.particles.
Proof.
  destruct (autoInit_first_tag_wins envAllFine [tagOther; tagAuto; tagQuantum]
              ArgUndefined
              [ArgObject {| preset := Some "quantum"; container := None;
                            fallbackId := None; optColor := Some 0xd4a543%float;
                            custom := None |}]
              (freshWorld "/about/" true false ∅))
    as (_ & H & _); [ reflexivity | reflexivity | left; reflexivity |].
  rewrite H. reflexivity.
Defined.

(** X27.  When no selected script tag has [data-auto] or a non-empty [data-
    preset], [autoInit] does nothing. *)
Theorem autoInit_without_trigger (env : Env) (scripts : list ScriptTag) (w : World) :
  Forall (fun t => selected t = true -> dataAuto t = false
                   /\ (dataPreset t = None \/ dataPreset t = Some "")) scripts ->
  autoInit env scripts w = (Ok tt, w).
Proof.
  intros H. unfold autoInit.
  induction H as [|t l Ht _ IH]; [reflexivity|].
  rewrite filter_cons. case_decide as Hs; [|exact IH].
  cbn [forEach]. destruct (Ht Hs) as [Ha Hp].
  unfold bind, tagArg. rewrite Ha.
  destruct Hp as [-> | ->]; unfold ret; exact IH.
Qed.

Lemma autoInit_without_trigger_witness :
  autoInit envAllFine
    [ tagOther;
      {| scriptSrc := Some "/js/wave-hero.js"; dataAuto := false;
         dataPreset := Some ""; dataColor := Some "22d3ee" |} ]
    (freshWorld "/" true true ∅)
  = (Ok tt, freshWorld "/" true true ∅).
Proof.
  apply autoInit_without_trigger.
  constructor; [intros H; discriminate H|].
  constructor; [intros _; split; [reflexivity | right; reflexivity] | constructor].
Defined.

(** ** The attribute [data-color] *)

Lemma digits_read s a : is_Some (ParseInt.digits s (Some a)).
Proof.
  revert a. induction s as [|c r IH]; intros a; cbn [ParseInt.digits]; [eauto|].
  destruct (ParseInt.hexDigit c); [apply IH | eauto].
Qed.

Lemma parse_digits (o : option Z) :
  is_Some o ->
  match o with
  | None => nan
  | Some 0 => 0%float
  | Some n => Num.ofZ n
  end = Num.ofZ (default 0 o).
Proof. intros [n ->]. destruct n; reflexivity. Qed.

Lemma parseInt16_hex (s : string) :
  allHex s = true -> s <> "" ->
  ParseInt.parseInt16 s = Num.ofZ (hexValue s).
Proof.
  intros H Hs. destruct s as [|c r]; [congruence|]. clear Hs.
  unfold hexValue. rewrite <- parse_digits.
  2:{ cbn [ParseInt.digits]. cbn [allHex] in H.
      destruct (ParseInt.hexDigit c); [apply digits_read | discriminate]. }
  destruct c as [[] [] [] [] [] [] [] []]; try discriminate H;
    try reflexivity.
  destruct r as [|c2 r2]; [reflexivity|].
  cbn [allHex] in H. change (ParseInt.hexDigit "0") with (Some 0) in H. cbv iota in H.
  cbn [allHex] in H.
  destruct c2 as [[] [] [] [] [] [] [] []]; try discriminate H; reflexivity.
Qed.

Lemma autoInit_single env t a w :
  selected t = true -> tagArg t = Some a ->
  autoInit env [t] w = init env a w.
Proof.
  intros Hs Ha. unfold autoInit. rewrite filter_cons, decide_True by exact Hs.
  rewrite filter_nil. cbn [forEach]. rewrite Ha. unfold bind, ret.
  destruct (init env a w) as [[[]|e] w']; reflexivity.
Qed.

Lemma strOr_nonempty p d : p <> "" -> strOr (Some p) d = p.
Proof. destruct p; [congruence | reflexivity]. Qed.

(** X28.  For a single selected tag with a non-empty [data-preset] and a
    [data-color] made of hexadecimal digits, [autoInit] is [init] with that
    preset and the number the digits denote as colour. *)
Theorem data_color_hex_is_passed (env : Env) (t : ScriptTag) (p s : string)
    (w : World) :
  selected t = true -> dataAuto t = false ->
  dataPreset t = Some p -> p <> "" ->
  dataColor t = Some s -> s <> "" -> allHex s = true ->
  autoInit env [t] w
  = init env (ArgObject {| preset := Some p; container := None;
                           fallbackId := None;
                           optColor := Some (Num.ofZ (hexValue s));
                           custom := None |}) w.
Proof.
  intros Hsel Ha Hp Hpn Hc Hsn Hx. apply autoInit_single; [exact Hsel|].
  unfold tagArg, colorOf. rewrite Ha, Hp, Hc.
  destruct p as [|pc p']; [congruence|]. destruct s as [|sc s']; [congruence|].
  rewrite (parseInt16_hex _ Hx) by discriminate. reflexivity.
Qed.

Lemma data_color_hex_is_passed_witness :
  color <$> config (hero (snd (autoInit envAllFine [tagQuantum]
                                 (freshWorld "/" true false ∅))))
  = Some (Some 0xd4a543%float).
Proof.
  rewrite (data_color_hex_is_passed envAllFine tagQuantum "quantum" "d4a543"
             (freshWorld "/" true false ∅));
    [ reflexivity | reflexivity | reflexivity | reflexivity | discriminate
    | reflexivity | discriminate | reflexivity ].
Defined.

(** X29.  A [data-color] that starts with "#", or whose hexadecimal digits
    denote 0 (black), is ignored: the configuration is the preset named by
    [data-preset] (or the waves default), with the preset's colour. *)
Theorem data_color_ignored (env : Env) (t : ScriptTag) (p s : string) (w : World) :
  selected t = true -> dataAuto t = false ->
  dataPreset t = Some p -> p <> "" ->
  dataColor t = Some s ->
  String.prefix "#" s = true
  \/ (s <> "" /\ allHex s = true /\ hexValue s = 0) ->
  initialized (hero w) = false ->
  config (hero (snd (autoInit env [t] w))) = Some (presetOrWaves p).
Proof.
  intros Hsel Ha Hp Hpn Hc Hs Hi.
  assert (Hf : exists c, colorOf t = Some c /\ Num.truthy c = false).
  { unfold colorOf. rewrite Hc. destruct Hs as [Hs | (Hn & Hx & Hv)].
    - apply prefix_app in Hs as [r ->]. eexists. split; reflexivity.
    - destruct s as [|c r]; [congruence|].
      rewrite (parseInt16_hex _ Hx) by discriminate. rewrite Hv.
      eexists. split; reflexivity. }
  destruct Hf as (c & Hcol & Hfalsy).
  rewrite (autoInit_single env t
             (ArgObject {| preset := Some p; container := None; fallbackId := None;
                           optColor := Some c; custom := None |}) w Hsel).
  - rewrite (init_config env (ArgObject _) _ w Hi eq_refl).
    unfold resolveConfig, presetNameOf. cbn [preset custom optColor default].
    rewrite (strOr_nonempty p _ Hpn), Hfalsy, spread_noOverrides. reflexivity.
  - unfold tagArg. rewrite Ha, Hp, Hcol. destruct p; [congruence | reflexivity].
Qed.

Lemma data_color_ignored_witness :
  config (hero (snd (autoInit envAllFine
     [ {| scriptSrc := Some "/js/wave-hero.js"; dataAuto := false;
          dataPreset := Some "grid"; dataColor := Some "#000000" |} ]
     (freshWorld "/" true false ∅))))
  = Some Presets.grid.
Proof.
  apply (data_color_ignored envAllFine
           {| scriptSrc := Some "/js/wave-hero.js"; dataAuto := false;
              dataPreset := Some "grid"; dataColor := Some "#000000" |}
           "grid" "#000000" (freshWorld "/" true false ∅));
    [ reflexivity | reflexivity | reflexivity | discriminate | reflexivity
    | left; reflexivity | reflexivity ].
Defined.
